(** * ecoevocrm GUI: the animation controller

    A shallow embedding of [src/ecoevocrm/gui/animation_controller.py]
    (class [AnimationController]) and the properties its specification
    states about it.

    Numbers.  The class computes with Python floats.  The controller is
    modelled with exact rationals ([Q]): [<], [<=] and [==] are the rational
    order and [Qeq], and arithmetic does not round.  Finite floats compare
    as the rationals they denote, so what rests on comparisons alone reads
    the same on floats; NaN and the infinities are not modelled.  Where the
    specification states the value of an arithmetic expression, the
    expression is evaluated a second time on IEEE binary64
    ([Module Binary64], on the Standard Library's [SpecFloat]).

    Containers.  Python lists are [list]s; a [dict] keyed by lineage id is a
    [gmap string Q]; numpy arrays are lists (1-D) or lists of rows (2-D).

    Errors.  Every list read of the class is guarded by a length test or by
    the index [bisect_left] returns; the one statement that can raise is the
    indexing [self.buffer_N_by_lineage[idx]] inside
    [add_multi_type_data_chunk], when that list is shorter than
    [buffer_times].  An uncaught [IndexError] is [None]. *)

From Stdlib Require Import QArith Lqa Lia List Sorted.
From Stdlib Require Import Floats.SpecFloat.
From stdpp Require Import gmap strings list fin_maps sorting.
From Equations Require Import Equations.

Local Open Scope Q_scope.

(** ** Python primitives used by the controller *)

(** [x < y] on floats, as a boolean. *)
Definition Qltb (x y : Q) : bool := negb (Qle_bool y x).

(** [min(a, b)] and [max(a, b)]: the first argument is kept unless the
    second is strictly smaller (larger). *)
Definition py_min (a b : Q) : Q := if Qltb b a then b else a.
Definition py_max (a b : Q) : Q := if Qltb a b then b else a.

(** [t in l] for a list of floats: some element compares [==] to [t]. *)
Definition py_in (t : Q) (l : list Q) : bool := existsb (fun e => Qeq_bool e t) l.

(** [l.index(t)]: the first position whose element compares [==] to [t];
    [None] stands for [ValueError]. *)
Fixpoint py_index (t : Q) (l : list Q) : option nat :=
  match l with
  | [] => None
  | e :: l' => if Qeq_bool e t then Some O else S <$> py_index t l'
  end.

(** [l.insert(idx, x)]; an index past the end appends. *)
Definition py_insert {A} (idx : nat) (x : A) (l : list A) : list A :=
  take idx l ++ x :: drop idx l.

(** [l[-1]] on a non-empty list ([d] is never returned on one). *)
Definition py_last {A} (l : list A) (d : A) : A := default d (last l).

(** [(lo + hi) // 2]. *)
Definition midpoint (lo hi : nat) : nat := ((lo + hi) / 2)%nat.
Arguments midpoint : simpl never.

(** [bisect.bisect_left(a, x)], the loop of the standard library:
<<
    while lo < hi:
        mid = (lo + hi) // 2
        if a[mid] < x: lo = mid + 1
        else: hi = mid
    return lo
>> *)
Equations? bisect_loop (a : list Q) (x : Q) (lo hi : nat) : nat
  by wf (hi - lo)%nat lt :=
  bisect_loop a x lo hi with lt_dec lo hi => {
    | left _ with Qltb (nth (midpoint lo hi) a 0) x => {
        | true := bisect_loop a x (midpoint lo hi + 1) hi ;
        | false := bisect_loop a x lo (midpoint lo hi) } ;
    | right _ := lo }.
Proof.
  all: unfold midpoint;
    pose proof (Nat.div_mod_eq (lo + hi) 2);
    pose proof (Nat.mod_upper_bound (lo + hi) 2); lia.
Qed.

Definition bisect_left (a : list Q) (x : Q) : nat :=
  bisect_loop a x 0 (length a).

(** ** numpy arrays handed to [add_multi_type_data_chunk]

    [N_epoch] is 1-D (one abundance per type) or 2-D (types x times).  A 2-D
    array carries its column count, which numpy knows even with no rows. *)
Inductive ndarray :=
| Array1 (data : list Q)
| Array2 (ncols : nat) (rows : list (list Q)).

Definition ndim (N : ndarray) : nat :=
  match N with Array1 _ => 1 | Array2 _ _ => 2 end.

(** [N.shape[0]] *)
Definition shape0 (N : ndarray) : nat :=
  match N with Array1 d => length d | Array2 _ rows => length rows end.

(** [N.shape[1]] (only read when [N.ndim > 1]) *)
Definition shape1 (N : ndarray) : nat :=
  match N with Array1 _ => 0 | Array2 c _ => c end.

(** The abundance read for row [type_idx] and time index [i]:
<<
    if N_epoch.ndim > 1:
        if i < N_epoch.shape[1]: abundance = N_epoch[type_idx, i]
        else:                    abundance = N_epoch[type_idx, -1]
    else:
        abundance = N_epoch[type_idx]
>>
    [None] stands for the [IndexError] of an out-of-range read. *)
Definition read_abundance (N : ndarray) (type_idx i : nat) : option Q :=
  match N with
  | Array1 d => d !! type_idx
  | Array2 c rows =>
      row ← rows !! type_idx;
      if (i <? c)%nat then row !! i
      else if (c =? 0)%nat then None else row !! (c - 1)%nat
  end.

(** ** The controller state *)

Record AnimationController := mkController {
  buffer_times : list Q;
  buffer_biomass : list Q;
  buffer_N_by_lineage : list (gmap string Q);
  current_lineageIDs : list string;
  mutation_events : list Q;
  animation_time : Q;
  integration_time : Q;
  animation_speed : Q;
  is_playing : bool;
  last_real_time : option Q;
  buffer_critical : Q;
  buffer_low : Q;
  (** [_lineage_to_global_idx] and [_global_lineage_list], created together
      on the first multi-type chunk ([hasattr] is false before). *)
  lineage_registry : option (gmap string nat * list string);
  (** [_multi_type_chunk_count], created on the first multi-type chunk. *)
  multi_type_chunk_count : option nat
}.

Definition _lineage_to_global_idx (st : AnimationController) : option (gmap string nat) :=
  fst <$> lineage_registry st.

Definition _global_lineage_list (st : AnimationController) : option (list string) :=
  snd <$> lineage_registry st.

(** [__init__(default_speed, buffer_critical, buffer_low)] *)
Definition init (default_speed critical low : Q) : AnimationController :=
  {| buffer_times := []; buffer_biomass := []; buffer_N_by_lineage := [];
     current_lineageIDs := []; mutation_events := [];
     animation_time := 0; integration_time := 0;
     animation_speed := default_speed; is_playing := true;
     last_real_time := None;
     buffer_critical := critical; buffer_low := low;
     lineage_registry := None; multi_type_chunk_count := None |}.

(** [AnimationController()] with the defaults of the signature. *)
Definition default_controller : AnimationController := init 1 100 1000.

(** Field updates. *)
Definition with_buffers (ts bs : list Q) (ns : list (gmap string Q))
    (st : AnimationController) : AnimationController :=
  {| buffer_times := ts; buffer_biomass := bs; buffer_N_by_lineage := ns;
     current_lineageIDs := current_lineageIDs st;
     mutation_events := mutation_events st;
     animation_time := animation_time st;
     integration_time := integration_time st;
     animation_speed := animation_speed st; is_playing := is_playing st;
     last_real_time := last_real_time st;
     buffer_critical := buffer_critical st; buffer_low := buffer_low st;
     lineage_registry := lineage_registry st;
     multi_type_chunk_count := multi_type_chunk_count st |}.

Definition with_integration_time (t : Q) (st : AnimationController) : AnimationController :=
  {| buffer_times := buffer_times st; buffer_biomass := buffer_biomass st;
     buffer_N_by_lineage := buffer_N_by_lineage st;
     current_lineageIDs := current_lineageIDs st;
     mutation_events := mutation_events st;
     animation_time := animation_time st;
     integration_time := t;
     animation_speed := animation_speed st; is_playing := is_playing st;
     last_real_time := last_real_time st;
     buffer_critical := buffer_critical st; buffer_low := buffer_low st;
     lineage_registry := lineage_registry st;
     multi_type_chunk_count := multi_type_chunk_count st |}.

Definition with_animation_time (t : Q) (st : AnimationController) : AnimationController :=
  {| buffer_times := buffer_times st; buffer_biomass := buffer_biomass st;
     buffer_N_by_lineage := buffer_N_by_lineage st;
     current_lineageIDs := current_lineageIDs st;
     mutation_events := mutation_events st;
     animation_time := t;
     integration_time := integration_time st;
     animation_speed := animation_speed st; is_playing := is_playing st;
     last_real_time := last_real_time st;
     buffer_critical := buffer_critical st; buffer_low := buffer_low st;
     lineage_registry := lineage_registry st;
     multi_type_chunk_count := multi_type_chunk_count st |}.

Definition with_animation_speed (s : Q) (st : AnimationController) : AnimationController :=
  {| buffer_times := buffer_times st; buffer_biomass := buffer_biomass st;
     buffer_N_by_lineage := buffer_N_by_lineage st;
     current_lineageIDs := current_lineageIDs st;
     mutation_events := mutation_events st;
     animation_time := animation_time st;
     integration_time := integration_time st;
     animation_speed := s; is_playing := is_playing st;
     last_real_time := last_real_time st;
     buffer_critical := buffer_critical st; buffer_low := buffer_low st;
     lineage_registry := lineage_registry st;
     multi_type_chunk_count := multi_type_chunk_count st |}.

Definition with_is_playing (b : bool) (st : AnimationController) : AnimationController :=
  {| buffer_times := buffer_times st; buffer_biomass := buffer_biomass st;
     buffer_N_by_lineage := buffer_N_by_lineage st;
     current_lineageIDs := current_lineageIDs st;
     mutation_events := mutation_events st;
     animation_time := animation_time st;
     integration_time := integration_time st;
     animation_speed := animation_speed st; is_playing := b;
     last_real_time := last_real_time st;
     buffer_critical := buffer_critical st; buffer_low := buffer_low st;
     lineage_registry := lineage_registry st;
     multi_type_chunk_count := multi_type_chunk_count st |}.

Definition with_lineages (ids : list string) (events : list Q)
    (reg : option (gmap string nat * list string)) (count : option nat)
    (st : AnimationController) : AnimationController :=
  {| buffer_times := buffer_times st; buffer_biomass := buffer_biomass st;
     buffer_N_by_lineage := buffer_N_by_lineage st;
     current_lineageIDs := ids;
     mutation_events := events;
     animation_time := animation_time st;
     integration_time := integration_time st;
     animation_speed := animation_speed st; is_playing := is_playing st;
     last_real_time := last_real_time st;
     buffer_critical := buffer_critical st; buffer_low := buffer_low st;
     lineage_registry := reg;
     multi_type_chunk_count := count |}.

(** ** [add_data_chunk] *)

(** One turn of the loop [for t, biomass in zip(t_list, biomass_list)]. *)
Definition add_point (st : AnimationController) (p : Q * Q) : AnimationController :=
  let '(t, biomass) := p in
  if py_in t (buffer_times st) then st
  else
    let idx := bisect_left (buffer_times st) t in
    with_buffers (py_insert idx t (buffer_times st))
                 (py_insert idx biomass (buffer_biomass st))
                 (py_insert idx ∅ (buffer_N_by_lineage st)) st.

(** The closing statement of both chunk methods:
    [if len(self.buffer_times) > 0: self.integration_time = self.buffer_times[-1]] *)
Definition update_integration_time (st : AnimationController) : AnimationController :=
  if (0 <? length (buffer_times st))%nat
  then with_integration_time (py_last (buffer_times st) 0) st
  else st.

(** [add_data_chunk(t_epoch, biomass_epoch)] on 1-D arrays; a scalar pair is
    the call with two singleton lists. *)
Definition add_data_chunk (st : AnimationController)
    (t_epoch biomass_epoch : list Q) : AnimationController :=
  let t_list := t_epoch in
  let biomass_list := biomass_epoch in
  let min_len := Nat.min (length t_list) (length biomass_list) in
  let mismatch := negb (length t_list =? length biomass_list)%nat in
  let t_list := if mismatch then take min_len t_list else t_list in
  let biomass_list := if mismatch then take min_len biomass_list else biomass_list in
  update_integration_time (fold_left add_point (zip t_list biomass_list) st).

(** ** [get_speed_factor] *)

Definition get_speed_factor (st : AnimationController) : Q :=
  let buffer_gap := integration_time st - animation_time st in
  if Qltb buffer_gap (buffer_critical st) then 0.1
  else if Qltb buffer_gap (buffer_low st) then
    let proportion :=
      (buffer_gap - buffer_critical st) / (buffer_low st - buffer_critical st) in
    0.1 + 0.9 * proportion
  else 1.

(** ** [_interpolate_biomass]

    The method returns a float and, in its length-mismatch branch, rebinds
    [self.buffer_times] and [self.buffer_biomass]; the model returns the
    value together with the controller it leaves behind. *)
Definition _interpolate_biomass (st : AnimationController) (t : Q)
    : Q * AnimationController :=
  if ((length (buffer_times st) =? 0) || (length (buffer_biomass st) =? 0))%nat
  then (0, st)
  else
    let st :=
      if negb (length (buffer_times st) =? length (buffer_biomass st))%nat then
        let min_len := Nat.min (length (buffer_times st)) (length (buffer_biomass st)) in
        with_buffers (take min_len (buffer_times st))
                     (take min_len (buffer_biomass st))
                     (buffer_N_by_lineage st) st
      else st in
    if Qle_bool t (nth 0 (buffer_times st) 0) then
      (nth 0 (buffer_biomass st) 0, st)
    else if Qle_bool (py_last (buffer_times st) 0) t then
      (py_last (buffer_biomass st) 0, st)
    else
      let idx := bisect_left (buffer_times st) t in
      let t0 := nth (idx - 1) (buffer_times st) 0 in
      let t1 := nth idx (buffer_times st) 0 in
      let y0 := nth (idx - 1) (buffer_biomass st) 0 in
      let y1 := nth idx (buffer_biomass st) 0 in
      if Qeq_bool t1 t0 then (y0, st)
      else
        let alpha := (t - t0) / (t1 - t0) in
        (y0 + alpha * (y1 - y0), st).

(** ** [get_next_frame] *)

Definition get_next_frame (st : AnimationController) (real_time_delta : Q)
    : option (Q * Q) * AnimationController :=
  if negb (is_playing st) then (None, st)
  else if (length (buffer_times st) =? 0)%nat then (None, st)
  else
    let speed_factor := get_speed_factor st in
    let delta_anim_time := real_time_delta * animation_speed st * speed_factor in
    let st := with_animation_time (animation_time st + delta_anim_time) st in
    let st :=
      if Qltb (integration_time st) (animation_time st)
      then with_animation_time (integration_time st) st
      else st in
    let '(biomass, st) := _interpolate_biomass st (animation_time st) in
    (Some (animation_time st, biomass), st).

(** ** [get_buffer_status] *)

Inductive health := Healthy | Low | Critical.

Record buffer_status := {
  status_buffer_gap : Q;
  status_buffer_size : nat;
  status_speed_factor : Q;
  status_health : health
}.

Definition get_buffer_status (st : AnimationController) : buffer_status :=
  let buffer_gap := integration_time st - animation_time st in
  let speed_factor := get_speed_factor st in
  let h :=
    if Qle_bool (buffer_low st) buffer_gap then Healthy
    else if Qle_bool (buffer_critical st) buffer_gap then Low
    else Critical in
  {| status_buffer_gap := buffer_gap;
     status_buffer_size := length (buffer_times st);
     status_speed_factor := speed_factor;
     status_health := h |}.

(** ** [play], [pause], [set_speed] *)

Definition play (st : AnimationController) : AnimationController :=
  with_is_playing true st.

Definition pause (st : AnimationController) : AnimationController :=
  with_is_playing false st.

Definition set_speed (st : AnimationController) (speed : Q) : AnimationController :=
  with_animation_speed (py_max 0.1 (py_min speed 10)) st.

(** ** [add_multi_type_data_chunk] *)

(** One turn of the loop that fills the global registry:
<<
    if lid not in self._lineage_to_global_idx:
        global_idx = len(self._global_lineage_list)
        self._lineage_to_global_idx[lid] = global_idx
        self._global_lineage_list.append(lid)
>> *)
Definition register_lineage (reg : gmap string nat * list string) (lid : string)
    : gmap string nat * list string :=
  match reg.1 !! lid with
  | Some _ => reg
  | None => (<[lid := length reg.2]> reg.1, reg.2 ++ [lid])
  end.

(** [enumerate(l)] *)
Definition enumerate {A} (l : list A) : list (nat * A) := imap pair l.

(** One turn of the inner loop [for type_idx, lineage_id in enumerate(lineageIDs)]
    for time index [i] and buffer index [idx].  A failed read stores [0.0]
    (the [except IndexError] branch); the write
    [self.buffer_N_by_lineage[idx][lineage_id] = ...] raises [IndexError]
    out of the method when [idx] is past the end of the list. *)
Definition store_abundance (N : ndarray) (i idx : nat)
    (acc : option (list (gmap string Q))) (p : nat * string)
    : option (list (gmap string Q)) :=
  buf ← acc;
  if (p.1 <? shape0 N)%nat then
    let abundance := default 0 (read_abundance N p.1 i) in
    if (idx <? length buf)%nat
    then Some (alter (insert p.2 abundance) idx buf)
    else None
  else Some buf.

(** One turn of the outer loop [for i, t in enumerate(t_list)]. *)
Definition store_time (N : ndarray) (lineageIDs : list string)
    (acc : option AnimationController) (p : nat * Q)
    : option AnimationController :=
  st ← acc;
  if negb (py_in p.2 (buffer_times st)) then Some st
  else
    idx ← py_index p.2 (buffer_times st);
    buf ← fold_left (store_abundance N p.1 idx) (enumerate lineageIDs)
                    (Some (buffer_N_by_lineage st));
    Some (with_buffers (buffer_times st) (buffer_biomass st) buf st).

(** The registry after the loop [for lid in lineageIDs]; the two attributes
    start as [{}] and [[]] when [hasattr] is false. *)
Definition update_registry (st : AnimationController) (lineageIDs : list string)
    : gmap string nat * list string :=
  fold_left register_lineage lineageIDs (default (∅, []) (lineage_registry st)).

(** [expected_time_points]: [N_epoch.shape[1]] for a matrix, else [1]. *)
Definition expected_time_points (N_epoch : ndarray) : nat :=
  if (1 <? ndim N_epoch)%nat then shape1 N_epoch else 1%nat.

(** [lineageIDs] after the contract check against [N_epoch.shape[0]]. *)
Definition validated_ids (N_epoch : ndarray) (lineageIDs : list string) : list string :=
  if negb (shape0 N_epoch =? length lineageIDs)%nat
  then take (Nat.min (shape0 N_epoch) (length lineageIDs)) lineageIDs
  else lineageIDs.

(** [t_list] after the length check against [expected_time_points]. *)
Definition validated_times (N_epoch : ndarray) (t_list : list Q) : list Q :=
  if negb (length t_list =? expected_time_points N_epoch)%nat
  then take (Nat.min (length t_list) (expected_time_points N_epoch)) t_list
  else t_list.

(** Mutation detection, on the validated lists:
<<
    prev_num_types = len(self.current_lineageIDs)
    new_num_types = len(lineageIDs)
    if new_num_types > prev_num_types and len(t_list) > 0:
        self.mutation_events.append(t_list[-1])
>> *)
Definition detect_mutation (st : AnimationController)
    (lineageIDs : list string) (t_list : list Q) : list Q :=
  let prev_num_types := length (current_lineageIDs st) in
  let new_num_types := length lineageIDs in
  if ((prev_num_types <? new_num_types) && (0 <? length t_list))%nat
  then mutation_events st ++ [py_last t_list 0]
  else mutation_events st.

(** [add_multi_type_data_chunk(t_epoch, N_epoch, lineageIDs)] with [t_epoch]
    a 1-D array (a scalar time is the singleton list) and [N_epoch] of
    dimension 1 or 2. *)
Definition add_multi_type_data_chunk (st : AnimationController)
    (t_epoch : list Q) (N_epoch : ndarray) (lineageIDs : list string)
    : option AnimationController :=
  let reg := update_registry st lineageIDs in
  let t_list := t_epoch in
  let lineageIDs := validated_ids N_epoch lineageIDs in
  let t_list := validated_times N_epoch t_list in
  let events := detect_mutation st lineageIDs t_list in
  let count := S (default O (multi_type_chunk_count st)) in
  let st := with_lineages lineageIDs events (Some reg) (Some count) st in
  st ← fold_left (store_time N_epoch lineageIDs) (enumerate t_list) (Some st);
  Some (update_integration_time st).

(** ** [_interpolate_multi_type_abundance]

    Returns the interpolated dict and the controller left behind (the
    length-mismatch branch rebinds the three buffers). *)
Definition _interpolate_multi_type_abundance (st : AnimationController) (t : Q)
    : gmap string Q * AnimationController :=
  if ((length (buffer_times st) =? 0) || (length (buffer_N_by_lineage st) =? 0))%nat
  then (∅, st)
  else
    let st :=
      if negb (length (buffer_times st) =? length (buffer_N_by_lineage st))%nat then
        let min_len :=
          Nat.min (length (buffer_times st)) (length (buffer_N_by_lineage st)) in
        with_buffers (take min_len (buffer_times st))
                     (take min_len (buffer_biomass st))
                     (take min_len (buffer_N_by_lineage st)) st
      else st in
    if Qle_bool t (nth 0 (buffer_times st) 0) then
      (nth 0 (buffer_N_by_lineage st) ∅, st)
    else if Qle_bool (py_last (buffer_times st) 0) t then
      (py_last (buffer_N_by_lineage st) ∅, st)
    else
      let idx := bisect_left (buffer_times st) t in
      let t0 := nth (idx - 1) (buffer_times st) 0 in
      let t1 := nth idx (buffer_times st) 0 in
      let N_dict0 := nth (idx - 1) (buffer_N_by_lineage st) ∅ in
      let N_dict1 := nth idx (buffer_N_by_lineage st) ∅ in
      let alpha := if Qltb t0 t1 then (t - t0) / (t1 - t0) else 0 in
      let all_lineages : gset string := dom N_dict0 ∪ dom N_dict1 in
      let N_interp : gmap string Q :=
        set_to_map (fun lineage_id =>
                      let y0 := default 0 (N_dict0 !! lineage_id) in
                      let y1 := default 0 (N_dict1 !! lineage_id) in
                      (lineage_id, y0 + alpha * (y1 - y0)))
                   all_lineages in
      (N_interp, st).

(** ** [get_mutation_events_in_range] *)

Definition get_mutation_events_in_range (st : AnimationController)
    (t_start t_end : Q) : list Q :=
  List.filter (fun t => Qle_bool t_start t && Qle_bool t t_end) (mutation_events st).

(** ** [reset] *)

Definition reset (st : AnimationController) : AnimationController :=
  {| buffer_times := []; buffer_biomass := []; buffer_N_by_lineage := [];
     current_lineageIDs := []; mutation_events := [];
     animation_time := 0; integration_time := 0;
     animation_speed := animation_speed st;
     is_playing := true;
     last_real_time := None;
     buffer_critical := buffer_critical st; buffer_low := buffer_low st;
     lineage_registry := lineage_registry st;
     multi_type_chunk_count := multi_type_chunk_count st |}.

(** ** Sequences of calls

    The calls a client can make on a controller.  The two interpolation
    methods are included because the plot widgets call them and because
    they can rebind the buffers. *)
Inductive op :=
| AddDataChunk (t_epoch biomass_epoch : list Q)
| AddMultiTypeDataChunk (t_epoch : list Q) (N_epoch : ndarray) (lineageIDs : list string)
| GetNextFrame (real_time_delta : Q)
| InterpolateBiomass (t : Q)
| InterpolateMultiTypeAbundance (t : Q)
| Play
| Pause
| SetSpeed (speed : Q)
| Reset.

(** The controller after one call; [None] when the call raises. *)
Definition exec (st : AnimationController) (o : op) : option AnimationController :=
  match o with
  | AddDataChunk ts bs => Some (add_data_chunk st ts bs)
  | AddMultiTypeDataChunk ts N ids => add_multi_type_data_chunk st ts N ids
  | GetNextFrame delta => Some (get_next_frame st delta).2
  | InterpolateBiomass t => Some (_interpolate_biomass st t).2
  | InterpolateMultiTypeAbundance t => Some (_interpolate_multi_type_abundance st t).2
  | Play => Some (play st)
  | Pause => Some (pause st)
  | SetSpeed speed => Some (set_speed st speed)
  | Reset => Some (reset st)
  end.

(** The controller after a sequence of calls, first call first. *)
Fixpoint run (st : AnimationController) (ops : list op) : option AnimationController :=
  match ops with
  | [] => Some st
  | o :: ops' => st' ← exec st o; run st' ops'
  end.

(** ** The arithmetic of the controller on IEEE doubles

    The scalar interpolation, the speed factor and the per-lineage
    interpolation once more, as the source writes them, on binary64 values
    with round-to-nearest-even.  Only the two lists that the scalar
    interpolation reads are kept of the controller. *)
Module Binary64.

Definition float : Type := spec_float.

Definition prec : Z := 53.

Definition emax : Z := 1024.

(** The double of an integer (exact below 2^53). *)
Definition of_Z (z : Z) : float := binary_normalize prec emax z 0 false.

Definition add : float -> float -> float := SFadd prec emax.

Definition sub : float -> float -> float := SFsub prec emax.

Definition mul : float -> float -> float := SFmul prec emax.

Definition div : float -> float -> float := SFdiv prec emax.

(** The double nearest to [a / b]: how Python reads a decimal literal such
    as [0.1] (1/10), since IEEE division rounds correctly. *)
Definition of_ratio (a b : Z) : float := div (of_Z a) (of_Z b).

(** [x < y], [x <= y], [x == y] on floats. *)
Definition ltb : float -> float -> bool := SFltb.

Definition leb : float -> float -> bool := SFleb.

Definition eqb : float -> float -> bool := SFeqb.

Definition zero : float := of_Z 0.

Definition py_in (t : float) (l : list float) : bool :=
  existsb (fun e => eqb e t) l.

Equations? bisect_loop (a : list float) (x : float) (lo hi : nat) : nat
  by wf (hi - lo)%nat lt :=
  bisect_loop a x lo hi with lt_dec lo hi => {
    | left _ with ltb (nth (midpoint lo hi) a zero) x => {
        | true := bisect_loop a x (midpoint lo hi + 1) hi ;
        | false := bisect_loop a x lo (midpoint lo hi) } ;
    | right _ := lo }.
Proof.
  all: unfold midpoint;
    pose proof (Nat.div_mod_eq (lo + hi) 2);
    pose proof (Nat.mod_upper_bound (lo + hi) 2); lia.
Qed.

Definition bisect_left (a : list float) (x : float) : nat :=
  bisect_loop a x 0 (length a).

(** [buffer_times] and [buffer_biomass] *)
Definition buffer : Type := list float * list float.

(** One turn of the loop of [add_data_chunk]. *)
Definition add_point (buf : buffer) (p : float * float) : buffer :=
  if py_in p.1 buf.1 then buf
  else
    let idx := bisect_left buf.1 p.1 in
    (py_insert idx p.1 buf.1, py_insert idx p.2 buf.2).

(** [add_data_chunk(t_epoch, biomass_epoch)] on the two lists. *)
Definition add_data_chunk (buf : buffer) (t_epoch biomass_epoch : list float) : buffer :=
  let t_list := t_epoch in
  let biomass_list := biomass_epoch in
  let min_len := Nat.min (length t_list) (length biomass_list) in
  let mismatch := negb (length t_list =? length biomass_list)%nat in
  let t_list := if mismatch then take min_len t_list else t_list in
  let biomass_list := if mismatch then take min_len biomass_list else biomass_list in
  fold_left add_point (zip t_list biomass_list) buf.

(** [_interpolate_biomass(t)], the value returned. *)
Definition _interpolate_biomass (buf : buffer) (t : float) : float :=
  let buffer_times := buf.1 in
  let buffer_biomass := buf.2 in
  if ((length buffer_times =? 0) || (length buffer_biomass =? 0))%nat then zero
  else
    let mismatch := negb (length buffer_times =? length buffer_biomass)%nat in
    let min_len := Nat.min (length buffer_times) (length buffer_biomass) in
    let buffer_times := if mismatch then take min_len buffer_times else buffer_times in
    let buffer_biomass := if mismatch then take min_len buffer_biomass else buffer_biomass in
    if leb t (nth 0 buffer_times zero) then nth 0 buffer_biomass zero
    else if leb (py_last buffer_times zero) t then py_last buffer_biomass zero
    else
      let idx := bisect_left buffer_times t in
      let t0 := nth (idx - 1) buffer_times zero in
      let t1 := nth idx buffer_times zero in
      let y0 := nth (idx - 1) buffer_biomass zero in
      let y1 := nth idx buffer_biomass zero in
      if eqb t1 t0 then y0
      else
        let alpha := div (sub t t0) (sub t1 t0) in
        add y0 (mul alpha (sub y1 y0)).

(** [get_speed_factor()], from the two clocks and the two thresholds. *)
Definition get_speed_factor
    (integration_time animation_time buffer_critical buffer_low : float) : float :=
  let buffer_gap := sub integration_time animation_time in
  if ltb buffer_gap buffer_critical then of_ratio 1 10
  else if ltb buffer_gap buffer_low then
    let proportion := div (sub buffer_gap buffer_critical) (sub buffer_low buffer_critical) in
    add (of_ratio 1 10) (mul (of_ratio 9 10) proportion)
  else of_Z 1.

(** The value [_interpolate_multi_type_abundance] stores for one lineage:
    [y0 + alpha * (y1 - y0)] with
    [alpha = (t - t0) / (t1 - t0) if t1 > t0 else 0]. *)
Definition interpolated_abundance (t t0 t1 y0 y1 : float) : float :=
  let alpha := if ltb t0 t1 then div (sub t t0) (sub t1 t0) else zero in
  add y0 (mul alpha (sub y1 y0)).

End Binary64.

(** ** [SuppressionWindow.process_data_chunk]

    The method of [gui/suppression_window.py] that feeds one epoch of the
    simulation to the controller the window owns:
<<
    self.animation_controller.add_data_chunk(t_epoch, biomass_epoch)
    if len(lineageIDs) > 0:
        self.animation_controller.add_multi_type_data_chunk(
            t_epoch, N_epoch, lineageIDs)
>>
    [lineageIDs] is [data.get('lineageIDs', [])]: the empty list when the
    key is missing. *)
Definition process_data_chunk (st : AnimationController)
    (t_epoch : list Q) (N_epoch : ndarray) (biomass_epoch : list Q)
    (lineageIDs : list string) : option AnimationController :=
  let st := add_data_chunk st t_epoch biomass_epoch in
  if (0 <? length lineageIDs)%nat
  then add_multi_type_data_chunk st t_epoch N_epoch lineageIDs
  else Some st.

(** * [gui/interpolation_utils.py]

    [align_xy_for_interp(x, y, min_points)] cleans two arrays before they
    are handed to an interpolator.  The arrays are 1-D numpy float arrays,
    which can hold infinities and NaN; from step 4 on they hold finite
    values only and are lists of [Q].  The [debug] and [context] arguments
    only drive logging and are left out, as is the conversion of step 1
    (the inputs are 1-D arrays already). *)

(** An element of a numpy float array. *)
Inductive npfloat :=
| Finite (q : Q)
| PosInf
| NegInf
| NaN.

(** [np.isfinite] on one element. *)
Definition isfinite (v : npfloat) : bool :=
  match v with Finite _ => true | _ => false end.

(** [a[mask]] for a boolean mask as long as [a]. *)
Fixpoint boolean_index {A} (a : list A) (mask : list bool) : list A :=
  match a, mask with
  | v :: a', b :: mask' =>
      if b then v :: boolean_index a' mask' else boolean_index a' mask'
  | _, _ => []
  end.

(** [a[idx]] for an array of indices; [None] stands for [IndexError]. *)
Definition fancy_index {A} (a : list A) (idx : list nat) : option (list A) :=
  mapM (fun i => a !! i) idx.

(** The values of an array whose elements are all finite. *)
Definition finite_values (a : list npfloat) : list Q :=
  omap (fun v => match v with Finite q => Some q | _ => None end) a.

(** [np.all(np.diff(a) > 0)] *)
Definition all_diff_positive (a : list Q) : bool :=
  forallb (fun p => Qltb 0 (p.2 - p.1)) (zip a (tail a)).

(** [np.sort(np.unique(a, return_index=True)[1])]: the indices of the first
    occurrences of the values of [a], ascending. *)
Definition unique_index (a : list Q) : list nat :=
  filter (fun i => py_in (nth i a 0) (take i a) = false) (seq 0 (length a)).

(** The [message] of a status, with the numbers it prints. *)
Inductive message :=
| Empty_arrays (x_len y_len : nat)
| Insufficient_points (n min_points : nat)
| After_cleanup (n min_points : nat)
| Arrays_aligned_successfully.

(** The status dict. *)
Record status := mkStatus {
  valid : bool;
  status_message : message;
  x_len_in : nat;
  y_len_in : nat;
  x_len_out : nat;
  y_len_out : nat;
  actions : list string
}.

(** [align_xy_for_interp(x, y, min_points)].  [np.argsort] is a parameter:
    numpy's default sort does not fix the order of equal keys. *)
Definition align_xy_for_interp (argsort : list Q -> list nat)
    (x y : list npfloat) (min_points : nat)
    : option (option (list Q) * option (list Q) * status) :=
  let actions : list string := [] in
  let x_len_in := length x in
  let y_len_in := length y in
  if ((x_len_in =? 0) || (y_len_in =? 0))%nat then
    Some (None, None,
          mkStatus false (Empty_arrays x_len_in y_len_in)
                   x_len_in y_len_in 0 0 ["empty_arrays"])
  else
    let mismatch := negb (x_len_in =? y_len_in)%nat in
    let min_len := Nat.min x_len_in y_len_in in
    let x_arr := if mismatch then take min_len x else x in
    let y_arr := if mismatch then take min_len y else y in
    let actions := if mismatch then actions ++ ["truncated"] else actions in
    let valid_mask := zip_with (fun a b => isfinite a && isfinite b) x_arr y_arr in
    let all_valid := forallb id valid_mask in
    let x_arr :=
      finite_values (if all_valid then x_arr else boolean_index x_arr valid_mask) in
    let y_arr :=
      finite_values (if all_valid then y_arr else boolean_index y_arr valid_mask) in
    let actions := if all_valid then actions else actions ++ ["removed_nan_inf"] in
    if (length x_arr <? min_points)%nat then
      Some (None, None,
            mkStatus false (Insufficient_points (length x_arr) min_points)
                     x_len_in y_len_in (length x_arr) (length y_arr)
                     (actions ++ ["insufficient_points"]))
    else
      let need_sort := (1 <? length x_arr)%nat && negb (all_diff_positive x_arr) in
      xy ← (if need_sort then
              let sort_idx := argsort x_arr in
              x' ← fancy_index x_arr sort_idx;
              y' ← fancy_index y_arr sort_idx;
              Some (x', y')
            else Some (x_arr, y_arr));
      let x_arr := xy.1 in
      let y_arr := xy.2 in
      let actions := if need_sort then actions ++ ["sorted"] else actions in
      let unique_idx := unique_index x_arr in
      let has_duplicates :=
        (1 <? length x_arr)%nat && (length unique_idx <? length x_arr)%nat in
      xy ← (if has_duplicates then
              x' ← fancy_index x_arr unique_idx;
              y' ← fancy_index y_arr unique_idx;
              Some (x', y')
            else Some (x_arr, y_arr));
      let x_arr := xy.1 in
      let y_arr := xy.2 in
      let actions := if has_duplicates then actions ++ ["deduped"] else actions in
      if (length x_arr <? min_points)%nat then
        Some (None, None,
              mkStatus false (After_cleanup (length x_arr) min_points)
                       x_len_in y_len_in (length x_arr) (length y_arr)
                       (actions ++ ["insufficient_after_cleanup"]))
      else
        Some (Some x_arr, Some y_arr,
              mkStatus true Arrays_aligned_successfully
                       x_len_in y_len_in (length x_arr) (length y_arr)
                       (match actions with [] => ["no_changes"] | _ => actions end)).

(** [validate_interpolation_inputs(x, y, min_points)] *)
Definition validate_interpolation_inputs (x y : list npfloat) (min_points : nat)
    : bool :=
  if ((length x <? min_points) || (length y <? min_points))%nat then false
  else if negb (existsb isfinite x) || negb (existsb isfinite y) then false
  else true.

(** An [argsort]: merge sort of the indexed values by value.  It is one of
    the functions that sort; how it orders equal values is its own. *)
Definition value_le (p q : nat * Q) : Prop := Qle_bool p.2 q.2 = true.

#[global] Instance value_le_dec (p q : nat * Q) : Decision (value_le p q) :=
  decide (Qle_bool p.2 q.2 = true).

Definition merge_argsort (a : list Q) : list nat :=
  (merge_sort value_le (enumerate a)).*1.

(** * [gui/plot_widget.py]: class [BiomassPlotWidget]

    The data the widget keeps.  Of the matplotlib line only the two
    sequences last passed to [line.set_data] are kept; axes limits and
    drawing are left out. *)
Module BiomassPlotWidget.

Record widget := mkWidget {
  t_data : list Q;
  biomass_data : list Q;
  (** [None] shows the whole history *)
  window_size : option Q;
  all_t_data : list Q;
  all_biomass_data : list Q;
  line_data : list Q * list Q
}.

(** [__init__(window_size=None)] *)
Definition init (window_size : option Q) : widget :=
  mkWidget [] [] window_size [] [] ([], []).

(** [update_data(t_new, biomass_new)] with arrays; a scalar pair appends
    one element to each list, as two singleton arrays do. *)
Definition update_data (w : widget) (t_new biomass_new : list Q) : widget :=
  let t_data := t_data w ++ t_new in
  let biomass_data := biomass_data w ++ biomass_new in
  mkWidget t_data biomass_data (window_size w)
           (all_t_data w) (all_biomass_data w) (t_data, biomass_data).

(** [add_streaming_point(t, biomass)]:
<<
    self.all_t_data.append(t)
    self.all_biomass_data.append(biomass)
    if self.window_size is not None:
        visible_indices = [i for i, t_val in enumerate(self.all_t_data)
                           if t_val >= t - self.window_size]
        visible_t = [self.all_t_data[i] for i in visible_indices]
        visible_biomass = [self.all_biomass_data[i] for i in visible_indices]
    else:
        visible_t = self.all_t_data
        visible_biomass = self.all_biomass_data
    self.line.set_data(visible_t, visible_biomass)
>>
    [None] stands for the [IndexError] of a read past the end. *)
Definition add_streaming_point (w : widget) (t biomass : Q) : option widget :=
  let all_t_data := all_t_data w ++ [t] in
  let all_biomass_data := all_biomass_data w ++ [biomass] in
  visible ←
    match window_size w with
    | Some window_size =>
        let visible_indices :=
          (filter (fun p : nat * Q => Qle_bool (t - window_size) p.2 = true)
                  (enumerate all_t_data)).*1 in
        visible_t ← fancy_index all_t_data visible_indices;
        visible_biomass ← fancy_index all_biomass_data visible_indices;
        Some (visible_t, visible_biomass)
    | None => Some (all_t_data, all_biomass_data)
    end;
  Some (mkWidget (t_data w) (biomass_data w) (window_size w)
                 all_t_data all_biomass_data visible).

(** [set_window_size(size)]: stores the size and, when there is history,
    calls [add_streaming_point] with the last point of the history. *)
Definition set_window_size (w : widget) (size : option Q) : option widget :=
  let w := mkWidget (t_data w) (biomass_data w) size
                    (all_t_data w) (all_biomass_data w) (line_data w) in
  if (0 <? length (all_t_data w))%nat then
    t_current ← last (all_t_data w);
    biomass ← last (all_biomass_data w);
    add_streaming_point w t_current biomass
  else Some w.

(** [clear_plot()] *)
Definition clear_plot (w : widget) : widget :=
  mkWidget [] [] (window_size w) [] [] ([], []).

End BiomassPlotWidget.

(** * [gui/main_window.py]: class [MainWindow]

    The window owns a controller and a biomass plot and remembers the time
    of the last frame.  Buttons, labels, timers and the worker process are
    left out ([on_stop_clicked] touches nothing else); [time.time()] is an
    argument. *)
Module MainWindow.

Record window := mkWindow {
  animation_controller : AnimationController;
  plot_widget : BiomassPlotWidget.widget;
  last_frame_time : option Q
}.

(** [__init__]: [AnimationController()], [BiomassPlotWidget()]. *)
Definition init : window :=
  mkWindow default_controller (BiomassPlotWidget.init None) None.

(** [on_run_clicked], once the parameters have been read. *)
Definition on_run_clicked (w : window) : window :=
  mkWindow (reset (animation_controller w))
           (BiomassPlotWidget.clear_plot (plot_widget w)) None.

(** [poll_data] on one chunk that has the key ['epoch_completed']. *)
Definition poll_data (w : window) (t_epoch biomass_epoch : list Q) : window :=
  mkWindow (add_data_chunk (animation_controller w) t_epoch biomass_epoch)
           (plot_widget w) (last_frame_time w).

(** [animate_frame], with [current_time = time.time()]. *)
Definition animate_frame (w : window) (current_time : Q) : option window :=
  match last_frame_time w with
  | None => Some (mkWindow (animation_controller w) (plot_widget w) (Some current_time))
  | Some last =>
      let real_time_delta := current_time - last in
      let '(frame_data, controller) :=
        get_next_frame (animation_controller w) real_time_delta in
      match frame_data with
      | Some (t_sim, biomass) =>
          plot ← BiomassPlotWidget.add_streaming_point (plot_widget w) t_sim biomass;
          Some (mkWindow controller plot (Some current_time))
      | None => Some (mkWindow controller (plot_widget w) (Some current_time))
      end
  end.

(** [toggle_play_pause] *)
Definition toggle_play_pause (w : window) : window :=
  if is_playing (animation_controller w)
  then mkWindow (pause (animation_controller w)) (plot_widget w) (last_frame_time w)
  else mkWindow (play (animation_controller w)) (plot_widget w) None.

(** [on_speed_changed], with [speed] the value
    [0.1 * (10 ** ((value - 1) / 99 * 2))] computed from the slider. *)
Definition on_speed_changed (w : window) (speed : Q) : window :=
  mkWindow (set_speed (animation_controller w) speed) (plot_widget w)
           (last_frame_time w).

(** [on_zoom_in] *)
Definition on_zoom_in (w : window) : option window :=
  match BiomassPlotWidget.window_size (plot_widget w) with
  | None =>
      let total_time := integration_time (animation_controller w) in
      if Qltb 0 total_time then
        plot ← BiomassPlotWidget.set_window_size (plot_widget w) (Some (total_time * 0.5));
        Some (mkWindow (animation_controller w) plot (last_frame_time w))
      else Some w
  | Some current =>
      plot ← BiomassPlotWidget.set_window_size (plot_widget w) (Some (current * 0.5));
      Some (mkWindow (animation_controller w) plot (last_frame_time w))
  end.

(** [on_zoom_out] *)
Definition on_zoom_out (w : window) : option window :=
  match BiomassPlotWidget.window_size (plot_widget w) with
  | Some current =>
      let new_size := current * 2 in
      let total_time := integration_time (animation_controller w) in
      plot ← (if Qle_bool total_time new_size
              then BiomassPlotWidget.set_window_size (plot_widget w) None
              else BiomassPlotWidget.set_window_size (plot_widget w) (Some new_size));
      Some (mkWindow (animation_controller w) plot (last_frame_time w))
  | None => Some w
  end.

(** [on_zoom_reset] *)
Definition on_zoom_reset (w : window) : option window :=
  plot ← BiomassPlotWidget.set_window_size (plot_widget w) None;
  Some (mkWindow (animation_controller w) plot (last_frame_time w)).

(** What can happen to the window, and the window after it. *)
Inductive event :=
| RunClicked
| PollData (t_epoch biomass_epoch : list Q)
| AnimateFrame (current_time : Q)
| TogglePlayPause
| SpeedChanged (speed : Q)
| ZoomIn
| ZoomOut
| ZoomReset.

Definition handle (w : window) (e : event) : option window :=
  match e with
  | RunClicked => Some (on_run_clicked w)
  | PollData t_epoch biomass_epoch => Some (poll_data w t_epoch biomass_epoch)
  | AnimateFrame current_time => animate_frame w current_time
  | TogglePlayPause => Some (toggle_play_pause w)
  | SpeedChanged speed => Some (on_speed_changed w speed)
  | ZoomIn => on_zoom_in w
  | ZoomOut => on_zoom_out w
  | ZoomReset => on_zoom_reset w
  end.

Fixpoint run (w : window) (events : list event) : option window :=
  match events with
  | [] => Some w
  | e :: events' => w' ← handle w e; run w' events'
  end.

End MainWindow.

(** * [gui/multi_type_plot_widget.py]: class [MultiTypePlotWidget]

    The data the widget keeps.  A colour is its index into [self.colors];
    of the palette only its length matters, which is [max_types_to_plot].
    A matplotlib line is the colour it was created with and the two
    sequences last passed to [set_data]; a mutation marker is the time of
    its vertical line.  Axes, legend and drawing are left out.

    A dict is iterated in insertion order, so [N_by_lineage] is the list of
    its items. *)
Module MultiTypePlotWidget.

Record line2d := mkLine {
  color : nat;
  line_t : list Q;
  line_N : list Q
}.

Record widget := mkWidget {
  lineage_id_map : gmap string nat;
  type_lines : gmap string line2d;
  (** [{'t': [...], 'N': [...]}] per lineage *)
  type_data : gmap string (list Q * list Q);
  mutation_markers : list Q;
  last_plotted_mutation_idx : nat;
  (** [len(self.colors)] *)
  num_colors : nat;
  window_size : option Q
}.

(** [__init__(max_types_to_plot=50, window_size=None)] *)
Definition init (max_types_to_plot : nat) (window_size : option Q) : widget :=
  mkWidget ∅ ∅ ∅ [] 0 max_types_to_plot window_size.

(** [assign_color(lineage_id)]: the colour index and the widget left
    behind; [None] stands for the [ZeroDivisionError] of [% len(self.colors)]
    with an empty palette. *)
Definition assign_color (w : widget) (lineage_id : string) : option (nat * widget) :=
  w ← (if decide (lineage_id ∈ dom (lineage_id_map w)) then Some w
       else
         if (num_colors w =? 0)%nat then None
         else
           let color_idx := (size (lineage_id_map w) mod num_colors w)%nat in
           Some (mkWidget (<[lineage_id := color_idx]> (lineage_id_map w))
                          (type_lines w) (type_data w) (mutation_markers w)
                          (last_plotted_mutation_idx w) (num_colors w)
                          (window_size w)));
  color_idx ← lineage_id_map w !! lineage_id;
  Some (color_idx, w).

(** One turn of the loop [for lineage_id, abundance in N_by_lineage.items()]
    of [update_data]. *)
Definition update_line (t_new : Q) (acc : option widget) (item : string * Q)
    : option widget :=
  w ← acc;
  let '(lineage_id, abundance) := item in
  let data := default ([], []) (type_data w !! lineage_id) in
  let data := (data.1 ++ [t_new], data.2 ++ [py_max abundance (1 # 10000000000)]) in
  let w := mkWidget (lineage_id_map w) (type_lines w)
                    (<[lineage_id := data]> (type_data w)) (mutation_markers w)
                    (last_plotted_mutation_idx w) (num_colors w) (window_size w) in
  w ← (if decide (lineage_id ∈ dom (type_lines w)) then Some w
       else
         r ← assign_color w lineage_id;
         let '(color, w) := r in
         Some (mkWidget (lineage_id_map w)
                        (<[lineage_id := mkLine color [] []]> (type_lines w))
                        (type_data w) (mutation_markers w)
                        (last_plotted_mutation_idx w) (num_colors w)
                        (window_size w)));
  line ← type_lines w !! lineage_id;
  let t_data := data.1 in
  let N_data := data.2 in
  let mismatch := negb (length t_data =? length N_data)%nat in
  let min_len := Nat.min (length t_data) (length N_data) in
  let t_data := if mismatch then take min_len t_data else t_data in
  let N_data := if mismatch then take min_len N_data else N_data in
  let type_data :=
    if mismatch then <[lineage_id := (t_data, N_data)]> (type_data w)
    else type_data w in
  Some (mkWidget (lineage_id_map w)
                 (<[lineage_id := mkLine (color line) t_data N_data]> (type_lines w))
                 type_data (mutation_markers w)
                 (last_plotted_mutation_idx w) (num_colors w) (window_size w)).

(** [update_data(t_new, N_by_lineage, mutation_occurred)] *)
Definition update_data (w : widget) (t_new : Q) (N_by_lineage : list (string * Q))
    (mutation_occurred : bool) : option widget :=
  w ← fold_left (update_line t_new) N_by_lineage (Some w);
  Some (mkWidget (lineage_id_map w) (type_lines w) (type_data w)
                 (if mutation_occurred then mutation_markers w ++ [t_new]
                  else mutation_markers w)
                 (last_plotted_mutation_idx w) (num_colors w) (window_size w)).

(** [update_from_controller(animation_controller)]: the widget and the
    controller left behind.  [items] lists a dict in its iteration order,
    which for the interpolated dict is the order of a Python set. *)
Definition update_from_controller (items : gmap string Q -> list (string * Q))
    (w : widget) (animation_controller : AnimationController)
    : option (widget * AnimationController) :=
  let t_anim := animation_time animation_controller in
  if Qeq_bool t_anim 0 then Some (w, animation_controller)
  else
    let '(N_by_lineage, animation_controller) :=
      _interpolate_multi_type_abundance animation_controller t_anim in
    if decide (N_by_lineage = ∅) then Some (w, animation_controller)
    else
      let new_events :=
        (last_plotted_mutation_idx w <? length (mutation_events animation_controller))%nat in
      let mutation_occurred := new_events in
      let w :=
        if new_events
        then mkWidget (lineage_id_map w) (type_lines w) (type_data w)
                      (mutation_markers w)
                      (length (mutation_events animation_controller))
                      (num_colors w) (window_size w)
        else w in
      w ← update_data w t_anim (items N_by_lineage) mutation_occurred;
      Some (w, animation_controller).

(** [clear_plot()] *)
Definition clear_plot (w : widget) : widget :=
  mkWidget ∅ ∅ ∅ [] 0 (num_colors w) (window_size w).

End MultiTypePlotWidget.

(** * [gui/utils.py]: [parse_array_input]

    [float] is Python's [float(x.strip())] on one field: [None] stands for
    [ValueError].  The bare [except] turns every error into [None]. *)

(** The separator [','] (code 44). *)
Definition comma : Ascii.ascii := Ascii.ascii_of_nat 44.

(** [text.split(',')] *)
Fixpoint split_comma (text : string) : list string :=
  match text with
  | EmptyString => [EmptyString]
  | String c rest =>
      if Ascii.eqb c comma
      then EmptyString :: split_comma rest
      else match split_comma rest with
           | field :: fields => String c field :: fields
           | [] => [String c EmptyString]
           end
  end.

(** [parse_array_input(text, expected_length)] *)
Definition parse_array_input (float : string -> option Q)
    (text : string) (expected_length : nat) : option (list Q) :=
  match mapM float (split_comma text) with
  | Some values =>
      if (length values =? 1)%nat
      then Some (replicate expected_length (nth 0 values 0))
      else if (length values =? expected_length)%nat then Some values
      else None
  | None => None
  end.

(** * Properties of the data model *)

(** The time sequence is strictly increasing: sorted, without duplicates. *)
Definition strictly_increasing (l : list Q) : Prop :=
  forall i j x y, l !! i = Some x -> l !! j = Some y -> (i < j)%nat -> x < y.

(** The three parallel buffers have one length. *)
Definition aligned (st : AnimationController) : Prop :=
  length (buffer_times st) = length (buffer_biomass st) /\
  length (buffer_times st) = length (buffer_N_by_lineage st).

Definition buffers_ok (st : AnimationController) : Prop :=
  strictly_increasing (buffer_times st) /\ aligned st.

(** A registry extends another when it keeps every ordinal and every entry
    of the list, in place. *)
Definition registry_extends (r r' : option (gmap string nat * list string)) : Prop :=
  forall reg, r = Some reg ->
    exists reg', r' = Some reg' /\
      (forall lid n, reg.1 !! lid = Some n -> reg'.1 !! lid = Some n) /\
      reg.2 `prefix_of` reg'.2.

(** ** Clocks *)

(** Calls with non-negative simulation times and wall-clock deltas. *)
Definition nonneg_op (o : op) : Prop :=
  match o with
  | AddDataChunk t_epoch _ => Forall (Qle 0) t_epoch
  | GetNextFrame real_time_delta => 0 <= real_time_delta
  | _ => True
  end.

(** What holds of the clocks between calls: [integration_time] is the last
    buffered time (0 on an empty buffer), buffered times are non-negative,
    and the cursor is at or behind the data. *)
Definition clock_ok (st : AnimationController) : Prop :=
  buffers_ok st /\
  integration_time st = py_last (buffer_times st) 0 /\
  Forall (Qle 0) (buffer_times st) /\
  animation_time st <= integration_time st /\
  0 <= animation_speed st.

(** The cursor after a tick on an aligned controller. *)
Definition next_animation_time (st : AnimationController) (delta : Q) : Q :=
  if negb (is_playing st) || (length (buffer_times st) =? 0)%nat
  then animation_time st
  else
    let a := animation_time st + delta * animation_speed st * get_speed_factor st in
    if Qltb (integration_time st) a then integration_time st else a.

(** ** Runs used as examples *)

(** The example of the specification: [{A: 1}] buffered at time 0 and
    [{A: 2, B: 4}] at time 10. *)
Definition entity_union_calls : list op :=
  [AddDataChunk [0; 10] [1; 6];
   AddMultiTypeDataChunk [0] (Array2 1 [[1]]) ["A"];
   AddMultiTypeDataChunk [10] (Array2 1 [[2]; [4]]) ["A"; "B"]].

Definition entity_union_example : AnimationController :=
  default default_controller (run default_controller entity_union_calls).

(** Two epochs with one lineage, then one with three. *)
Definition one_lineage_calls : list op :=
  [AddDataChunk [0; 1; 2] [1; 1; 1];
   AddMultiTypeDataChunk [0] (Array2 1 [[1]]) ["A"];
   AddMultiTypeDataChunk [1] (Array2 1 [[1]]) ["A"]].

Definition one_lineage_example : AnimationController :=
  default default_controller (run default_controller one_lineage_calls).

Definition three_lineages_example : AnimationController :=
  default one_lineage_example
    (add_multi_type_data_chunk one_lineage_example
       [2] (Array2 1 [[1]; [1]; [1]]) ["A"; "B"; "C"]).

(** A first run registers A and B; after [reset] a second run brings C
    and A. *)
Definition first_run_example : AnimationController :=
  default default_controller
    (run default_controller
       [AddMultiTypeDataChunk [0] (Array2 1 [[1]; [2]]) ["A"; "B"]]).

Definition second_run_calls : list op :=
  [Reset; AddMultiTypeDataChunk [0] (Array2 1 [[3]; [4]]) ["C"; "A"]].

Definition second_run_example : AnimationController :=
  default first_run_example (run first_run_example second_run_calls).

(** A buffer of doubles with an ordinary drop in biomass, from 100.0 to 0.1
    at time 1.0, and one with a large first value. *)
Definition drop_buffer : Binary64.buffer :=
  Binary64.add_data_chunk ([], [])
    [Binary64.of_Z 0; Binary64.of_Z 1; Binary64.of_Z 2]
    [Binary64.of_Z 100; Binary64.of_ratio 1 10; Binary64.of_Z 5].

Definition large_buffer : Binary64.buffer :=
  Binary64.add_data_chunk ([], [])
    [Binary64.of_Z 0; Binary64.of_Z 1; Binary64.of_Z 2]
    [Binary64.of_Z (10 ^ 16); Binary64.of_Z 1; Binary64.of_Z 5].

(** ** Interpolated dicts *)

(** The dict that [_interpolate_multi_type_abundance] builds between two
    neighbouring stored dicts [d0] and [d1] with weight [a]. *)
Definition blend (a : Q) (d0 d1 : gmap string Q) : gmap string Q :=
  set_to_map (fun lineage_id =>
                (lineage_id,
                 default 0 (d0 !! lineage_id)
                 + a * (default 0 (d1 !! lineage_id) - default 0 (d0 !! lineage_id))))
             (dom d0 ∪ dom d1).



(** ** Samples *)

(** The buffered samples: each time with the biomass and the per-lineage
    dict stored at the same index. *)
Definition samples (st : AnimationController) : list (Q * (Q * gmap string Q)) :=
  zip (buffer_times st) (zip (buffer_biomass st) (buffer_N_by_lineage st)).

(** ** The integration clock *)

(** [integration_time] is the last buffered time, and 0 on an empty
    buffer. *)
Definition clock_synced (st : AnimationController) : Prop :=
  buffers_ok st /\ integration_time st = py_last (buffer_times st) 0.

(** ** Dicts written by a multi-type chunk *)

(** The dict of one sample after the loop
    [for type_idx, lineage_id in enumerate(lineageIDs)] has run over the
    pairs [ps] for time index [i]. *)
Definition write_pairs (N : ndarray) (i : nat) (ps : list (nat * string))
    (d : gmap string Q) : gmap string Q :=
  fold_left (fun d p =>
               if (p.1 <? shape0 N)%nat
               then <[p.2 := default 0 (read_abundance N p.1 i)]> d
               else d)
            ps d.

Definition write_row (N : ndarray) (i : nat) (lineageIDs : list string)
    (d : gmap string Q) : gmap string Q :=
  write_pairs N i (enumerate lineageIDs) d.

(** ** The lineage registry *)

(** The dict and the list of the registry are inverse to each other. *)
Definition registry_ok (reg : gmap string nat * list string) : Prop :=
  forall lid n, reg.1 !! lid = Some n <-> reg.2 !! n = Some lid.

(** Every lineage of a buffered dict, and every current lineage, has a
    global index. *)
Definition keys_registered (st : AnimationController) : Prop :=
  forall lid,
    (exists d, d ∈ buffer_N_by_lineage st /\ is_Some (d !! lid)) \/
    lid ∈ current_lineageIDs st ->
    exists reg, lineage_registry st = Some reg /\ is_Some (reg.1 !! lid).

Definition registry_inv (st : AnimationController) : Prop :=
  buffers_ok st /\
  (forall reg, lineage_registry st = Some reg -> registry_ok reg) /\
  keys_registered st.

(** ** Controllers that differ in the registry only *)

(** The controller with the registry and the chunk counter replaced. *)
Definition set_registry (reg : option (gmap string nat * list string))
    (count : option nat) (st : AnimationController) : AnimationController :=
  with_lineages (current_lineageIDs st) (mutation_events st) reg count st.

(** The controller without registry and chunk counter, as [__init__]
    leaves it. *)
Definition forget_registry (st : AnimationController) : AnimationController :=
  set_registry None None st.

(** ** Cleaned arrays *)

Definition nondecreasing (l : list Q) : Prop :=
  forall i j x y, l !! i = Some x -> l !! j = Some y -> (i < j)%nat -> x <= y.

(** What the cleaning relies on of [np.argsort]: the result is a
    permutation of the positions, and reading the array in that order gives
    a non-decreasing sequence. *)
Definition argsort_ok (argsort : list Q -> list nat) : Prop :=
  forall a,
    argsort a ≡ₚ seq 0 (length a) /\
    forall xs, fancy_index a (argsort a) = Some xs -> nondecreasing xs.

(** The pairs of finite values at equal positions of two arrays. *)
Definition finite_pairs (x y : list npfloat) : list (Q * Q) :=
  omap (fun p => match p with
                 | (Finite a, Finite b) => Some (a, b)
                 | _ => None
                 end)
       (zip x y).

(** ** The main window *)

(** The wall-clock times at which frames are animated. *)
Definition timestamps (events : list MainWindow.event) : list Q :=
  omap (fun e => match e with
                 | MainWindow.AnimateFrame current_time => Some current_time
                 | _ => None
                 end) events.

(** Epochs with non-negative simulation times. *)
Definition nonneg_event (e : MainWindow.event) : Prop :=
  match e with
  | MainWindow.PollData t_epoch _ => Forall (Qle 0) t_epoch
  | _ => True
  end.

(** What holds of the window between events, [future] being the
    wall-clock times of the frames still to come. *)
Definition window_ok (w : MainWindow.window) (future : list Q) : Prop :=
  let controller := MainWindow.animation_controller w in
  let plot := MainWindow.plot_widget w in
  clock_ok controller /\
  length (BiomassPlotWidget.all_t_data plot)
    = length (BiomassPlotWidget.all_biomass_data plot) /\
  nondecreasing (BiomassPlotWidget.all_t_data plot) /\
  Forall (fun t => t <= animation_time controller) (BiomassPlotWidget.all_t_data plot) /\
  (forall last, MainWindow.last_frame_time w = Some last -> Forall (Qle last) future).

(** ** The multi-type plot *)

(** The lineages of a sequence in the order of their first appearance,
    after those already [seen]. *)
Definition appear (seen ids : list string) : list string :=
  fold_left (fun acc lid => if decide (lid ∈ acc) then acc else acc ++ [lid]) ids seen.

Definition first_appearances (ids : list string) : list string := appear [] ids.

(** A frame handed to [update_data]: time, items of the dict, mutation
    flag. *)
Definition plot_frames (w : MultiTypePlotWidget.widget)
    (frames : list (Q * list (string * Q) * bool))
    : option MultiTypePlotWidget.widget :=
  fold_left (fun acc f => w ← acc; MultiTypePlotWidget.update_data w f.1.1 f.1.2 f.2)
            frames (Some w).

(** The lineage ids of a sequence of frames, in the order in which the
    loop of [update_data] meets them. *)
Definition frame_ids (frames : list (Q * list (string * Q) * bool)) : list string :=
  concat ((fun f => f.1.2.*1) <$> frames).

(** What holds of the plot between calls, [seen] being the lineages met so
    far in order of first appearance. *)
Definition plot_ok (w : MultiTypePlotWidget.widget) (seen : list string) : Prop :=
  (0 < MultiTypePlotWidget.num_colors w)%nat /\
  NoDup seen /\
  length seen = size (MultiTypePlotWidget.lineage_id_map w) /\
  (forall lid c, MultiTypePlotWidget.lineage_id_map w !! lid = Some c <->
     exists k, seen !! k = Some lid /\
               c = (k mod MultiTypePlotWidget.num_colors w)%nat) /\
  (forall lid, is_Some (MultiTypePlotWidget.type_lines w !! lid) <->
               is_Some (MultiTypePlotWidget.lineage_id_map w !! lid)) /\
  (forall lid, is_Some (MultiTypePlotWidget.type_lines w !! lid) <->
               is_Some (MultiTypePlotWidget.type_data w !! lid)) /\
  (forall lid ts Ns,
     MultiTypePlotWidget.type_data w !! lid = Some (ts, Ns) ->
     length ts = length Ns /\
     Forall (fun v => (1 # 10000000000) <= v) Ns /\
     exists c,
       MultiTypePlotWidget.type_lines w !! lid
         = Some (MultiTypePlotWidget.mkLine c ts Ns) /\
       MultiTypePlotWidget.lineage_id_map w !! lid = Some c).

(** * Proofs *)

(** ** Boolean comparisons and list primitives *)

Lemma midpoint_bounded lo hi : (lo < hi)%nat -> (lo <= midpoint lo hi < hi)%nat.
Proof.
  intros H. unfold midpoint.
  pose proof (Nat.div_mod_eq (lo + hi) 2).
  pose proof (Nat.mod_upper_bound (lo + hi) 2). lia.
Qed.

Lemma Qltb_lt x y : Qltb x y = true <-> x < y.
Proof.
  unfold Qltb. rewrite negb_true_iff, <- not_true_iff_false, Qle_bool_iff.
  split; [apply Qnot_le_lt | apply Qlt_not_le].
Qed.

Lemma Qltb_ge x y : Qltb x y = false <-> y <= x.
Proof.
  unfold Qltb. rewrite negb_false_iff, Qle_bool_iff. reflexivity.
Qed.

Lemma Qle_bool_gt x y : Qle_bool x y = false <-> y < x.
Proof.
  rewrite <- not_true_iff_false, Qle_bool_iff.
  split; [apply Qnot_le_lt | apply Qlt_not_le].
Qed.

Lemma Qeq_bool_false x y : Qeq_bool x y = false <-> ~ x == y.
Proof. rewrite <- not_true_iff_false, Qeq_bool_iff. reflexivity. Qed.

(** Turn every boolean comparison in the context into its proposition. *)
Ltac qprop :=
  repeat match goal with
  | H : Qltb _ _ = true |- _ => apply Qltb_lt in H
  | H : Qltb _ _ = false |- _ => apply Qltb_ge in H
  | H : Qle_bool _ _ = true |- _ => apply Qle_bool_iff in H
  | H : Qle_bool _ _ = false |- _ => apply Qle_bool_gt in H
  | H : Qeq_bool _ _ = true |- _ => apply Qeq_bool_iff in H
  | H : Qeq_bool _ _ = false |- _ => apply Qeq_bool_false in H
  end.

Lemma py_in_true t l : py_in t l = true <-> exists e, e ∈ l /\ e == t.
Proof.
  unfold py_in. rewrite existsb_exists. split.
  - intros (e & Hin & He). exists e. split; [by apply list_elem_of_In |].
    by apply Qeq_bool_iff.
  - intros (e & Hin & He). exists e. split; [by apply list_elem_of_In |].
    by apply Qeq_bool_iff.
Qed.

Lemma py_in_false t l : py_in t l = false <-> forall e, e ∈ l -> ~ e == t.
Proof.
  rewrite <- not_true_iff_false, py_in_true. split.
  - intros H e Hin He. apply H. eauto.
  - intros H (e & Hin & He). by apply (H e).
Qed.

Lemma py_index_Some t l :
  py_in t l = true -> exists idx, py_index t l = Some idx /\ (idx < length l)%nat.
Proof.
  induction l as [|e l IH]; simpl; [discriminate |].
  destruct (Qeq_bool e t); simpl.
  - intros _. exists O. split; [done | lia].
  - intros H. destruct (IH H) as (idx & -> & Hlt). exists (S idx).
    split; [done | lia].
Qed.

(** ** Sorted sequences and [bisect_left] *)

Lemma strictly_increasing_sorted l :
  strictly_increasing l <-> StronglySorted Qlt l.
Proof.
  split.
  - induction l as [|x l IH]; intros H; constructor.
    + apply IH. intros i j a b Hi Hj Hij. apply (H (S i) (S j)); auto with lia.
    + apply Forall_lookup. intros i y Hy. apply (H O (S i)); auto with lia.
  - induction 1 as [|x l Hs IH Hall]; intros i j a b Hi Hj Hij.
    + by rewrite lookup_nil in Hi.
    + destruct j as [|j]; [lia |]. simpl in Hj.
      destruct i as [|i]; simpl in Hi.
      * injection Hi as <-. rewrite Forall_lookup in Hall. by apply (Hall j).
      * apply (IH i j); auto with lia.
Qed.

(** The loop of [bisect_left] on a strictly increasing list: with everything
    left of [lo] below [x] and everything from [hi] on at least [x], the
    returned index splits the list the same way. *)
Lemma bisect_loop_spec a x lo hi :
  strictly_increasing a ->
  (lo <= hi <= length a)%nat ->
  (forall i y, (i < lo)%nat -> a !! i = Some y -> y < x) ->
  (forall i y, (hi <= i)%nat -> a !! i = Some y -> x <= y) ->
  (lo <= bisect_loop a x lo hi <= hi)%nat /\
  (forall i y, (i < bisect_loop a x lo hi)%nat -> a !! i = Some y -> y < x) /\
  (forall i y, (bisect_loop a x lo hi <= i)%nat -> a !! i = Some y -> x <= y).
Proof.
  intros Hs. funelim (bisect_loop a x lo hi); intros Hb Hlo Hhi.
  - (* lo >= hi *)
    split; [lia |]. split; [done |].
    intros i y Hi. apply Hhi. lia.
  - (* a[mid] < x *)
    pose proof (midpoint_bounded lo hi ltac:(lia)) as Hm.
    destruct (lookup_lt_is_Some_2 a (midpoint lo hi) ltac:(lia)) as [m Hmid].
    rewrite (nth_lookup_Some _ _ _ _ Hmid) in *. qprop.
    match goal with
    | IH : strictly_increasing _ -> _ |- _ =>
        destruct IH as (Hr & Hl & Hg); [done | lia | | done |]
    end.
    + intros i y Hi Hy.
      destruct (decide (i = midpoint lo hi)) as [->|Hne]; [congruence |].
      apply Qlt_trans with m; [| done].
      apply (Hs i (midpoint lo hi)); auto with lia.
    + split; [lia | done].
  - (* a[mid] >= x *)
    pose proof (midpoint_bounded lo hi ltac:(lia)) as Hm.
    destruct (lookup_lt_is_Some_2 a (midpoint lo hi) ltac:(lia)) as [m Hmid].
    rewrite (nth_lookup_Some _ _ _ _ Hmid) in *. qprop.
    match goal with
    | IH : strictly_increasing _ -> _ |- _ =>
        destruct IH as (Hr & Hl & Hg); [done | lia | done | |]
    end.
    + intros i y Hi Hy.
      destruct (decide (i = midpoint lo hi)) as [->|Hne]; [congruence |].
      apply Qle_trans with m; [done |]. apply Qlt_le_weak.
      apply (Hs (midpoint lo hi) i); auto with lia.
    + split; [lia | done].
Qed.

Lemma bisect_left_spec a x :
  strictly_increasing a ->
  (bisect_left a x <= length a)%nat /\
  (forall i y, (i < bisect_left a x)%nat -> a !! i = Some y -> y < x) /\
  (forall i y, (bisect_left a x <= i)%nat -> a !! i = Some y -> x <= y).
Proof.
  intros Hs. unfold bisect_left.
  destruct (bisect_loop_spec a x 0 (length a) Hs) as (Hr & Hl & Hg).
  - lia.
  - intros i y Hi. lia.
  - intros i y Hi Hy. apply lookup_lt_Some in Hy. lia.
  - split; [lia | done].
Qed.

(** On any list, sorted or not: once [a[0] < x] and [x < a[-1]] have been
    tested, the index returned is neither [0] nor [len(a)], so the reads
    [a[idx - 1]] and [a[idx]] of the interpolation methods are in range. *)
Lemma bisect_loop_low a x lo hi :
  (lo <= hi)%nat -> (1 <= hi)%nat -> Qltb (nth 0 a 0) x = true ->
  (1 <= bisect_loop a x lo hi)%nat.
Proof.
  funelim (bisect_loop a x lo hi); intros Hle Hhi H0.
  - lia.
  - pose proof (midpoint_bounded lo hi ltac:(lia)).
    match goal with IH : (_ <= _)%nat -> _ |- _ => apply IH; [lia | lia | done] end.
  - pose proof (midpoint_bounded lo hi ltac:(lia)).
    match goal with IH : (_ <= _)%nat -> _ |- _ => apply IH; [lia | | done] end.
    destruct (midpoint lo hi) eqn:E; [congruence | lia].
Qed.

Lemma bisect_loop_high a x lo hi :
  (lo <= hi <= length a)%nat -> (lo <= length a - 1)%nat ->
  Qltb (nth (length a - 1) a 0) x = false ->
  (bisect_loop a x lo hi <= length a - 1)%nat.
Proof.
  funelim (bisect_loop a x lo hi); intros Hle Hlo Hlast.
  - lia.
  - pose proof (midpoint_bounded lo hi ltac:(lia)).
    match goal with
    | IH : (_ <= _ <= _)%nat -> _ |- _ => apply IH; [lia | | done]
    end.
    destruct (decide (midpoint lo hi = length a - 1)%nat) as [E | ?]; [| lia].
    rewrite E in *. congruence.
  - pose proof (midpoint_bounded lo hi ltac:(lia)).
    match goal with
    | IH : (_ <= _ <= _)%nat -> _ |- _ => apply IH; [lia | lia | done]
    end.
Qed.

Lemma bisect_left_interior a x :
  Qle_bool x (nth 0 a 0) = false ->
  Qle_bool (py_last a 0) x = false ->
  (1 <= bisect_left a x <= length a - 1)%nat.
Proof.
  intros H0 Hl. unfold bisect_left.
  destruct a as [|y a]; [unfold py_last in *; simpl in *; qprop; lra |].
  split.
  - apply bisect_loop_low; [lia | simpl; lia |]. qprop. by apply Qltb_lt.
  - apply bisect_loop_high; [lia | lia |].
    unfold py_last in Hl. rewrite last_lookup in Hl.
    rewrite nth_lookup.
    replace (length (y :: a) - 1)%nat with (pred (length (y :: a))) by lia.
    qprop. apply Qltb_ge. lra.
Qed.

(** Inserting a new time at the index found by [bisect_left] keeps the
    sequence strictly increasing. *)
Lemma py_insert_sorted a x :
  strictly_increasing a -> py_in x a = false ->
  strictly_increasing (py_insert (bisect_left a x) x a).
Proof.
  intros Hs Hnew. destruct (bisect_left_spec a x Hs) as (Hk & Hl & Hg).
  rewrite py_in_false in Hnew.
  rewrite strictly_increasing_sorted in Hs |- *. unfold py_insert.
  rewrite <- (take_drop (bisect_left a x) a) in Hs.
  apply StronglySorted_app in Hs as (Hcross & Hs1 & Hs2).
  apply StronglySorted_app_2; [| done |].
  - intros x1 x2 H1 H2. apply elem_of_take in H1 as (i & Hi & Hlt).
    apply elem_of_cons in H2 as [-> | H2]; [by apply (Hl i) |].
    apply Hcross; [| done]. apply elem_of_take. eauto.
  - apply StronglySorted_cons. split; [| done].
    apply Forall_forall. intros y Hy.
    apply list_elem_of_lookup in Hy as (i & Hi). rewrite lookup_drop in Hi.
    assert (x <= y) by (apply (Hg (bisect_left a x + i)%nat); [lia | done]).
    assert (~ y == x) by (apply Hnew; by eapply list_elem_of_lookup_2).
    apply Qle_lt_or_eq in H as [? | Heq]; [done |]. by symmetry in Heq.
Qed.

Lemma py_insert_length {A} idx (x : A) l :
  length (py_insert idx x l) = S (length l).
Proof.
  unfold py_insert. rewrite length_app. simpl.
  rewrite length_take, length_drop. lia.
Qed.

Lemma py_insert_elem_of {A} idx (x y : A) l :
  y ∈ py_insert idx x l <-> y = x \/ y ∈ l.
Proof.
  unfold py_insert. rewrite elem_of_app, elem_of_cons.
  assert (y ∈ l <-> y ∈ take idx l \/ y ∈ drop idx l) as ->; [| tauto].
  by rewrite <- elem_of_app, take_drop.
Qed.

(** [l[-1]] of a strictly increasing list is its greatest element. *)
Lemma py_last_elem_of {A} (l : list A) d : l <> [] -> py_last l d ∈ l.
Proof.
  intros Hne. unfold py_last. apply last_is_Some in Hne as [x Hx].
  rewrite Hx. simpl. by apply last_Some_elem_of.
Qed.

Lemma py_last_greatest l d e :
  strictly_increasing l -> e ∈ l -> e <= py_last l d.
Proof.
  intros Hs He. unfold py_last.
  apply list_elem_of_lookup in He as (i & Hi).
  pose proof (lookup_lt_Some _ _ _ Hi) as Hlt.
  destruct (lookup_lt_is_Some_2 l (pred (length l)) ltac:(lia)) as [m Hm].
  rewrite last_lookup, Hm. simpl.
  destruct (decide (i = pred (length l))) as [-> | Hne].
  - rewrite Hi in Hm. injection Hm as ->. apply Qle_refl.
  - apply Qlt_le_weak. apply (Hs i (pred (length l))); auto with lia.
Qed.

(** ** The buffers stay sorted and aligned *)

Lemma init_buffers_ok s c l : buffers_ok (init s c l).
Proof.
  split; [| done]. intros i j x y Hi. simpl in Hi. by rewrite lookup_nil in Hi.
Qed.

Lemma reset_buffers_ok st : buffers_ok (reset st).
Proof.
  split; [| done]. intros i j x y Hi. simpl in Hi. by rewrite lookup_nil in Hi.
Qed.

Lemma add_point_buffers_ok st p : buffers_ok st -> buffers_ok (add_point st p).
Proof.
  intros [Hs [Hb Hn]]. destruct p as [t b]. unfold add_point.
  destruct (py_in t (buffer_times st)) eqn:Hin; [done |].
  split; simpl.
  - by apply py_insert_sorted.
  - unfold aligned. simpl. rewrite !py_insert_length. lia.
Qed.

Lemma fold_add_point_buffers_ok ps st :
  buffers_ok st -> buffers_ok (fold_left add_point ps st).
Proof.
  revert st. induction ps as [|p ps IH]; intros st H; simpl; [done |].
  apply IH. by apply add_point_buffers_ok.
Qed.

Lemma update_integration_time_buffers st :
  buffer_times (update_integration_time st) = buffer_times st /\
  buffer_biomass (update_integration_time st) = buffer_biomass st /\
  buffer_N_by_lineage (update_integration_time st) = buffer_N_by_lineage st.
Proof. unfold update_integration_time. by destruct (0 <? _)%nat. Qed.

Lemma update_integration_time_buffers_ok st :
  buffers_ok st -> buffers_ok (update_integration_time st).
Proof.
  unfold buffers_ok, aligned.
  destruct (update_integration_time_buffers st) as (-> & -> & ->). done.
Qed.

Lemma add_data_chunk_buffers_ok st ts bs :
  buffers_ok st -> buffers_ok (add_data_chunk st ts bs).
Proof.
  intros H. unfold add_data_chunk.
  by apply update_integration_time_buffers_ok, fold_add_point_buffers_ok.
Qed.

(** The interpolation queries leave an aligned controller as it is: their
    length-mismatch branches are not taken. *)
Lemma interpolate_biomass_state st t :
  length (buffer_times st) = length (buffer_biomass st) ->
  (_interpolate_biomass st t).2 = st.
Proof.
  intros H. unfold _interpolate_biomass.
  destruct (_ || _); [done |].
  rewrite H, Nat.eqb_refl. simpl.
  repeat match goal with |- context [if ?b then _ else _] => destruct b end; done.
Qed.

Lemma interpolate_multi_state st t :
  length (buffer_times st) = length (buffer_N_by_lineage st) ->
  (_interpolate_multi_type_abundance st t).2 = st.
Proof.
  intros H. unfold _interpolate_multi_type_abundance.
  destruct (_ || _); [done |].
  rewrite H, Nat.eqb_refl. simpl.
  repeat match goal with |- context [if ?b then _ else _] => destruct b end; done.
Qed.

(** [get_next_frame] changes nothing but [animation_time] on an aligned
    controller. *)
Lemma get_next_frame_state st delta :
  aligned st ->
  exists a, (get_next_frame st delta).2 = with_animation_time a st.
Proof.
  intros [Hb _]. unfold get_next_frame.
  destruct (negb (is_playing st)); [exists (animation_time st); by destruct st |].
  destruct (_ =? _)%nat; [exists (animation_time st); by destruct st |].
  match goal with
  | |- context [_interpolate_biomass ?s ?t] =>
      pose proof (interpolate_biomass_state s t) as Hi;
      destruct (_interpolate_biomass s t) as [b s'] eqn:E
  end.
  simpl in Hi. rewrite Hi.
  - destruct (Qltb _ _); simpl; eauto.
  - by destruct (Qltb _ _).
Qed.

(** The abundance loops keep every list length and touch nothing but the
    dicts. *)
Lemma fold_store_abundance_Some N i idx ps buf :
  (idx < length buf)%nat ->
  exists buf', fold_left (store_abundance N i idx) ps (Some buf) = Some buf' /\
               length buf' = length buf.
Proof.
  revert buf. induction ps as [|p ps IH]; intros buf Hidx; simpl; [eauto |].
  destruct (p.1 <? shape0 N)%nat; [| by apply IH].
  apply Nat.ltb_lt in Hidx as Hlt. rewrite Hlt.
  destruct (IH (alter (insert p.2 (default 0 (read_abundance N p.1 i))) idx buf))
    as (buf' & Hf & Hlen).
  - by rewrite length_alter.
  - exists buf'. split; [done |]. by rewrite Hlen, length_alter.
Qed.

Lemma fold_store_time_Some N ids ps st :
  aligned st ->
  exists buf, length buf = length (buffer_N_by_lineage st) /\
    fold_left (store_time N ids) ps (Some st)
    = Some (with_buffers (buffer_times st) (buffer_biomass st) buf st).
Proof.
  revert st. induction ps as [|p ps IH]; intros st Hal; simpl.
  - exists (buffer_N_by_lineage st). split; [done |]. by destruct st.
  - destruct (py_in p.2 (buffer_times st)) eqn:Hin; simpl.
    + destruct (py_index_Some _ _ Hin) as (idx & -> & Hidx). simpl.
      destruct (fold_store_abundance_Some N p.1 idx (enumerate ids)
                  (buffer_N_by_lineage st)) as (buf & -> & Hlen).
      { destruct Hal as [_ <-]. done. }
      simpl.
      destruct (IH (with_buffers (buffer_times st) (buffer_biomass st) buf st))
        as (buf' & Hlen' & ->).
      { destruct Hal as [H1 H2]. split; simpl; [done | congruence]. }
      simpl in *. exists buf'. split; [congruence | done].
    + by apply IH.
Qed.

Lemma add_multi_type_data_chunk_Some st ts N ids :
  aligned st ->
  exists buf, length buf = length (buffer_N_by_lineage st) /\
    add_multi_type_data_chunk st ts N ids
    = Some (update_integration_time
              (with_buffers (buffer_times st) (buffer_biomass st) buf
                 (with_lineages (validated_ids N ids)
                    (detect_mutation st (validated_ids N ids) (validated_times N ts))
                    (Some (update_registry st ids))
                    (Some (S (default O (multi_type_chunk_count st)))) st))).
Proof.
  intros Hal. unfold add_multi_type_data_chunk.
  match goal with
  | |- context [fold_left (store_time ?n ?l) ?ps (Some ?s)] =>
      destruct (fold_store_time_Some n l ps s) as (buf & Hlen & ->); [done |]
  end.
  simpl. eauto.
Qed.

Lemma add_multi_type_data_chunk_buffers_ok st ts N ids st' :
  buffers_ok st -> add_multi_type_data_chunk st ts N ids = Some st' ->
  buffers_ok st'.
Proof.
  intros [Hs Hal] H.
  destruct (add_multi_type_data_chunk_Some st ts N ids Hal) as (buf & Hlen & E).
  rewrite E in H. injection H as <-.
  apply update_integration_time_buffers_ok. split; [done |].
  destruct Hal as [H1 H2]. split; simpl; [done | congruence].
Qed.

Lemma exec_buffers_ok st o :
  buffers_ok st -> exists st', exec st o = Some st' /\ buffers_ok st'.
Proof.
  intros Hok. pose proof Hok as [Hs [Hb Hn]]. destruct o; simpl.
  - eexists. split; [done |]. by apply add_data_chunk_buffers_ok.
  - destruct (add_multi_type_data_chunk_Some st t_epoch N_epoch lineageIDs)
      as (buf & Hlen & E); [done |].
    eexists. split; [done |].
    by eapply add_multi_type_data_chunk_buffers_ok.
  - destruct (get_next_frame_state st real_time_delta) as [a ->]; [done |].
    eexists. split; [done |]. done.
  - rewrite interpolate_biomass_state by done. eauto.
  - rewrite interpolate_multi_state by done. eauto.
  - eexists. split; [done |]. done.
  - eexists. split; [done |]. done.
  - eexists. split; [done |]. done.
  - eexists. split; [done |]. apply reset_buffers_ok.
Qed.

(** Every sequence of calls runs to completion on a sorted, aligned
    controller, and leaves one. *)
Lemma run_buffers_ok ops st :
  buffers_ok st -> exists st', run st ops = Some st' /\ buffers_ok st'.
Proof.
  revert st. induction ops as [|o ops IH]; intros st Hok; simpl; [eauto |].
  destruct (exec_buffers_ok st o Hok) as (st1 & -> & Hok1). simpl.
  by apply IH.
Qed.

(** ** What each call leaves untouched *)

(** Whatever the controller, the abundance loop rebinds only
    [buffer_N_by_lineage]. *)
Lemma fold_store_time_frame N ids ps st st' :
  fold_left (store_time N ids) ps (Some st) = Some st' ->
  st' = with_buffers (buffer_times st) (buffer_biomass st)
                     (buffer_N_by_lineage st') st.
Proof.
  revert st. induction ps as [|p ps IH]; intros st; simpl.
  - intros [= <-]. by destruct st.
  - destruct (negb (py_in p.2 (buffer_times st))); simpl; [apply IH |].
    destruct (py_index p.2 (buffer_times st)) as [idx|]; simpl.
    + destruct (fold_left (store_abundance N p.1 idx) _ _) as [buf|]; simpl.
      * intros H. apply IH in H. simpl in H. done.
      * clear IH. induction ps as [|q ps IHps]; simpl; [done | apply IHps].
    + clear IH. induction ps as [|q ps IHps]; simpl; [done | apply IHps].
Qed.

Lemma add_multi_type_data_chunk_frame st ts N ids st' :
  add_multi_type_data_chunk st ts N ids = Some st' ->
  st' = update_integration_time
          (with_buffers (buffer_times st) (buffer_biomass st)
             (buffer_N_by_lineage st')
             (with_lineages (validated_ids N ids)
                (detect_mutation st (validated_ids N ids) (validated_times N ts))
                (Some (update_registry st ids))
                (Some (S (default O (multi_type_chunk_count st)))) st)).
Proof.
  unfold add_multi_type_data_chunk.
  destruct (fold_left _ _ _) as [st1|] eqn:E; simpl; [| done].
  intros [= <-]. apply fold_store_time_frame in E. simpl in E.
  destruct (update_integration_time_buffers st1) as (_ & _ & ->).
  by rewrite E at 1.
Qed.

(** ** The lineage registry only grows *)

Lemma register_lineage_lookup reg lid lid' n :
  reg.1 !! lid' = Some n -> (register_lineage reg lid).1 !! lid' = Some n.
Proof.
  intros H. unfold register_lineage.
  destruct (reg.1 !! lid) eqn:E; [done |]. simpl.
  rewrite lookup_insert_ne; [done | congruence].
Qed.

Lemma register_lineage_prefix reg lid :
  reg.2 `prefix_of` (register_lineage reg lid).2.
Proof.
  unfold register_lineage. destruct (reg.1 !! lid); [done |]. simpl.
  by apply prefix_app_r.
Qed.

Lemma fold_register_lineage_lookup ids reg lid' n :
  reg.1 !! lid' = Some n ->
  (fold_left register_lineage ids reg).1 !! lid' = Some n.
Proof.
  revert reg. induction ids as [|lid ids IH]; intros reg H; simpl; [done |].
  by apply IH, register_lineage_lookup.
Qed.

Lemma fold_register_lineage_prefix ids reg :
  reg.2 `prefix_of` (fold_left register_lineage ids reg).2.
Proof.
  revert reg. induction ids as [|lid ids IH]; intros reg; simpl; [done |].
  etrans; [apply register_lineage_prefix | apply IH].
Qed.

Lemma registry_extends_refl r : registry_extends r r.
Proof. intros reg ->. exists reg. done. Qed.

Lemma registry_extends_trans r1 r2 r3 :
  registry_extends r1 r2 -> registry_extends r2 r3 -> registry_extends r1 r3.
Proof.
  intros H12 H23 reg1 E1. destruct (H12 _ E1) as (reg2 & E2 & Hl2 & Hp2).
  destruct (H23 _ E2) as (reg3 & E3 & Hl3 & Hp3).
  exists reg3. split; [done |]. split; [auto | by etrans].
Qed.

(** ** Fields a call does not write *)

Lemma update_integration_time_fields st :
  let st' := update_integration_time st in
  current_lineageIDs st' = current_lineageIDs st /\
  mutation_events st' = mutation_events st /\
  animation_time st' = animation_time st /\
  animation_speed st' = animation_speed st /\
  is_playing st' = is_playing st /\
  buffer_critical st' = buffer_critical st /\
  buffer_low st' = buffer_low st /\
  lineage_registry st' = lineage_registry st.
Proof. unfold update_integration_time. by destruct (0 <? _)%nat. Qed.

Lemma add_point_fields st p :
  let st' := add_point st p in
  current_lineageIDs st' = current_lineageIDs st /\
  mutation_events st' = mutation_events st /\
  animation_time st' = animation_time st /\
  integration_time st' = integration_time st /\
  animation_speed st' = animation_speed st /\
  is_playing st' = is_playing st /\
  buffer_critical st' = buffer_critical st /\
  buffer_low st' = buffer_low st /\
  lineage_registry st' = lineage_registry st.
Proof.
  destruct p as [t b]. unfold add_point.
  by destruct (py_in t (buffer_times st)).
Qed.

Lemma fold_add_point_fields ps st :
  let st' := fold_left add_point ps st in
  current_lineageIDs st' = current_lineageIDs st /\
  mutation_events st' = mutation_events st /\
  animation_time st' = animation_time st /\
  integration_time st' = integration_time st /\
  animation_speed st' = animation_speed st /\
  is_playing st' = is_playing st /\
  buffer_critical st' = buffer_critical st /\
  buffer_low st' = buffer_low st /\
  lineage_registry st' = lineage_registry st.
Proof.
  revert st. induction ps as [|p ps IH]; intros st; simpl; [done |].
  specialize (IH (add_point st p)). pose proof (add_point_fields st p) as Hp.
  simpl in *. intuition congruence.
Qed.

Lemma add_data_chunk_fields st ts bs :
  let st' := add_data_chunk st ts bs in
  current_lineageIDs st' = current_lineageIDs st /\
  mutation_events st' = mutation_events st /\
  animation_time st' = animation_time st /\
  animation_speed st' = animation_speed st /\
  is_playing st' = is_playing st /\
  buffer_critical st' = buffer_critical st /\
  buffer_low st' = buffer_low st /\
  lineage_registry st' = lineage_registry st.
Proof.
  unfold add_data_chunk. simpl.
  match goal with
  | |- context [fold_left add_point ?ps st] =>
      pose proof (fold_add_point_fields ps st) as Hf;
      pose proof (update_integration_time_fields (fold_left add_point ps st)) as Hu
  end.
  simpl in *. intuition congruence.
Qed.

Lemma add_point_present st t v :
  py_in t (buffer_times st) = true -> add_point st (t, v) = st.
Proof. intros H. unfold add_point. by rewrite H. Qed.

Lemma add_point_makes_present st t v :
  py_in t (buffer_times (add_point st (t, v))) = true.
Proof.
  unfold add_point. destruct (py_in t (buffer_times st)) eqn:E; [done |].
  simpl. apply py_in_true. exists t. split; [| reflexivity].
  apply py_insert_elem_of. by left.
Qed.

Lemma add_data_chunk_single st t v :
  add_data_chunk st [t] [v] = update_integration_time (add_point st (t, v)).
Proof. reflexivity. Qed.

Lemma with_buffers_id st :
  with_buffers (buffer_times st) (buffer_biomass st) (buffer_N_by_lineage st) st = st.
Proof. by destruct st. Qed.

Lemma interpolate_biomass_frame st t :
  exists ts bs ns, (_interpolate_biomass st t).2 = with_buffers ts bs ns st.
Proof.
  unfold _interpolate_biomass.
  destruct (_ || _); [do 3 eexists; symmetry; apply with_buffers_id |].
  destruct (negb _); simpl;
    repeat match goal with |- context [if ?b then _ else _] => destruct b end;
    simpl; do 3 eexists; first [reflexivity | symmetry; apply with_buffers_id].
Qed.

Lemma interpolate_multi_frame st t :
  exists ts bs ns,
    (_interpolate_multi_type_abundance st t).2 = with_buffers ts bs ns st.
Proof.
  unfold _interpolate_multi_type_abundance.
  destruct (_ || _); [do 3 eexists; symmetry; apply with_buffers_id |].
  destruct (negb _); simpl;
    repeat match goal with |- context [if ?b then _ else _] => destruct b end;
    simpl; do 3 eexists; first [reflexivity | symmetry; apply with_buffers_id].
Qed.

Lemma get_next_frame_frame st delta :
  exists a ts bs ns,
    (get_next_frame st delta).2 = with_buffers ts bs ns (with_animation_time a st).
Proof.
  unfold get_next_frame.
  assert (st = with_buffers (buffer_times st) (buffer_biomass st)
                 (buffer_N_by_lineage st) (with_animation_time (animation_time st) st))
    as Hid by (by destruct st).
  destruct (negb (is_playing st)); [simpl; eauto |].
  destruct (_ =? _)%nat; [simpl; eauto |]. clear Hid.
  match goal with
  | |- context [_interpolate_biomass ?s ?t] =>
      destruct (interpolate_biomass_frame s t) as (ts & bs & ns & Hi);
      destruct (_interpolate_biomass s t) as [b s'] eqn:E
  end.
  simpl in *. subst. destruct (Qltb _ _); simpl; eauto.
Qed.

(** The play/pause flag after one call. *)
Lemma exec_is_playing st o st' :
  exec st o = Some st' ->
  is_playing st' =
    match o with
    | Play => true
    | Pause => false
    | Reset => true
    | _ => is_playing st
    end.
Proof.
  destruct o; simpl.
  - intros [= <-]. apply add_data_chunk_fields.
  - intros H. apply add_multi_type_data_chunk_frame in H. rewrite H.
    match goal with
    | |- context [update_integration_time ?s] =>
        destruct (update_integration_time_fields s) as (_ & _ & _ & _ & -> & _)
    end.
    done.
  - intros [= <-].
    destruct (get_next_frame_frame st real_time_delta) as (a & ts & bs & ns & ->).
    done.
  - intros [= <-]. destruct (interpolate_biomass_frame st t) as (ts & bs & ns & ->).
    done.
  - intros [= <-]. destruct (interpolate_multi_frame st t) as (ts & bs & ns & ->).
    done.
  - by intros [= <-].
  - by intros [= <-].
  - by intros [= <-].
  - by intros [= <-].
Qed.

(** ** The registry along a run *)

Lemma exec_registry st o st' :
  exec st o = Some st' ->
  registry_extends (lineage_registry st) (lineage_registry st').
Proof.
  destruct o; simpl.
  - intros [= <-].
    destruct (add_data_chunk_fields st t_epoch biomass_epoch)
      as (_ & _ & _ & _ & _ & _ & _ & ->).
    apply registry_extends_refl.
  - intros H. apply add_multi_type_data_chunk_frame in H. rewrite H.
    match goal with
    | |- context [update_integration_time ?s] =>
        destruct (update_integration_time_fields s)
          as (_ & _ & _ & _ & _ & _ & _ & ->)
    end.
    simpl. intros reg E. exists (update_registry st lineageIDs).
    split; [done |]. unfold update_registry. rewrite E. simpl. split.
    + intros lid n. apply fold_register_lineage_lookup.
    + apply fold_register_lineage_prefix.
  - intros [= <-].
    destruct (get_next_frame_frame st real_time_delta) as (a & ts & bs & ns & ->).
    apply registry_extends_refl.
  - intros [= <-]. destruct (interpolate_biomass_frame st t) as (ts & bs & ns & ->).
    apply registry_extends_refl.
  - intros [= <-]. destruct (interpolate_multi_frame st t) as (ts & bs & ns & ->).
    apply registry_extends_refl.
  - intros [= <-]. apply registry_extends_refl.
  - intros [= <-]. apply registry_extends_refl.
  - intros [= <-]. apply registry_extends_refl.
  - intros [= <-]. apply registry_extends_refl.
Qed.

Lemma run_registry ops st st' :
  run st ops = Some st' ->
  registry_extends (lineage_registry st) (lineage_registry st').
Proof.
  revert st. induction ops as [|o ops IH]; intros st; simpl.
  - intros [= <-]. apply registry_extends_refl.
  - destruct (exec st o) as [st1|] eqn:E; simpl; [| done].
    intros H. eapply registry_extends_trans; [by eapply exec_registry | by apply IH].
Qed.

(** ** The two clocks *)

Lemma get_speed_factor_pos st : 0 < get_speed_factor st.
Proof.
  unfold get_speed_factor.
  destruct (Qltb _ (buffer_critical st)) eqn:E1; [reflexivity |].
  destruct (Qltb _ (buffer_low st)) eqn:E2; [| reflexivity].
  qprop.
  set (gap := integration_time st - animation_time st) in *.
  assert (0 <= (gap - buffer_critical st) / (buffer_low st - buffer_critical st)).
  { apply Qle_shift_div_l; lra. }
  lra.
Qed.

Lemma get_next_frame_tick st delta :
  aligned st ->
  (get_next_frame st delta).2
  = with_animation_time (next_animation_time st delta) st.
Proof.
  intros [Hb _]. unfold get_next_frame, next_animation_time.
  destruct (negb (is_playing st)); [by destruct st |].
  destruct (_ =? _)%nat; [by destruct st |]. simpl.
  match goal with
  | |- context [_interpolate_biomass ?s ?t] =>
      pose proof (interpolate_biomass_state s t) as Hi;
      destruct (_interpolate_biomass s t) as [b s'] eqn:E
  end.
  simpl in Hi. rewrite Hi.
  - by destruct (Qltb _ _).
  - by destruct (Qltb _ _).
Qed.

Lemma next_animation_time_bounds st delta :
  0 <= delta -> 0 <= animation_speed st ->
  animation_time st <= integration_time st ->
  animation_time st <= next_animation_time st delta /\
  next_animation_time st delta <= integration_time st.
Proof.
  intros Hd Hs Hinv. unfold next_animation_time.
  destruct (_ || _); [split; [apply Qle_refl | done] |].
  pose proof (get_speed_factor_pos st) as Hf.
  assert (0 <= delta * animation_speed st * get_speed_factor st).
  { apply Qmult_le_0_compat; [by apply Qmult_le_0_compat | lra]. }
  destruct (Qltb _ _) eqn:E; qprop; split; lra.
Qed.

Lemma add_point_times_subseteq st p e :
  e ∈ buffer_times st -> e ∈ buffer_times (add_point st p).
Proof.
  destruct p as [t b]. unfold add_point.
  destruct (py_in t (buffer_times st)); [done |]. simpl.
  intros H. apply py_insert_elem_of. by right.
Qed.

Lemma fold_add_point_times_subseteq ps st e :
  e ∈ buffer_times st -> e ∈ buffer_times (fold_left add_point ps st).
Proof.
  revert st. induction ps as [|p ps IH]; intros st H; simpl; [done |].
  by apply IH, add_point_times_subseteq.
Qed.

Lemma fold_add_point_times_Forall (P : Q -> Prop) ps st :
  Forall P (buffer_times st) -> Forall (fun p => P p.1) ps ->
  Forall P (buffer_times (fold_left add_point ps st)).
Proof.
  revert st. induction ps as [|[t b] ps IH]; intros st Hst Hps; simpl; [done |].
  apply Forall_cons in Hps as [Ht Hps]. apply IH; [| done].
  unfold add_point. destruct (py_in t (buffer_times st)); [done |]. simpl.
  apply Forall_forall. intros e He. apply py_insert_elem_of in He as [-> | He].
  - done.
  - rewrite Forall_forall in Hst. by apply Hst.
Qed.

Lemma zip_Forall_fst (P : Q -> Prop) (ts bs : list Q) :
  Forall P ts -> Forall (fun p => P p.1) (zip ts bs).
Proof.
  rewrite !Forall_forall. intros H [t b] Hin. simpl.
  apply H. by eapply elem_of_zip_l.
Qed.

Lemma py_last_nil_or_elem (l : list Q) :
  (l = [] /\ py_last l 0 = 0) \/ (l <> [] /\ py_last l 0 ∈ l).
Proof.
  destruct l as [|x l]; [by left |]. right. split; [done |].
  by apply py_last_elem_of.
Qed.

Lemma update_integration_time_last st :
  integration_time st = py_last (buffer_times st) 0 \/ buffer_times st <> [] ->
  integration_time (update_integration_time st) = py_last (buffer_times st) 0.
Proof.
  unfold update_integration_time. destruct (buffer_times st) as [|x l] eqn:E; simpl.
  - by intros [H | H].
  - done.
Qed.

Lemma add_data_chunk_clock_ok st ts bs :
  clock_ok st -> Forall (Qle 0) ts ->
  clock_ok (add_data_chunk st ts bs) /\
  animation_time (add_data_chunk st ts bs) = animation_time st.
Proof.
  intros (Hok & Hint & Hpos & Hle & Hsp) Hts.
  pose proof (add_data_chunk_buffers_ok st ts bs Hok) as Hok'.
  pose proof (add_data_chunk_fields st ts bs) as (_ & _ & Ha & Hs & _).
  simpl in Ha, Hs. split; [| done].
  unfold add_data_chunk in *.
  match goal with
  | |- context [fold_left add_point ?ps st] => set (pairs := ps) in *
  end.
  set (st1 := fold_left add_point pairs st) in *.
  destruct (update_integration_time_buffers st1) as (Et & _).
  assert (Forall (Qle 0) (buffer_times st1)) as Hpos1.
  { apply fold_add_point_times_Forall; [done |]. unfold pairs.
    destruct (negb _); apply zip_Forall_fst; [by apply Forall_take | done]. }
  assert (integration_time st1 = integration_time st) as Hint1
    by apply (fold_add_point_fields pairs st).
  assert (integration_time (update_integration_time st1)
          = py_last (buffer_times st1) 0) as Hint'.
  { apply update_integration_time_last.
    destruct (buffer_times st) as [|x l] eqn:E.
    - destruct (py_last_nil_or_elem (buffer_times st1)) as [[E1 _] | [Hne _]];
        [left | by right].
      rewrite Hint1, Hint, E1. done.
    - right. intros E1.
      assert (x ∈ buffer_times st1) as Hx.
      { apply fold_add_point_times_subseteq. rewrite E. by left. }
      rewrite E1 in Hx. by apply elem_of_nil in Hx. }
  split; [done |]. rewrite Et. split; [done |]. split; [done |].
  split; [| by rewrite Hs].
  rewrite Ha, Hint'.
  apply Qle_trans with (integration_time st); [done |]. rewrite Hint.
  destruct (py_last_nil_or_elem (buffer_times st)) as [[E E0] | [Hne Hin]].
  - rewrite E0.
    destruct (py_last_nil_or_elem (buffer_times st1)) as [[_ ->] | [_ Hin1]];
      [apply Qle_refl |].
    rewrite Forall_forall in Hpos1. by apply Hpos1.
  - apply py_last_greatest.
    + destruct Hok' as [Hs' _]. by rewrite Et in Hs'.
    + by apply fold_add_point_times_subseteq.
Qed.

Lemma init_clock_ok s c l : 0 <= s -> clock_ok (init s c l).
Proof.
  intros Hs. split; [apply init_buffers_ok |]. simpl.
  repeat split; done.
Qed.

Lemma set_speed_nonneg st speed : 0 <= animation_speed (set_speed st speed).
Proof.
  simpl. unfold py_max, py_min.
  destruct (Qltb speed 10), (Qltb 0.1 _) eqn:E; qprop; lra.
Qed.

Lemma exec_clock_ok st o :
  clock_ok st -> nonneg_op o ->
  exists st', exec st o = Some st' /\ clock_ok st' /\
              (o <> Reset -> animation_time st <= animation_time st').
Proof.
  intros Hck Hop. pose proof Hck as (Hok & Hint & Hpos & Hle & Hsp).
  pose proof Hok as [Hs Hal]. destruct o; simpl in *.
  - destruct (add_data_chunk_clock_ok st t_epoch biomass_epoch Hck Hop) as [H1 H2].
    eexists. split; [done |]. split; [done |]. intros _. rewrite H2. apply Qle_refl.
  - destruct (add_multi_type_data_chunk_Some st t_epoch N_epoch lineageIDs Hal)
      as (buf & Hlen & E).
    eexists. split; [exact E |].
    pose proof (add_multi_type_data_chunk_buffers_ok _ _ _ _ _ Hok E) as Hok'.
    match goal with
    | |- context [update_integration_time ?s] =>
        set (st1 := s) in *;
        pose proof (update_integration_time_fields st1) as (_ & _ & Ha & Hs1 & _);
        pose proof (update_integration_time_last st1 (or_introl Hint)) as Hi1;
        destruct (update_integration_time_buffers st1) as (Et & _)
    end.
    simpl in *. split.
    + split; [done |]. rewrite Et, Hi1, Ha, Hs1. simpl.
      split; [done |]. split; [done |]. split; [by rewrite <- Hint | done].
    + intros _. rewrite Ha. apply Qle_refl.
  - rewrite (get_next_frame_tick st real_time_delta Hal).
    destruct (next_animation_time_bounds st real_time_delta Hop Hsp Hle) as [H1 H2].
    eexists. split; [done |]. split; [| done].
    split; [done |]. simpl. done.
  - rewrite (interpolate_biomass_state st t (proj1 Hal)).
    eexists. split; [done |]. split; [done |]. intros _. apply Qle_refl.
  - rewrite (interpolate_multi_state st t (proj2 Hal)).
    eexists. split; [done |]. split; [done |]. intros _. apply Qle_refl.
  - eexists. split; [done |]. split; [done |]. intros _. apply Qle_refl.
  - eexists. split; [done |]. split; [done |]. intros _. apply Qle_refl.
  - eexists. split; [done |]. split.
    + split; [done |]. split; [done |]. split; [done |]. split; [done |].
      apply set_speed_nonneg.
    + intros _. apply Qle_refl.
  - eexists. split; [done |]. split; [| done].
    split; [apply reset_buffers_ok |]. simpl.
    repeat split; done.
Qed.

Lemma run_clock_ok ops st :
  clock_ok st -> Forall nonneg_op ops ->
  exists st', run st ops = Some st' /\ clock_ok st' /\
              (Reset ∉ ops -> animation_time st <= animation_time st').
Proof.
  revert st. induction ops as [|o ops IH]; intros st Hck Hops; simpl.
  - exists st. split; [done |]. split; [done |]. intros _. apply Qle_refl.
  - apply Forall_cons in Hops as [Ho Hops].
    destruct (exec_clock_ok st o Hck Ho) as (st1 & -> & Hck1 & Hmono1). simpl.
    destruct (IH st1 Hck1 Hops) as (st' & E & Hck' & Hmono).
    exists st'. split; [done |]. split; [done |].
    intros Hnr. apply Qle_trans with (animation_time st1).
    + apply Hmono1. intros ->. apply Hnr. by left.
    + apply Hmono. intros Hin. apply Hnr. by right.
Qed.

(** ** Interpolation at and between buffered times *)

(** [bisect_left] finds a buffered time at its own index, and a time
    strictly between two neighbours at the index of the right one. *)
Lemma bisect_left_at a x i xi :
  strictly_increasing a -> a !! i = Some xi -> x == xi -> bisect_left a x = i.
Proof.
  intros Hs Hi Hx. destruct (bisect_left_spec a x Hs) as (Hk & Hl & Hg).
  pose proof (lookup_lt_Some _ _ _ Hi) as Hlen.
  destruct (Nat.lt_trichotomy (bisect_left a x) i) as [Hlt | [-> | Hgt]]; [| done |].
  - destruct (lookup_lt_is_Some_2 a (bisect_left a x) ltac:(lia)) as [m Hm].
    pose proof (Hg _ _ (Nat.le_refl _) Hm).
    pose proof (Hs _ _ _ _ Hm Hi Hlt). lra.
  - pose proof (Hl _ _ Hgt Hi). lra.
Qed.

Lemma bisect_left_between a x i t0 t1 :
  strictly_increasing a -> a !! i = Some t0 -> a !! S i = Some t1 ->
  t0 < x -> x < t1 -> bisect_left a x = S i.
Proof.
  intros Hs H0 H1 Hlo Hhi. destruct (bisect_left_spec a x Hs) as (Hk & Hl & Hg).
  destruct (Nat.lt_trichotomy (bisect_left a x) (S i)) as [Hlt | [-> | Hgt]]; [| done |].
  - assert (bisect_left a x <= i)%nat as Hle by lia.
    pose proof (Hg _ _ Hle H0). lra.
  - pose proof (Hl _ _ Hgt H1). lra.
Qed.

Lemma nth_0_least l i x :
  strictly_increasing l -> l !! i = Some x -> nth 0 l 0 <= x.
Proof.
  intros Hs Hi. destruct l as [|y l]; [by rewrite lookup_nil in Hi |]. simpl.
  destruct i as [|i]; simpl in Hi.
  - injection Hi as ->. apply Qle_refl.
  - apply Qlt_le_weak. apply (Hs O (S i)); [done | done | lia].
Qed.

Lemma py_last_lookup {A} (l : list A) d :
  l <> [] -> l !! pred (length l) = Some (py_last l d).
Proof.
  intros Hne. unfold py_last. rewrite last_lookup.
  destruct (lookup_lt_is_Some_2 l (pred (length l))) as [m Hm].
  - destruct l; [done | simpl; lia].
  - by rewrite Hm.
Qed.

(** The value returned at a buffered time, on a sorted and aligned
    controller. *)
Lemma interpolate_biomass_at st i t ti y :
  buffers_ok st ->
  buffer_times st !! i = Some ti -> t == ti ->
  buffer_biomass st !! i = Some y ->
  (_interpolate_biomass st t).1 == y.
Proof.
  intros [Hs [Hb Hn]] Hi Ht Hy.
  pose proof (lookup_lt_Some _ _ _ Hi) as Hlen.
  assert (buffer_times st <> []) as Hne by (intros E; rewrite E in Hlen; simpl in Hlen; lia).
  assert (buffer_biomass st <> []) as Hneb
    by (intros E; rewrite E in Hb; simpl in Hb; lia).
  unfold _interpolate_biomass.
  assert ((length (buffer_times st) =? 0)%nat = false) as -> by (apply Nat.eqb_neq; lia).
  assert ((length (buffer_biomass st) =? 0)%nat = false) as -> by (apply Nat.eqb_neq; lia).
  assert ((length (buffer_times st) =? length (buffer_biomass st))%nat = true) as ->
    by (by apply Nat.eqb_eq).
  simpl.
  pose proof (nth_0_least _ _ _ Hs Hi) as H0.
  pose proof (py_last_lookup (buffer_times st) 0 Hne) as Hlast.
  pose proof (py_last_greatest _ 0 ti Hs (list_elem_of_lookup_2 _ _ _ Hi)) as Hmax.
  destruct (Qle_bool t (nth 0 (buffer_times st) 0)) eqn:E1; qprop; simpl.
  { (* t is the first buffered time *)
    assert (i = O) as ->.
    { destruct i as [|i]; [done |].
      destruct (buffer_times st) as [|x l] eqn:E; [done |]. simpl in *.
      pose proof (Hs O (S i) x ti eq_refl Hi ltac:(lia)). lra. }
    rewrite (nth_lookup_Some _ _ _ _ Hy). reflexivity. }
  destruct (Qle_bool (py_last (buffer_times st) 0) t) eqn:E2; qprop; simpl.
  { (* t is the last buffered time *)
    assert (i = pred (length (buffer_times st))) as ->.
    { destruct (decide (i = pred (length (buffer_times st)))) as [-> | Hne']; [done |].
      pose proof (Hs i (pred (length (buffer_times st))) _ _ Hi Hlast ltac:(lia)). lra. }
    pose proof (py_last_lookup (buffer_biomass st) 0 Hneb) as Hlb.
    rewrite <- Hb, Hy in Hlb. injection Hlb as <-. reflexivity. }
  (* t is an interior buffered time *)
  rewrite (bisect_left_at _ _ _ _ Hs Hi Ht).
  destruct i as [|i].
  { destruct (buffer_times st) as [|x l] eqn:E; [done |]. simpl in *.
    injection Hi as ->. lra. }
  simpl. rewrite Nat.sub_0_r.
  destruct (lookup_lt_is_Some_2 (buffer_times st) i ltac:(lia)) as [t0 Ht0].
  destruct (lookup_lt_is_Some_2 (buffer_biomass st) i ltac:(lia)) as [y0 Hy0].
  rewrite (nth_lookup_Some _ _ _ _ Ht0), (nth_lookup_Some _ _ _ _ Hi),
    (nth_lookup_Some _ _ _ _ Hy0), (nth_lookup_Some _ _ _ _ Hy).
  pose proof (Hs i (S i) _ _ Ht0 Hi ltac:(lia)) as Hlt.
  destruct (Qeq_bool ti t0) eqn:E3; qprop; simpl; [lra |].
  rewrite Ht. field. lra.
Qed.

(** The dict returned strictly between two neighbouring buffered times, on
    a sorted and aligned controller. *)
Lemma interpolate_multi_between st i t t0 t1 (d0 d1 : gmap string Q) :
  buffers_ok st ->
  buffer_times st !! i = Some t0 -> buffer_times st !! S i = Some t1 ->
  t0 < t -> t < t1 ->
  buffer_N_by_lineage st !! i = Some d0 ->
  buffer_N_by_lineage st !! S i = Some d1 ->
  (_interpolate_multi_type_abundance st t).1
  = set_to_map (fun lineage_id =>
                  (lineage_id,
                   default 0 (d0 !! lineage_id)
                   + (t - t0) / (t1 - t0)
                     * (default 0 (d1 !! lineage_id) - default 0 (d0 !! lineage_id))))
               (dom d0 ∪ dom d1).
Proof.
  intros [Hs [Hb Hn]] H0 H1 Hlo Hhi Hd0 Hd1.
  pose proof (lookup_lt_Some _ _ _ H1) as Hlen.
  assert (buffer_times st <> []) as Hne
    by (intros E; rewrite E in Hlen; simpl in Hlen; lia).
  unfold _interpolate_multi_type_abundance.
  assert ((length (buffer_times st) =? 0)%nat = false) as -> by (apply Nat.eqb_neq; lia).
  assert ((length (buffer_N_by_lineage st) =? 0)%nat = false) as ->
    by (apply Nat.eqb_neq; lia).
  assert ((length (buffer_times st) =? length (buffer_N_by_lineage st))%nat = true)
    as -> by (by apply Nat.eqb_eq).
  simpl.
  pose proof (nth_0_least _ _ _ Hs H0) as Hmin.
  pose proof (py_last_greatest _ 0 t1 Hs (list_elem_of_lookup_2 _ _ _ H1)) as Hmax.
  assert (Qle_bool t (nth 0 (buffer_times st) 0) = false) as ->
    by (apply Qle_bool_gt; lra).
  assert (Qle_bool (py_last (buffer_times st) 0) t = false) as ->
    by (apply Qle_bool_gt; lra).
  simpl. rewrite (bisect_left_between _ _ _ _ _ Hs H0 H1 Hlo Hhi).
  simpl. rewrite Nat.sub_0_r.
  rewrite (nth_lookup_Some _ _ _ _ H0), (nth_lookup_Some _ _ _ _ H1),
    (nth_lookup_Some _ _ _ _ Hd0), (nth_lookup_Some _ _ _ _ Hd1).
  assert (Qltb t0 t1 = true) as -> by (apply Qltb_lt; lra).
  reflexivity.
Qed.

Lemma lookup_interpolated (f : string -> Q) (X : gset string) lid :
  (set_to_map (fun k => (k, f k)) X : gmap string Q) !! lid
  = if decide (lid ∈ X) then Some (f lid) else None.
Proof.
  assert (forall y y' : string, y ∈ X -> y' ∈ X ->
            ((fun k => (k, f k)) y).1 = ((fun k => (k, f k)) y').1 -> y = y')
    as Hinj by (intros y y' _ _ H; exact H).
  destruct (decide (lid ∈ X)) as [Hin | Hnin].
  - apply (lookup_set_to_map _ _ _ _ Hinj). exists lid. done.
  - destruct (_ !! lid) as [x|] eqn:E; [| done].
    apply (lookup_set_to_map _ _ _ _ Hinj) in E as (y & Hy & [= -> _]). done.
Qed.

(** ** Validation of an epoch that meets the contract *)

Lemma validated_ids_aligned N ids :
  shape0 N = length ids -> validated_ids N ids = ids.
Proof. intros H. unfold validated_ids. by rewrite H, Nat.eqb_refl. Qed.

Lemma validated_times_aligned N ts :
  length ts = expected_time_points N -> validated_times N ts = ts.
Proof. intros H. unfold validated_times. by rewrite H, Nat.eqb_refl. Qed.

(** ** Comparisons of doubles *)

Lemma binary64_leb_refl x : x <> S754_nan -> Binary64.leb x x = true.
Proof.
  unfold Binary64.leb, SFleb.
  destruct x as [s|s| |s m e]; intros H; simpl; try done.
  - by destruct s.
  - destruct s; rewrite Z.compare_refl, Pos.compare_cont_refl; reflexivity.
Qed.

Lemma binary64_ltb_not_leb x y :
  Binary64.ltb x y = true -> Binary64.leb y x = false.
Proof.
  unfold Binary64.ltb, Binary64.leb, SFltb, SFleb.
  destruct x as [s1|s1| |s1 m1 e1], y as [s2|s2| |s2 m2 e2]; simpl;
    try discriminate; try (destruct s1; simpl; congruence);
    try (destruct s2; simpl; congruence);
    try (destruct s1, s2; simpl; congruence).
  assert ((e2 ?= e1)%Z = CompOpp (e1 ?= e2)%Z) as -> by apply Z.compare_antisym.
  assert (Pos.compare_cont Eq m2 m1 = CompOpp (Pos.compare_cont Eq m1 m2)) as ->
    by (by rewrite Pos.compare_cont_antisym).
  destruct s1, s2, (e1 ?= e2)%Z, (Pos.compare_cont Eq m1 m2); simpl; congruence.
Qed.

(** On doubles the first and the last buffered value are returned as
    stored. *)
Lemma binary64_interpolate_first (times biomass : list Binary64.float) t y :
  length times = length biomass -> t <> S754_nan ->
  head times = Some t -> head biomass = Some y ->
  Binary64._interpolate_biomass (times, biomass) t = y.
Proof.
  intros Hlen Ht Hhd Hy.
  destruct times as [|t' times]; [done |]. destruct biomass as [|y' biomass]; [done |].
  simpl in Hhd, Hy. injection Hhd as ->. injection Hy as ->.
  unfold Binary64._interpolate_biomass. simpl in *.
  injection Hlen as Hlen. rewrite Hlen, Nat.eqb_refl. simpl.
  by rewrite binary64_leb_refl.
Qed.

Lemma binary64_interpolate_last (times biomass : list Binary64.float) t y :
  length times = length biomass -> t <> S754_nan ->
  last times = Some t -> last biomass = Some y ->
  Binary64.ltb (nth 0 times Binary64.zero) t = true ->
  Binary64._interpolate_biomass (times, biomass) t = y.
Proof.
  intros Hlen Ht Hl Hy Hlt.
  destruct times as [|t' times]; [done |]. destruct biomass as [|y' biomass]; [done |].
  unfold Binary64._interpolate_biomass.
  cbn [fst snd length Nat.eqb orb].
  injection Hlen as Hlen'. rewrite Hlen', Nat.eqb_refl. cbn [negb].
  rewrite (binary64_ltb_not_leb _ _ Hlt).
  unfold py_last. rewrite Hl, Hy. cbn [default].
  by rewrite binary64_leb_refl.
Qed.

(** * The claims *)

(** ** C1: the two clocks *)

(** C1 as stated fails on a negative simulation time: the first chunk of a
    fresh controller then sets [integration_time] (-5) below the cursor
    (0), and of two successive ticks, one before the chunk and one after
    it, the second leaves the cursor lower (-5) than the first (0). *)
Lemma negative_time_breaks_clock_order :
  (exists st, run default_controller [AddDataChunk [-5] [1]] = Some st /\
              integration_time st < animation_time st) /\
  (exists st st',
     run default_controller [GetNextFrame 1; AddDataChunk [-5] [1]] = Some st /\
     is_playing st = true /\
     exec st (GetNextFrame 1) = Some st' /\
     animation_time st' < animation_time st).
Proof.
  split.
  - eexists. split; [reflexivity |]. reflexivity.
  - do 2 eexists. split; [reflexivity |]. split; [reflexivity |].
    split; [reflexivity |]. reflexivity.
Qed.

(** C1, amended.  For a controller built with a non-negative default speed
    and every interleaving of calls ([reset] and the interpolation queries
    included) whose wall-clock deltas and inserted simulation times are
    non-negative: every call returns, [animation_time <= integration_time]
    holds after every call, and along any continuation without [reset]
    (so across successive [get_next_frame] ticks, playing or paused)
    [animation_time] never decreases. *)
Theorem animation_time_bounded_and_monotone (s c l : Q) (ops : list op) :
  0 <= s -> Forall nonneg_op ops ->
  exists st,
    run (init s c l) ops = Some st /\
    animation_time st <= integration_time st /\
    (forall delta, 0 <= delta ->
       animation_time st <= animation_time (get_next_frame st delta).2 /\
       animation_time (get_next_frame st delta).2
         <= integration_time (get_next_frame st delta).2) /\
    (forall ops', Forall nonneg_op ops' -> Reset ∉ ops' ->
       exists st', run st ops' = Some st' /\
                   animation_time st <= animation_time st' /\
                   animation_time st' <= integration_time st').
Proof.
  intros Hs Hops.
  destruct (run_clock_ok ops (init s c l) (init_clock_ok s c l Hs) Hops)
    as (st & E & Hck & _).
  exists st. split; [done |]. split; [apply Hck |]. split.
  - intros delta Hd.
    destruct (exec_clock_ok st (GetNextFrame delta) Hck Hd) as (st' & E' & Hck' & Hm).
    simpl in E'. injection E' as <-. split; [by apply Hm | apply Hck'].
  - intros ops' Hops' Hnr.
    destruct (run_clock_ok ops' st Hck Hops') as (st' & E' & Hck' & Hm).
    exists st'. split; [done |]. split; [by apply Hm | apply Hck'].
Qed.

Lemma animation_time_bounded_and_monotone_witness :
  exists st,
    run default_controller
      [AddDataChunk [0; 10; 20] [1; 2; 3]; GetNextFrame 50; Pause;
       AddDataChunk [30] [4]; Play; SetSpeed 2; GetNextFrame 100] = Some st /\
    animation_time st <= integration_time st.
Proof.
  destruct (animation_time_bounded_and_monotone 1 100 1000
      [AddDataChunk [0; 10; 20] [1; 2; 3]; GetNextFrame 50; Pause;
       AddDataChunk [30] [4]; Play; SetSpeed 2; GetNextFrame 100])
    as (st & E & Hle & _).
  - discriminate.
  - repeat constructor; discriminate.
  - exists st. split; [exact E | exact Hle].
Defined.

(** ** C2: speed factor *)

(** C2.  With thresholds [buffer_critical < buffer_low] and
    [gap = integration_time - animation_time], [get_speed_factor] returns
    [0.1] when [gap < buffer_critical], the linear ramp
    [0.1 + 0.9 * (gap - buffer_critical) / (buffer_low - buffer_critical)]
    when [buffer_critical <= gap < buffer_low], and [1.0] when
    [gap >= buffer_low]. *)
Theorem get_speed_factor_cases (st : AnimationController) :
  buffer_critical st < buffer_low st ->
  let gap := integration_time st - animation_time st in
  (gap < buffer_critical st -> get_speed_factor st = 0.1) /\
  (buffer_critical st <= gap -> gap < buffer_low st ->
     get_speed_factor st
     = 0.1 + 0.9 * ((gap - buffer_critical st) / (buffer_low st - buffer_critical st))
     /\ get_speed_factor st
        == 0.1 + 0.9 * (gap - buffer_critical st) / (buffer_low st - buffer_critical st)) /\
  (buffer_low st <= gap -> get_speed_factor st = 1).
Proof.
  intros Hth gap. unfold get_speed_factor. fold gap.
  split; [| split].
  - intros H. apply Qltb_lt in H. by rewrite H.
  - intros Hge Hlt. apply Qltb_ge in Hge. apply Qltb_lt in Hlt.
    rewrite Hge, Hlt. split; [done |]. unfold Qdiv. ring.
  - intros H.
    assert (Qltb gap (buffer_critical st) = false) as ->
      by (apply Qltb_ge; lra).
    assert (Qltb gap (buffer_low st) = false) as -> by (by apply Qltb_ge).
    done.
Qed.

(** The thresholds of the specification: critical 100, low 1000, and gaps
    50, 550 and 2000 give 0.1, 0.55 and 1.0. *)
Lemma get_speed_factor_thresholds :
  get_speed_factor (with_integration_time 50 default_controller) == 0.1 /\
  get_speed_factor (with_integration_time 550 default_controller) == 0.55 /\
  get_speed_factor (with_integration_time 2000 default_controller) == 1.
Proof.
  split; [| split].
  - rewrite (proj1 (get_speed_factor_cases
                      (with_integration_time 50 default_controller)
                      ltac:(reflexivity))); reflexivity.
  - rewrite (proj1 (proj1 (proj2 (get_speed_factor_cases
                      (with_integration_time 550 default_controller)
                      ltac:(reflexivity))) ltac:(discriminate) ltac:(reflexivity)));
      reflexivity.
  - rewrite (proj2 (proj2 (get_speed_factor_cases
                      (with_integration_time 2000 default_controller)
                      ltac:(reflexivity))) ltac:(discriminate)); reflexivity.
Defined.

(** The three values of C2 on doubles: the ramp at gap 550 is the double
    that Python prints as 0.55. *)
Lemma get_speed_factor_thresholds_binary64 :
  Binary64.get_speed_factor (Binary64.of_Z 50) (Binary64.of_Z 0)
    (Binary64.of_Z 100) (Binary64.of_Z 1000) = Binary64.of_ratio 1 10 /\
  Binary64.get_speed_factor (Binary64.of_Z 550) (Binary64.of_Z 0)
    (Binary64.of_Z 100) (Binary64.of_Z 1000) = Binary64.of_ratio 55 100 /\
  Binary64.get_speed_factor (Binary64.of_Z 2000) (Binary64.of_Z 0)
    (Binary64.of_Z 100) (Binary64.of_Z 1000) = Binary64.of_Z 1.
Proof. repeat split; vm_compute; reflexivity. Qed.

(** ** C3, C4: the time-series buffer *)

(** C3.  From any controller reached by calls on a fresh one, every
    sequence of [add_data_chunk] insertions, in any order and with any
    repeats, leaves [buffer_times] strictly increasing. *)
Theorem add_data_chunk_strictly_increasing
    (s c l : Q) (ops : list op) (st : AnimationController)
    (chunks : list (list Q * list Q)) :
  run (init s c l) ops = Some st ->
  strictly_increasing
    (buffer_times (fold_left (fun st ch => add_data_chunk st ch.1 ch.2) chunks st)).
Proof.
  intros Hrun.
  destruct (run_buffers_ok ops (init s c l) (init_buffers_ok s c l))
    as (st' & E & Hok).
  rewrite Hrun in E. injection E as <-.
  clear Hrun. revert st Hok. induction chunks as [|ch chunks IH]; intros st Hok; simpl.
  - apply Hok.
  - by apply IH, add_data_chunk_buffers_ok.
Qed.

Lemma add_data_chunk_strictly_increasing_witness :
  strictly_increasing
    (buffer_times
       (fold_left (fun st ch => add_data_chunk st ch.1 ch.2)
          [([3; 1; 2], [30; 10; 20]); ([1; 0; 3], [11; 0; 31])]
          default_controller)).
Proof.
  apply (add_data_chunk_strictly_increasing 1 100 1000 [] default_controller).
  reflexivity.
Defined.

(** C4.  If time [t] is already in [buffer_times], a further insertion
    of [(t, v)] leaves [buffer_times], [buffer_biomass] and
    [buffer_N_by_lineage] as they are, whatever [v] is; so a second
    insertion of a time changes nothing after the first. *)
Theorem add_data_chunk_idempotent (st : AnimationController) (t v : Q) :
  (py_in t (buffer_times st) = true ->
   buffer_times (add_data_chunk st [t] [v]) = buffer_times st /\
   buffer_biomass (add_data_chunk st [t] [v]) = buffer_biomass st /\
   buffer_N_by_lineage (add_data_chunk st [t] [v]) = buffer_N_by_lineage st) /\
  (forall v',
   let st1 := add_data_chunk st [t] [v] in
   buffer_times (add_data_chunk st1 [t] [v']) = buffer_times st1 /\
   buffer_biomass (add_data_chunk st1 [t] [v']) = buffer_biomass st1 /\
   buffer_N_by_lineage (add_data_chunk st1 [t] [v']) = buffer_N_by_lineage st1).
Proof.
  assert (forall st v, py_in t (buffer_times st) = true ->
    buffer_times (add_data_chunk st [t] [v]) = buffer_times st /\
    buffer_biomass (add_data_chunk st [t] [v]) = buffer_biomass st /\
    buffer_N_by_lineage (add_data_chunk st [t] [v]) = buffer_N_by_lineage st) as Hpresent.
  { intros st0 v0 Hin.
    rewrite add_data_chunk_single, (add_point_present _ _ _ Hin).
    apply update_integration_time_buffers. }
  split; [apply Hpresent |].
  intros v' st1. apply Hpresent. unfold st1.
  rewrite add_data_chunk_single.
  destruct (update_integration_time_buffers (add_point st (t, v))) as (-> & _).
  apply add_point_makes_present.
Qed.

Lemma add_data_chunk_idempotent_witness :
  let st := add_data_chunk default_controller [0; 5; 10] [1; 2; 3] in
  buffer_times (add_data_chunk st [5] [99]) = buffer_times st /\
  buffer_biomass (add_data_chunk st [5] [99]) = buffer_biomass st /\
  buffer_N_by_lineage (add_data_chunk st [5] [99]) = buffer_N_by_lineage st.
Proof.
  intros st. apply (proj1 (add_data_chunk_idempotent st 5 99)). reflexivity.
Defined.

(** ** C5: scalar interpolation at a buffered time *)

(** C5 as stated fails on floats at an interior buffered time, where the
    method returns [y0 + 1.0 * (y1 - y0)], rounded twice.  With 100.0 stored
    at time 0.0 and 0.1 at time 1.0, the query at 1.0 returns
    7205759403792384 * 2^-56 = 0.09999999999999431566 and not the stored
    0.1 = 7205759403792794 * 2^-56; with 1e16 and 1.0 stored it returns
    0.0. *)
Lemma interior_buffered_time_is_rounded :
  (drop_buffer.1 !! 1%nat = Some (Binary64.of_Z 1) /\
   drop_buffer.2 !! 1%nat = Some (S754_finite false 7205759403792794 (-56)) /\
   Binary64._interpolate_biomass drop_buffer (Binary64.of_Z 1)
   = S754_finite false 7205759403792384 (-56)) /\
  (large_buffer.1 !! 1%nat = Some (Binary64.of_Z 1) /\
   large_buffer.2 !! 1%nat = Some (Binary64.of_Z 1) /\
   Binary64._interpolate_biomass large_buffer (Binary64.of_Z 1) = S754_zero false /\
   Binary64.eqb (S754_zero false) (Binary64.of_Z 1) = false).
Proof. split; repeat split; vm_compute; reflexivity. Qed.

(** C5, amended.  In exact arithmetic the scalar interpolation at a
    buffered time [buffer_times[i]] is the stored [buffer_biomass[i]], for
    the first, the last and every interior index.  On doubles it is the
    stored value at the first and at the last buffered time (the last one
    lying above the first); at an interior buffered time the result is the
    rounded [y0 + alpha * (y1 - y0)], which the lemma above shows to differ
    from the stored value. *)
Theorem interpolate_biomass_exact_up_to_rounding :
  (forall (s c l : Q) (ops : list op) (st : AnimationController)
          (i : nat) (t ti y : Q),
     run (init s c l) ops = Some st ->
     buffer_times st !! i = Some ti -> t == ti ->
     buffer_biomass st !! i = Some y ->
     (_interpolate_biomass st t).1 == y) /\
  (forall (times biomass : list Binary64.float) (t y : Binary64.float),
     length times = length biomass -> t <> S754_nan ->
     (head times = Some t -> head biomass = Some y ->
      Binary64._interpolate_biomass (times, biomass) t = y) /\
     (last times = Some t -> last biomass = Some y ->
      Binary64.ltb (nth 0 times Binary64.zero) t = true ->
      Binary64._interpolate_biomass (times, biomass) t = y)).
Proof.
  split.
  - intros s c l ops st i t ti y Hrun.
    destruct (run_buffers_ok ops (init s c l) (init_buffers_ok s c l))
      as (st' & E & Hok).
    rewrite Hrun in E. injection E as <-.
    by apply interpolate_biomass_at.
  - intros times biomass t y Hlen Ht. split.
    + by apply binary64_interpolate_first.
    + by apply binary64_interpolate_last.
Qed.

Lemma interpolate_biomass_exact_up_to_rounding_witness :
  (let st := add_data_chunk default_controller [0; 10; 20] [3; 50; 7] in
   (_interpolate_biomass st 0).1 == 3 /\
   (_interpolate_biomass st 10).1 == 50 /\
   (_interpolate_biomass st 20).1 == 7) /\
  Binary64._interpolate_biomass drop_buffer (Binary64.of_Z 0) = Binary64.of_Z 100 /\
  Binary64._interpolate_biomass drop_buffer (Binary64.of_Z 2) = Binary64.of_Z 5.
Proof.
  split; [| split].
  - intros st. split; [| split].
    + apply (proj1 interpolate_biomass_exact_up_to_rounding 1 100 1000
               [AddDataChunk [0; 10; 20] [3; 50; 7]] st 0%nat 0 0 3); reflexivity.
    + apply (proj1 interpolate_biomass_exact_up_to_rounding 1 100 1000
               [AddDataChunk [0; 10; 20] [3; 50; 7]] st 1%nat 10 10 50); reflexivity.
    + apply (proj1 interpolate_biomass_exact_up_to_rounding 1 100 1000
               [AddDataChunk [0; 10; 20] [3; 50; 7]] st 2%nat 20 20 7); reflexivity.
  - apply (proj1 (proj2 interpolate_biomass_exact_up_to_rounding
                    drop_buffer.1 drop_buffer.2 (Binary64.of_Z 0) (Binary64.of_Z 100)
                    ltac:(vm_compute; reflexivity) ltac:(vm_compute; discriminate)));
      vm_compute; reflexivity.
  - apply (proj2 (proj2 interpolate_biomass_exact_up_to_rounding
                    drop_buffer.1 drop_buffer.2 (Binary64.of_Z 2) (Binary64.of_Z 5)
                    ltac:(vm_compute; reflexivity) ltac:(vm_compute; discriminate)));
      vm_compute; reflexivity.
Defined.

(** ** C6: entity interpolation between two buffered times *)

(** C6.  For a query time strictly between two consecutive buffered times
    [t0 < t < t1], [_interpolate_multi_type_abundance] returns a dict whose
    keys are the union of the keys of the two bracketing dicts, and whose
    value at each key is the linear interpolation of the two values, a
    missing value counting as [0]. *)
Theorem interpolate_multi_entity_union
    (s c l : Q) (ops : list op) (st : AnimationController)
    (i : nat) (t t0 t1 : Q) (d0 d1 : gmap string Q) :
  run (init s c l) ops = Some st ->
  buffer_times st !! i = Some t0 -> buffer_times st !! S i = Some t1 ->
  t0 < t -> t < t1 ->
  buffer_N_by_lineage st !! i = Some d0 ->
  buffer_N_by_lineage st !! S i = Some d1 ->
  let r := (_interpolate_multi_type_abundance st t).1 in
  dom r = dom d0 ∪ dom d1 /\
  (forall lid, lid ∈ dom d0 ∪ dom d1 ->
     r !! lid
     = Some (default 0 (d0 !! lid)
             + (t - t0) / (t1 - t0)
               * (default 0 (d1 !! lid) - default 0 (d0 !! lid)))).
Proof.
  intros Hrun H0 H1 Hlo Hhi Hd0 Hd1 r.
  destruct (run_buffers_ok ops (init s c l) (init_buffers_ok s c l))
    as (st' & E & Hok).
  rewrite Hrun in E. injection E as <-.
  unfold r. rewrite (interpolate_multi_between _ _ _ _ _ _ _ Hok H0 H1 Hlo Hhi Hd0 Hd1).
  split.
  - apply set_eq. intros lid. rewrite elem_of_dom.
    rewrite (lookup_interpolated
               (fun k => default 0 (d0 !! k)
                         + (t - t0) / (t1 - t0)
                           * (default 0 (d1 !! k) - default 0 (d0 !! k)))).
    destruct (decide _) as [Hin | Hnin]; split; intros H; try done.
  - intros lid Hin.
    rewrite (lookup_interpolated
               (fun k => default 0 (d0 !! k)
                         + (t - t0) / (t1 - t0)
                           * (default 0 (d1 !! k) - default 0 (d0 !! k)))).
    by destruct (decide _).
Qed.

(** The query at time 5 yields [{A: 1.5, B: 2.0}]. *)
Lemma interpolate_multi_entity_union_witness :
  let r := (_interpolate_multi_type_abundance entity_union_example 5).1 in
  dom r = {["A"; "B"]} /\
  exists a b, r !! "A" = Some a /\ a == 1.5 /\ r !! "B" = Some b /\ b == 2.
Proof.
  intros r.
  destruct (interpolate_multi_entity_union 1 100 1000 entity_union_calls
              entity_union_example 0 5 0 10 {["A" := 1]} {["A" := 2; "B" := 4]})
    as [Hdom Hval]; try (vm_compute; reflexivity).
  fold r in Hdom, Hval. split.
  - rewrite Hdom. by vm_compute.
  - do 2 eexists.
    split; [apply Hval; by vm_compute |]. split; [reflexivity |].
    split; [apply Hval; by vm_compute |]. reflexivity.
Defined.

(** The two values of the example on doubles: 1.5 for A, and 2.0 for B,
    which is absent ([0.0]) at time 0. *)
Lemma entity_union_example_binary64 :
  Binary64.interpolated_abundance (Binary64.of_Z 5) (Binary64.of_Z 0)
    (Binary64.of_Z 10) (Binary64.of_Z 1) (Binary64.of_Z 2)
  = Binary64.of_ratio 3 2 /\
  Binary64.interpolated_abundance (Binary64.of_Z 5) (Binary64.of_Z 0)
    (Binary64.of_Z 10) Binary64.zero (Binary64.of_Z 4)
  = Binary64.of_Z 2.
Proof. split; vm_compute; reflexivity. Qed.

(** ** C7: mutation events *)

(** C7 as stated fails twice.  A fresh controller has no previous epoch, so
    its first epoch already counts as growth: epochs with 1, 1 and 3
    lineages log two events, not one.  And the time logged is the last
    sample of the epoch: lineage B below is first observed at time 3 and
    logged at time 4. *)
Lemma first_epoch_logs_a_mutation :
  mutation_events <$>
    run default_controller
      [AddDataChunk [0; 1; 2] [1; 1; 1];
       AddMultiTypeDataChunk [0] (Array2 1 [[1]]) ["A"];
       AddMultiTypeDataChunk [1] (Array2 1 [[1]]) ["A"];
       AddMultiTypeDataChunk [2] (Array2 1 [[1]; [1]; [1]]) ["A"; "B"; "C"]]
  = Some [0; 2] /\
  (fun st => (mutation_events st, (.!! "B") <$> buffer_N_by_lineage st)) <$>
    run default_controller
      [AddDataChunk [0; 3; 4] [1; 1; 1];
       AddMultiTypeDataChunk [0] (Array2 1 [[1]]) ["A"];
       AddMultiTypeDataChunk [3; 4] (Array2 2 [[1; 1]; [5; 6]]) ["A"; "B"]]
  = Some ([0; 4], [None; Some 5; Some 6]).
Proof. split; reflexivity. Qed.

(** C7, amended.  An epoch appends an event exactly when it has at least
    one time sample and more lineage ids than the previous epoch left in
    [current_lineageIDs] (none on a fresh or reset controller); the event
    is the last time sample of the epoch.  Ids and times are counted after
    the defensive truncation, which changes nothing on an epoch that meets
    the contract. *)
Theorem mutation_event_on_growth
    (st st' : AnimationController) (ts : list Q) (N : ndarray) (ids : list string) :
  add_multi_type_data_chunk st ts N ids = Some st' ->
  let ids' := validated_ids N ids in
  let ts' := validated_times N ts in
  let grew := (length (current_lineageIDs st) < length ids')%nat /\ ts' <> [] in
  current_lineageIDs st' = ids' /\
  (grew -> mutation_events st' = mutation_events st ++ [py_last ts' 0]) /\
  (~ grew -> mutation_events st' = mutation_events st) /\
  (shape0 N = length ids -> ids' = ids) /\
  (length ts = expected_time_points N -> ts' = ts) /\
  (forall s c l, current_lineageIDs (init s c l) = []) /\
  current_lineageIDs (reset st) = [].
Proof.
  intros H. cbv zeta. apply add_multi_type_data_chunk_frame in H.
  assert (current_lineageIDs st' = validated_ids N ids /\
          mutation_events st'
          = detect_mutation st (validated_ids N ids) (validated_times N ts))
    as [Hc Hm].
  { rewrite H.
    match goal with
    | |- context [update_integration_time ?s] =>
        destruct (update_integration_time_fields s) as (-> & -> & _)
    end.
    done. }
  rewrite Hc, Hm. unfold detect_mutation.
  split; [done |]. split; [| split].
  - intros [Hlt Hne]. apply Nat.ltb_lt in Hlt. rewrite Hlt.
    by destruct (validated_times N ts).
  - intros Hn. destruct (_ <? _)%nat eqn:E1; [| done].
    destruct (validated_times N ts) eqn:E2; [done |].
    exfalso. apply Hn. split; [by apply Nat.ltb_lt | done].
  - split; [apply validated_ids_aligned |].
    split; [apply validated_times_aligned | done].
Qed.

(** The third epoch appends its time, 2, to the event of the first. *)
Lemma mutation_event_on_growth_witness :
  mutation_events one_lineage_example = [0] /\
  mutation_events three_lineages_example = [0; 2].
Proof.
  split; [reflexivity |].
  destruct (mutation_event_on_growth one_lineage_example three_lineages_example
              [2] (Array2 1 [[1]; [1]; [1]]) ["A"; "B"; "C"])
    as (_ & Hgrew & _); [vm_compute; reflexivity |].
  rewrite Hgrew; [reflexivity |].
  split; [vm_compute; lia | discriminate].
Defined.

(** ** C8: playback state *)

(** C8 as stated fails: [reset] is a third call that sets the flag.  A paused
    controller is playing again after [reset()]. *)
Lemma reset_resumes_paused_playback :
  is_playing (pause default_controller) = false /\
  is_playing <$> exec (pause default_controller) Reset = Some true.
Proof. split; reflexivity. Qed.

(** C8, amended.  The playback state is the boolean [is_playing] (playing
    or paused).  [play()] sets it, [pause()] clears it and [reset()] sets
    it; no other call (buffer insertion, tick, interpolation query, speed
    change) changes it. *)
Theorem is_playing_changes_only_by_play_pause_reset
    (st st' : AnimationController) (o : op) :
  exec st o = Some st' ->
  (o = Play -> is_playing st' = true) /\
  (o = Pause -> is_playing st' = false) /\
  (o = Reset -> is_playing st' = true) /\
  (o <> Play -> o <> Pause -> o <> Reset -> is_playing st' = is_playing st).
Proof.
  intros H. apply exec_is_playing in H. rewrite H.
  repeat split; try (intros ->; done).
  intros. by destruct o.
Qed.

Lemma is_playing_changes_only_by_play_pause_reset_witness :
  let st := pause (add_data_chunk default_controller [0; 10] [1; 2]) in
  is_playing (get_next_frame st 1).2 = is_playing st.
Proof.
  intros st.
  apply (is_playing_changes_only_by_play_pause_reset
           st (get_next_frame st 1).2 (GetNextFrame 1));
    [reflexivity | discriminate | discriminate | discriminate].
Defined.

(** ** C9: parallel buffers *)

(** C9.  After every sequence of public calls on a fresh controller the
    three buffers have one length; hence the length-mismatch tests of the
    two interpolation methods are false and an interpolation query returns
    the controller it was given. *)
Theorem buffers_stay_aligned (s c l : Q) (ops : list op) :
  exists st,
    run (init s c l) ops = Some st /\
    length (buffer_times st) = length (buffer_biomass st) /\
    length (buffer_biomass st) = length (buffer_N_by_lineage st) /\
    negb (length (buffer_times st) =? length (buffer_biomass st))%nat = false /\
    negb (length (buffer_times st) =? length (buffer_N_by_lineage st))%nat = false /\
    (forall t, (_interpolate_biomass st t).2 = st) /\
    (forall t, (_interpolate_multi_type_abundance st t).2 = st).
Proof.
  destruct (run_buffers_ok ops (init s c l) (init_buffers_ok s c l))
    as (st & E & _ & Hb & Hn).
  exists st. split; [done |]. split; [done |]. split; [congruence |].
  split; [by rewrite Hb, Nat.eqb_refl |].
  split; [by rewrite Hn, Nat.eqb_refl |].
  split; intros t.
  - by apply interpolate_biomass_state.
  - by apply interpolate_multi_state.
Qed.

(** ** C10: the lineage registry across [reset] *)

(** C10.  [reset()] empties the five run-scoped containers and zeroes both
    clocks, and leaves [_lineage_to_global_idx] and [_global_lineage_list]
    as they were; an ordinal once assigned is kept by every later call,
    [reset] included, and the list of lineages keeps its entries in
    place. *)
Theorem reset_keeps_lineage_registry (st : AnimationController) :
  (buffer_times (reset st) = [] /\
   buffer_biomass (reset st) = [] /\
   buffer_N_by_lineage (reset st) = [] /\
   current_lineageIDs (reset st) = [] /\
   mutation_events (reset st) = [] /\
   animation_time (reset st) = 0 /\
   integration_time (reset st) = 0 /\
   _lineage_to_global_idx (reset st) = _lineage_to_global_idx st /\
   _global_lineage_list (reset st) = _global_lineage_list st) /\
  (forall ops st' m lid n,
     run st ops = Some st' ->
     _lineage_to_global_idx st = Some m -> m !! lid = Some n ->
     exists m', _lineage_to_global_idx st' = Some m' /\ m' !! lid = Some n) /\
  (forall ops st' g,
     run st ops = Some st' ->
     _global_lineage_list st = Some g ->
     exists g', _global_lineage_list st' = Some g' /\ g `prefix_of` g').
Proof.
  split; [by repeat split |]. split.
  - intros ops st' m lid n Hrun Hm Hlid. apply run_registry in Hrun.
    unfold _lineage_to_global_idx in *.
    destruct (lineage_registry st) as [reg|] eqn:E; [| done].
    injection Hm as <-.
    destruct (Hrun reg eq_refl) as (reg' & -> & Hl & _).
    exists reg'.1. split; [done | by apply Hl].
  - intros ops st' g Hrun Hg. apply run_registry in Hrun.
    unfold _global_lineage_list in *.
    destruct (lineage_registry st) as [reg|] eqn:E; [| done].
    injection Hg as <-.
    destruct (Hrun reg eq_refl) as (reg' & -> & _ & Hp).
    exists reg'.2. split; [done | done].
Qed.

(** B keeps ordinal 1 through the reset and the second run. *)
Lemma reset_keeps_lineage_registry_witness :
  exists m', _lineage_to_global_idx second_run_example = Some m' /\
             m' !! "B" = Some 1%nat.
Proof.
  apply (proj1 (proj2 (reset_keeps_lineage_registry first_run_example))
           second_run_calls second_run_example {["A" := 0%nat; "B" := 1%nat]});
    vm_compute; reflexivity.
Defined.

(** * Further properties of the controller *)

(** ** Speed control *)

(** The ramp between the two thresholds stays within [0, 1). *)
Lemma proportion_bounds (gap c l : Q) :
  c <= gap -> gap < l -> 0 <= (gap - c) / (l - c) /\ (gap - c) / (l - c) < 1.
Proof.
  intros H1 H2. split.
  - apply Qle_shift_div_l; lra.
  - apply Qlt_shift_div_r; lra.
Qed.

Lemma proportion_monotone (g1 g2 c l : Q) :
  c < l -> g1 <= g2 -> (g1 - c) / (l - c) <= (g2 - c) / (l - c).
Proof.
  intros H1 H2. unfold Qdiv. apply Qmult_le_compat_r; [lra |].
  apply Qlt_le_weak, Qinv_lt_0_compat. lra.
Qed.

(** X1 ([get_speed_factor]).  Whatever the two thresholds and the two
    clocks are, the speed factor lies between 0.1 and 1: playback is slowed
    to a tenth at most and never accelerated. *)
Theorem get_speed_factor_range (st : AnimationController) :
  0.1 <= get_speed_factor st /\ get_speed_factor st <= 1.
Proof.
  unfold get_speed_factor.
  destruct (Qltb _ (buffer_critical st)) eqn:E1; [lra |].
  destruct (Qltb _ (buffer_low st)) eqn:E2; [| lra].
  qprop. pose proof (proportion_bounds _ _ _ E1 E2). cbv zeta. lra.
Qed.

(** X2 ([get_speed_factor]).  With the thresholds fixed, the speed factor
    is monotone in the buffer gap [integration_time - animation_time]: more
    buffered data ahead of the cursor never slows playback down. *)
Theorem get_speed_factor_monotone (st1 st2 : AnimationController) :
  buffer_critical st1 = buffer_critical st2 ->
  buffer_low st1 = buffer_low st2 ->
  integration_time st1 - animation_time st1
    <= integration_time st2 - animation_time st2 ->
  get_speed_factor st1 <= get_speed_factor st2.
Proof.
  intros Hc Hl Hgap. unfold get_speed_factor. rewrite <- Hc, <- Hl.
  destruct (Qltb (integration_time st1 - _) (buffer_critical st1)) eqn:A1;
    destruct (Qltb (integration_time st2 - _) (buffer_critical st1)) eqn:B1;
    try destruct (Qltb (integration_time st1 - _) (buffer_low st1)) eqn:A2;
    try destruct (Qltb (integration_time st2 - _) (buffer_low st1)) eqn:B2;
    qprop; cbv zeta; try lra.
  - pose proof (proportion_bounds _ _ _ B1 B2). lra.
  - pose proof (proportion_monotone _ _ (buffer_critical st1) (buffer_low st1)
                  ltac:(lra) Hgap). lra.
  - pose proof (proportion_bounds _ _ _ A1 A2). lra.
Qed.

Lemma get_speed_factor_monotone_witness :
  get_speed_factor (with_integration_time 300 default_controller)
  <= get_speed_factor (with_integration_time 700 default_controller).
Proof.
  apply get_speed_factor_monotone; [reflexivity | reflexivity |].
  vm_compute. discriminate.
Defined.



(** X4 ([set_speed]).  The stored speed is the request clamped to
    [0.1, 10]: a request inside the range is kept, one below gives 0.1,
    one above gives 10; setting the stored speed again changes nothing. *)
Theorem set_speed_clamps (st : AnimationController) (speed : Q) :
  let s' := animation_speed (set_speed st speed) in
  0.1 <= s' /\ s' <= 10 /\
  (0.1 <= speed -> speed <= 10 -> s' == speed) /\
  (speed < 0.1 -> s' = 0.1) /\
  (10 < speed -> s' = 10) /\
  set_speed (set_speed st speed) s' = set_speed st speed.
Proof.
  unfold set_speed, py_max, py_min. cbn.
  destruct (Qltb 10 speed) eqn:E1.
  - assert (Qltb 0.1 10 = true) as -> by reflexivity. cbn.
    qprop. repeat split; try lra; try reflexivity; intros; lra.
  - destruct (Qltb 0.1 speed) eqn:E2; cbn.
    + rewrite E1, E2. qprop. repeat split; try lra; try reflexivity; intros; lra.
    + assert (Qltb 10 0.1 = false) as -> by reflexivity.
      assert (Qltb 0.1 0.1 = false) as -> by reflexivity.
      qprop. repeat split; try lra; try reflexivity; intros; lra.
Qed.

Lemma set_speed_clamps_witness :
  animation_speed (set_speed default_controller 250) = 10 /\
  animation_speed (set_speed default_controller 0) = 0.1.
Proof.
  pose proof (set_speed_clamps default_controller 250) as H1.
  pose proof (set_speed_clamps default_controller 0) as H2.
  cbv zeta in H1, H2.
  destruct H1 as (_ & _ & _ & _ & H1 & _). destruct H2 as (_ & _ & _ & H2 & _).
  split; [apply H1 | apply H2]; reflexivity.
Defined.

(** ** Scalar interpolation *)

(** The three branches of [_interpolate_biomass] on a sorted, aligned and
    non-empty buffer: at or before the first time, at or after the last
    one, or between two neighbours found by [bisect_left]. *)
Lemma interpolate_biomass_cases st t :
  buffers_ok st -> buffer_times st <> [] ->
  (t <= nth 0 (buffer_times st) 0 /\
   (_interpolate_biomass st t).1 = nth 0 (buffer_biomass st) 0) \/
  (nth 0 (buffer_times st) 0 < t /\ py_last (buffer_times st) 0 <= t /\
   (_interpolate_biomass st t).1 = py_last (buffer_biomass st) 0) \/
  (exists i t0 t1 y0 y1,
     buffer_times st !! i = Some t0 /\ buffer_times st !! S i = Some t1 /\
     buffer_biomass st !! i = Some y0 /\ buffer_biomass st !! S i = Some y1 /\
     t0 < t /\ t <= t1 /\ t < py_last (buffer_times st) 0 /\
     (_interpolate_biomass st t).1 = y0 + (t - t0) / (t1 - t0) * (y1 - y0)).
Proof.
  intros [Hs [Hb Hn]] Hne.
  assert (0 < length (buffer_times st))%nat as Hlen
    by (destruct (buffer_times st); [done | simpl; lia]).
  unfold _interpolate_biomass.
  assert ((length (buffer_times st) =? 0)%nat = false) as -> by (apply Nat.eqb_neq; lia).
  assert ((length (buffer_biomass st) =? 0)%nat = false) as -> by (apply Nat.eqb_neq; lia).
  assert ((length (buffer_times st) =? length (buffer_biomass st))%nat = true) as ->
    by (by apply Nat.eqb_eq).
  simpl.
  destruct (Qle_bool t (nth 0 (buffer_times st) 0)) eqn:E1.
  { left. qprop. done. }
  destruct (Qle_bool (py_last (buffer_times st) 0) t) eqn:E2.
  { right; left. qprop. done. }
  right; right.
  pose proof (bisect_left_interior _ _ E1 E2) as Hidx.
  destruct (bisect_left_spec _ t Hs) as (Hk & Hl & Hg).
  destruct (bisect_left (buffer_times st) t) as [|i]; [lia |].
  simpl. rewrite Nat.sub_0_r.
  destruct (lookup_lt_is_Some_2 (buffer_times st) i ltac:(lia)) as [t0 Ht0].
  destruct (lookup_lt_is_Some_2 (buffer_times st) (S i) ltac:(lia)) as [t1 Ht1].
  destruct (lookup_lt_is_Some_2 (buffer_biomass st) i ltac:(lia)) as [y0 Hy0].
  destruct (lookup_lt_is_Some_2 (buffer_biomass st) (S i) ltac:(lia)) as [y1 Hy1].
  rewrite (nth_lookup_Some _ _ _ _ Ht0), (nth_lookup_Some _ _ _ _ Ht1),
    (nth_lookup_Some _ _ _ _ Hy0), (nth_lookup_Some _ _ _ _ Hy1).
  pose proof (Hl i t0 ltac:(lia) Ht0) as Hlo.
  pose proof (Hg (S i) t1 ltac:(lia) Ht1) as Hhi.
  destruct (Qeq_bool t1 t0) eqn:E3; qprop; [lra |].
  exists i, t0, t1, y0, y1. done.
Qed.



Lemma lookup_0_nth (l : list Q) x : l !! O = Some x -> nth 0 l 0 = x.
Proof. destruct l; simpl; congruence. Qed.

Lemma last_py_last {A} (l : list A) x d : last l = Some x -> py_last l d = x.
Proof. unfold py_last. by intros ->. Qed.

(** On a sorted list whose last element is not above its first, the list
    has one element. *)
Lemma strictly_increasing_singleton (l : list Q) :
  strictly_increasing l -> l <> [] -> py_last l 0 <= nth 0 l 0 -> length l = 1%nat.
Proof.
  intros Hs Hne Hle.
  pose proof (py_last_lookup l 0 Hne) as Hlast.
  destruct l as [|x l]; [done |]. destruct l as [|y l]; [done |].
  simpl in Hlast, Hle.
  pose proof (Hs O (S (length l)) x _ eq_refl Hlast ltac:(lia)). lra.
Qed.


(** X5 ([_interpolate_biomass]).  Outside the buffered range the value is
    clamped, not extrapolated: at or before the first buffered time the
    first value is returned, at or after the last buffered time the last
    value, and on an empty buffer 0. *)
Theorem interpolate_biomass_clamped (st : AnimationController) (t : Q) :
  buffers_ok st ->
  (buffer_times st = [] -> (_interpolate_biomass st t).1 = 0) /\
  (forall t0 y0, head (buffer_times st) = Some t0 -> head (buffer_biomass st) = Some y0 ->
     t <= t0 -> (_interpolate_biomass st t).1 = y0) /\
  (forall t1 y1, last (buffer_times st) = Some t1 -> last (buffer_biomass st) = Some y1 ->
     t1 <= t -> (_interpolate_biomass st t).1 = y1).
Proof.
  intros Hok. pose proof Hok as [Hs [Hb Hn]]. split; [| split].
  - intros E. unfold _interpolate_biomass. by rewrite E.
  - intros t0 y0 Ht0 Hy0 Hle.
    assert (buffer_times st <> []) as Hne by (intros E; by rewrite E in Ht0).
    rewrite head_lookup in Ht0. rewrite head_lookup in Hy0.
    apply lookup_0_nth in Ht0. apply lookup_0_nth in Hy0. subst t0 y0.
    destruct (interpolate_biomass_cases st t Hok Hne)
      as [[_ ->] | [(Hgt & _) | (i & a & b & _ & _ & Ha & _ & _ & _ & Hlo & _)]].
    + done.
    + lra.
    + pose proof (nth_0_least _ _ _ Hs Ha). lra.
  - intros t1 y1 Ht1 Hy1 Hle.
    assert (buffer_times st <> []) as Hne by (intros E; by rewrite E in Ht1).
    assert (buffer_biomass st <> []) as Hneb by (intros E; by rewrite E in Hy1).
    apply (last_py_last _ _ 0) in Ht1. apply (last_py_last _ _ 0) in Hy1. subst t1 y1.
    destruct (interpolate_biomass_cases st t Hok Hne)
      as [[Hfirst ->] | [(_ & _ & ->) | (i & a & b & _ & _ & _ & _ & _ & _ & _ & _ & Hlt & _)]].
    + assert (length (buffer_times st) = 1%nat) as Hone
        by (apply strictly_increasing_singleton; [done | done | lra]).
      pose proof (py_last_lookup (buffer_biomass st) 0 Hneb) as Hl.
      rewrite <- Hb, Hone in Hl. simpl in Hl. by apply lookup_0_nth in Hl.
    + done.
    + lra.
Qed.

Lemma interpolate_biomass_clamped_witness :
  let st := add_data_chunk default_controller [10; 20; 30] [1; 5; 2] in
  (_interpolate_biomass st 3).1 = 1 /\ (_interpolate_biomass st 99).1 = 2.
Proof.
  intros st.
  assert (buffers_ok st) as Hok
    by (apply add_data_chunk_buffers_ok, init_buffers_ok).
  destruct (interpolate_biomass_clamped st 3 Hok) as (_ & Hlo & _).
  destruct (interpolate_biomass_clamped st 99 Hok) as (_ & _ & Hhi).
  split.
  - apply (Hlo 10 1); [reflexivity | reflexivity | vm_compute; discriminate].
  - apply (Hhi 30 2); [reflexivity | reflexivity | vm_compute; discriminate].
Defined.



(** ** Frames *)

(** The scalar interpolation does not read the cursor. *)
Lemma interpolate_biomass_with_animation_time a st t :
  _interpolate_biomass (with_animation_time a st) t
  = ((_interpolate_biomass st t).1,
     with_animation_time a (_interpolate_biomass st t).2).
Proof.
  unfold _interpolate_biomass. cbn.
  destruct (_ || _); [reflexivity |].
  destruct (negb _); cbn;
    (destruct (Qle_bool t _); [reflexivity |];
     destruct (Qle_bool _ t); [reflexivity |];
     destruct (Qeq_bool _ _); reflexivity).
Qed.



(** ** Per-lineage interpolation *)


(** The three branches of [_interpolate_multi_type_abundance] on a sorted,
    aligned and non-empty buffer. *)
Lemma interpolate_multi_cases st t :
  buffers_ok st -> buffer_times st <> [] ->
  (t <= nth 0 (buffer_times st) 0 /\
   (_interpolate_multi_type_abundance st t).1 = nth 0 (buffer_N_by_lineage st) ∅) \/
  (nth 0 (buffer_times st) 0 < t /\ py_last (buffer_times st) 0 <= t /\
   (_interpolate_multi_type_abundance st t).1 = py_last (buffer_N_by_lineage st) ∅) \/
  (exists i t0 t1 d0 d1,
     buffer_times st !! i = Some t0 /\ buffer_times st !! S i = Some t1 /\
     buffer_N_by_lineage st !! i = Some d0 /\
     buffer_N_by_lineage st !! S i = Some d1 /\
     t0 < t /\ t <= t1 /\ t < py_last (buffer_times st) 0 /\
     (_interpolate_multi_type_abundance st t).1
     = blend ((t - t0) / (t1 - t0)) d0 d1).
Proof.
  intros [Hs [Hb Hn]] Hne.
  assert (0 < length (buffer_times st))%nat as Hlen
    by (destruct (buffer_times st); [done | simpl; lia]).
  unfold _interpolate_multi_type_abundance.
  assert ((length (buffer_times st) =? 0)%nat = false) as -> by (apply Nat.eqb_neq; lia).
  assert ((length (buffer_N_by_lineage st) =? 0)%nat = false) as ->
    by (apply Nat.eqb_neq; lia).
  assert ((length (buffer_times st) =? length (buffer_N_by_lineage st))%nat = true) as ->
    by (by apply Nat.eqb_eq).
  simpl.
  destruct (Qle_bool t (nth 0 (buffer_times st) 0)) eqn:E1.
  { left. qprop. done. }
  destruct (Qle_bool (py_last (buffer_times st) 0) t) eqn:E2.
  { right; left. qprop. done. }
  right; right.
  pose proof (bisect_left_interior _ _ E1 E2) as Hidx.
  destruct (bisect_left_spec _ t Hs) as (Hk & Hl & Hg).
  destruct (bisect_left (buffer_times st) t) as [|i]; [lia |].
  simpl. rewrite Nat.sub_0_r.
  destruct (lookup_lt_is_Some_2 (buffer_times st) i ltac:(lia)) as [t0 Ht0].
  destruct (lookup_lt_is_Some_2 (buffer_times st) (S i) ltac:(lia)) as [t1 Ht1].
  destruct (lookup_lt_is_Some_2 (buffer_N_by_lineage st) i ltac:(lia)) as [d0 Hd0].
  destruct (lookup_lt_is_Some_2 (buffer_N_by_lineage st) (S i) ltac:(lia)) as [d1 Hd1].
  rewrite (nth_lookup_Some _ _ _ _ Ht0), (nth_lookup_Some _ _ _ _ Ht1),
    (nth_lookup_Some _ _ _ _ Hd0), (nth_lookup_Some _ _ _ _ Hd1).
  pose proof (Hl i t0 ltac:(lia) Ht0) as Hlo.
  pose proof (Hg (S i) t1 ltac:(lia) Ht1) as Hhi.
  assert (Qltb t0 t1 = true) as -> by (apply Qltb_lt; lra).
  qprop. exists i, t0, t1, d0, d1. done.
Qed.


Lemma lookup_0_nth_dict (l : list (gmap string Q)) x : l !! O = Some x -> nth 0 l ∅ = x.
Proof. destruct l; simpl; congruence. Qed.

(** X8 ([_interpolate_multi_type_abundance]).  Outside the buffered range
    the per-lineage dict is clamped: at or before the first buffered time
    the first stored dict is returned, at or after the last buffered time
    the last stored dict, each as stored; on an empty buffer the empty
    dict. *)
Theorem interpolate_multi_clamped (st : AnimationController) (t : Q) :
  buffers_ok st ->
  (buffer_times st = [] -> (_interpolate_multi_type_abundance st t).1 = ∅) /\
  (forall t0 d0, head (buffer_times st) = Some t0 ->
     head (buffer_N_by_lineage st) = Some d0 ->
     t <= t0 -> (_interpolate_multi_type_abundance st t).1 = d0) /\
  (forall t1 d1, last (buffer_times st) = Some t1 ->
     last (buffer_N_by_lineage st) = Some d1 ->
     t1 <= t -> (_interpolate_multi_type_abundance st t).1 = d1).
Proof.
  intros Hok. pose proof Hok as [Hs [Hb Hn]]. split; [| split].
  - intros E. unfold _interpolate_multi_type_abundance. by rewrite E.
  - intros t0 d0 Ht0 Hd0 Hle.
    assert (buffer_times st <> []) as Hne by (intros E; by rewrite E in Ht0).
    rewrite head_lookup in Ht0. rewrite head_lookup in Hd0.
    apply lookup_0_nth in Ht0. apply lookup_0_nth_dict in Hd0. subst t0 d0.
    destruct (interpolate_multi_cases st t Hok Hne)
      as [[_ ->] | [(Hgt & _) | (i & a & b & _ & _ & Ha & _ & _ & _ & Hlo & _)]].
    + done.
    + lra.
    + pose proof (nth_0_least _ _ _ Hs Ha). lra.
  - intros t1 d1 Ht1 Hd1 Hle.
    assert (buffer_times st <> []) as Hne by (intros E; by rewrite E in Ht1).
    assert (buffer_N_by_lineage st <> []) as Hnen by (intros E; by rewrite E in Hd1).
    apply (last_py_last _ _ 0) in Ht1. apply (last_py_last _ _ ∅) in Hd1. subst t1 d1.
    destruct (interpolate_multi_cases st t Hok Hne)
      as [[Hfirst ->] | [(_ & _ & ->) | (i & a & b & _ & _ & _ & _ & _ & _ & _ & _ & Hlt & _)]].
    + assert (length (buffer_times st) = 1%nat) as Hone
        by (apply strictly_increasing_singleton; [done | done | lra]).
      pose proof (py_last_lookup (buffer_N_by_lineage st) ∅ Hnen) as Hl.
      rewrite <- Hn, Hone in Hl. simpl in Hl. by apply lookup_0_nth_dict in Hl.
    + done.
    + lra.
Qed.

Lemma interpolate_multi_clamped_witness :
  (_interpolate_multi_type_abundance entity_union_example (-3)).1 = {["A" := 1]} /\
  (_interpolate_multi_type_abundance entity_union_example 10).1
  = {["A" := 2; "B" := 4]}.
Proof.
  assert (buffers_ok entity_union_example) as Hok.
  { destruct (run_buffers_ok entity_union_calls default_controller
                (init_buffers_ok 1 100 1000)) as (st & E & Hok).
    unfold entity_union_example. rewrite E. exact Hok. }
  destruct (interpolate_multi_clamped entity_union_example (-3) Hok) as (_ & Hlo & _).
  destruct (interpolate_multi_clamped entity_union_example 10 Hok) as (_ & _ & Hhi).
  split.
  - apply (Hlo 0); [vm_compute; reflexivity | vm_compute; reflexivity
                   | vm_compute; discriminate].
  - apply (Hhi 10); [vm_compute; reflexivity | vm_compute; reflexivity
                    | vm_compute; discriminate].
Defined.



(** ** Samples kept and added by [add_data_chunk] *)

Lemma zip_take_min {A B} (l : list A) (k : list B) :
  zip (take (length l `min` length k) l) (take (length l `min` length k) k) = zip l k.
Proof.
  revert k. induction l as [|x l IH]; intros [|y k]; simpl; try reflexivity.
  by rewrite IH.
Qed.

(** [add_data_chunk] runs the insertion loop over the pairs of the two
    arrays, cut to the shorter one. *)
Lemma add_data_chunk_zip st ts bs :
  add_data_chunk st ts bs
  = update_integration_time (fold_left add_point (zip ts bs) st).
Proof.
  unfold add_data_chunk. destruct (negb _); [| reflexivity].
  by rewrite zip_take_min.
Qed.

Lemma samples_update_integration_time st :
  samples (update_integration_time st) = samples st.
Proof. unfold update_integration_time. by destruct (_ <? _)%nat. Qed.

Lemma samples_add_point_new st t v :
  aligned st -> py_in t (buffer_times st) = false ->
  samples (add_point st (t, v))
  = py_insert (bisect_left (buffer_times st) t) (t, (v, ∅)) (samples st).
Proof.
  intros [Hb Hn] Hnot. unfold add_point. rewrite Hnot.
  unfold samples, py_insert. cbn.
  rewrite !zip_with_take, !zip_with_drop.
  rewrite !zip_with_app; [reflexivity | |];
    rewrite ?length_zip_with, ?length_take; lia.
Qed.

Lemma py_insert_sublist {A} idx (x : A) l : l `sublist_of` py_insert idx x l.
Proof.
  unfold py_insert. rewrite <- (take_drop idx l) at 1.
  apply sublist_app; [done |]. by apply sublist_cons.
Qed.

Lemma samples_add_point_sublist st p :
  aligned st -> samples st `sublist_of` samples (add_point st p).
Proof.
  intros Ha. destruct p as [t v].
  destruct (py_in t (buffer_times st)) eqn:E.
  - by rewrite add_point_present.
  - rewrite samples_add_point_new by done. apply py_insert_sublist.
Qed.

Lemma fold_add_point_cons p ps st :
  fold_left add_point (p :: ps) st = fold_left add_point ps (add_point st p).
Proof. reflexivity. Qed.

Lemma fold_add_point_sublist ps st :
  buffers_ok st -> samples st `sublist_of` samples (fold_left add_point ps st).
Proof.
  revert st. induction ps as [|p ps IH]; intros st Hok; [done |].
  rewrite fold_add_point_cons.
  etrans; [apply samples_add_point_sublist, Hok |].
  apply IH. by apply add_point_buffers_ok.
Qed.

Lemma fold_add_point_origin ps st s :
  buffers_ok st -> s ∈ samples (fold_left add_point ps st) ->
  s ∈ samples st \/ (s.2.2 = ∅ /\ (s.1, s.2.1) ∈ ps).
Proof.
  revert st. induction ps as [|[t v] ps IH]; intros st Hok Hin; [by left |].
  rewrite fold_add_point_cons in Hin.
  apply IH in Hin; [| by apply add_point_buffers_ok].
  destruct Hin as [Hin | [He Hin]]; [| right; split; [done | by apply list_elem_of_further]].
  destruct (py_in t (buffer_times st)) eqn:E.
  - rewrite add_point_present in Hin by done. by left.
  - rewrite samples_add_point_new in Hin by (done || apply Hok).
    apply py_insert_elem_of in Hin as [-> | Hin]; [| by left].
    right. split; [done | apply list_elem_of_here].
Qed.

Lemma fold_add_point_present ps st t v :
  (t, v) ∈ ps -> py_in t (buffer_times (fold_left add_point ps st)) = true.
Proof.
  revert st. induction ps as [|p ps IH]; intros st Hin; [by apply elem_of_nil in Hin |].
  rewrite fold_add_point_cons.
  apply elem_of_cons in Hin as [<- | Hin]; [| by apply IH].
  pose proof (add_point_makes_present st t v) as H.
  apply py_in_true in H as (e & He & Heq). apply py_in_true.
  exists e. split; [by apply fold_add_point_times_subseteq | done].
Qed.

(** X10 ([add_data_chunk]).  A chunk never removes, reorders or overwrites
    a buffered sample: the samples (time, biomass, dict) of before are a
    subsequence of those after.  Every sample after the call is an old one
    or a pair of the chunk with an empty dict, and every time of the chunk
    that has a partner value is buffered afterwards. *)
Theorem add_data_chunk_keeps_samples
    (st : AnimationController) (t_epoch biomass_epoch : list Q) :
  buffers_ok st ->
  let st' := add_data_chunk st t_epoch biomass_epoch in
  samples st `sublist_of` samples st' /\
  (forall s, s ∈ samples st' ->
     s ∈ samples st \/ (s.2.2 = ∅ /\ (s.1, s.2.1) ∈ zip t_epoch biomass_epoch)) /\
  (forall t v, (t, v) ∈ zip t_epoch biomass_epoch ->
     py_in t (buffer_times st') = true).
Proof.
  intros Hok st'. subst st'. rewrite add_data_chunk_zip.
  rewrite samples_update_integration_time.
  destruct (update_integration_time_buffers
              (fold_left add_point (zip t_epoch biomass_epoch) st)) as (-> & _ & _).
  split; [by apply fold_add_point_sublist |].
  split; [intros s; by apply fold_add_point_origin |].
  intros t v. apply fold_add_point_present.
Qed.

Lemma add_data_chunk_keeps_samples_witness :
  let st := add_data_chunk default_controller [0; 10] [1; 2] in
  samples st `sublist_of` samples (add_data_chunk st [5; 10; 20] [7; 8; 9]).
Proof.
  intros st.
  assert (buffers_ok st) as Hok
    by (apply add_data_chunk_buffers_ok, init_buffers_ok).
  exact (proj1 (add_data_chunk_keeps_samples st [5; 10; 20] [7; 8; 9] Hok)).
Defined.

Lemma fold_add_point_times_origin ps st e :
  e ∈ buffer_times (fold_left add_point ps st) ->
  e ∈ buffer_times st \/ exists v, (e, v) ∈ ps.
Proof.
  revert st. induction ps as [|[t v] ps IH]; intros st Hin; [by left |].
  rewrite fold_add_point_cons in Hin.
  apply IH in Hin as [Hin | [w Hin]]; [| right; exists w; by apply list_elem_of_further].
  unfold add_point in Hin. destruct (py_in t (buffer_times st)); [by left |].
  cbn in Hin. apply py_insert_elem_of in Hin as [-> | Hin]; [| by left].
  right. exists v. apply list_elem_of_here.
Qed.

(** X11 ([add_data_chunk]).  A time that is new to the buffer is stored
    with the value it arrives with and an empty dict; when the chunk
    repeats a time, the first occurrence is the one stored. *)
Theorem add_data_chunk_stores_new_point
    (st : AnimationController) (t_epoch biomass_epoch : list Q)
    (k : nat) (t v : Q) :
  buffers_ok st ->
  zip t_epoch biomass_epoch !! k = Some (t, v) ->
  py_in t (buffer_times st) = false ->
  (forall j t' v', (j < k)%nat -> zip t_epoch biomass_epoch !! j = Some (t', v') ->
     ~ t' == t) ->
  (t, (v, ∅)) ∈ samples (add_data_chunk st t_epoch biomass_epoch).
Proof.
  intros Hok Hk Hnew Hfirst. rewrite add_data_chunk_zip.
  rewrite samples_update_integration_time.
  rewrite <- (take_drop_middle _ _ _ Hk).
  rewrite fold_left_app, fold_add_point_cons.
  set (st1 := fold_left add_point (take k (zip t_epoch biomass_epoch)) st).
  assert (buffers_ok st1) as Hok1 by (by apply fold_add_point_buffers_ok).
  assert (py_in t (buffer_times st1) = false) as Hnot.
  { apply py_in_false. intros e He Heq.
    apply fold_add_point_times_origin in He as [He | [w He]].
    - by apply (proj1 (py_in_false _ _) Hnew e).
    - apply list_elem_of_lookup in He as [j Hj].
      pose proof (lookup_lt_Some _ _ _ Hj) as Hlt. rewrite length_take in Hlt.
      rewrite lookup_take_lt in Hj by lia.
      apply (Hfirst j e w ltac:(lia) Hj Heq). }
  apply (elem_of_sublist (samples (add_point st1 (t, v)))).
  - rewrite samples_add_point_new by (done || apply Hok1).
    apply py_insert_elem_of. by left.
  - apply fold_add_point_sublist. by apply add_point_buffers_ok.
Qed.

Lemma add_data_chunk_stores_new_point_witness :
  let st := add_data_chunk default_controller [0; 10] [1; 2] in
  (5, (7, ∅)) ∈ samples (add_data_chunk st [10; 5; 5] [8; 7; 9]).
Proof.
  intros st.
  assert (buffers_ok st) as Hok
    by (apply add_data_chunk_buffers_ok, init_buffers_ok).
  apply (add_data_chunk_stores_new_point st [10; 5; 5] [8; 7; 9] 1 5 7 Hok);
    [reflexivity | reflexivity |].
  intros j t' v' Hj Hl. assert (j = 0%nat) as -> by lia.
  injection Hl as <- <-. discriminate.
Defined.

(** ** [integration_time] follows the buffer *)

Lemma exec_clock_synced st o :
  clock_synced st -> exists st', exec st o = Some st' /\ clock_synced st'.
Proof.
  intros [Hok Hint]. pose proof Hok as [Hs [Hb Hn]].
  destruct o as [ts bs | ts N ids | delta | t | t | | | speed |]; simpl.
  - eexists. split; [reflexivity |]. split; [by apply add_data_chunk_buffers_ok |].
    rewrite add_data_chunk_zip.
    destruct (update_integration_time_buffers
                (fold_left add_point (zip ts bs) st)) as (-> & _ & _).
    apply update_integration_time_last.
    destruct (py_last_nil_or_elem (buffer_times (fold_left add_point (zip ts bs) st)))
      as [[E _] | [Hne _]]; [| by right].
    left. destruct (fold_add_point_fields (zip ts bs) st) as (_ & _ & _ & -> & _).
    rewrite Hint. destruct (buffer_times st) as [|x l] eqn:Et; [by rewrite E |].
    assert (x ∈ buffer_times (fold_left add_point (zip ts bs) st)) as Hx
      by (apply fold_add_point_times_subseteq; rewrite Et; apply list_elem_of_here).
    rewrite E in Hx. by apply elem_of_nil in Hx.
  - destruct (add_multi_type_data_chunk_Some st ts N ids (conj Hb Hn))
      as (buf & Hlen & E).
    eexists. split; [exact E |].
    split; [apply (add_multi_type_data_chunk_buffers_ok _ _ _ _ _ Hok E) |].
    match goal with
    | |- integration_time (update_integration_time ?x) = _ =>
        destruct (update_integration_time_buffers x) as (-> & _ & _);
        apply update_integration_time_last; left; exact Hint
    end.
  - eexists. split; [reflexivity |].
    rewrite (get_next_frame_tick st delta (conj Hb Hn)). by split.
  - eexists. split; [reflexivity |]. rewrite (interpolate_biomass_state st t Hb). by split.
  - eexists. split; [reflexivity |]. rewrite (interpolate_multi_state st t Hn). by split.
  - eexists. split; [reflexivity |]. by split.
  - eexists. split; [reflexivity |]. by split.
  - eexists. split; [reflexivity |]. by split.
  - eexists. split; [reflexivity |]. split; [apply reset_buffers_ok | reflexivity].
Qed.

Lemma run_clock_synced ops st :
  clock_synced st -> exists st', run st ops = Some st' /\ clock_synced st'.
Proof.
  revert st. induction ops as [|o ops IH]; intros st Hcs; [by exists st |].
  destruct (exec_clock_synced st o Hcs) as (st1 & E1 & Hcs1).
  destruct (IH st1 Hcs1) as (st' & E' & Hcs').
  exists st'. split; [| done]. simpl. by rewrite E1.
Qed.

(** X12 ([add_data_chunk], [add_multi_type_data_chunk], [reset]).  After
    any sequence of calls on a fresh controller, [integration_time] is the
    last buffered time, which is the greatest one; on an empty buffer it
    is 0. *)
Theorem integration_time_is_last_buffered_time (s c l : Q) (ops : list op) :
  exists st,
    run (init s c l) ops = Some st /\
    (buffer_times st = [] -> integration_time st = 0) /\
    (forall t, last (buffer_times st) = Some t -> integration_time st = t) /\
    (forall e, e ∈ buffer_times st -> e <= integration_time st).
Proof.
  destruct (run_clock_synced ops (init s c l)) as (st & E & [Hok Hint]).
  { split; [apply init_buffers_ok | reflexivity]. }
  exists st. split; [exact E |]. split; [| split].
  - intros He. rewrite Hint, He. reflexivity.
  - intros t Ht. rewrite Hint. by apply last_py_last.
  - intros e He. rewrite Hint. apply py_last_greatest; [apply Hok | done].
Qed.

(** ** Abundances stored by [add_multi_type_data_chunk] *)

Lemma fold_store_abundance_alter N i idx ps buf :
  (idx < length buf)%nat ->
  fold_left (store_abundance N i idx) ps (Some buf)
  = Some (alter (write_pairs N i ps) idx buf).
Proof.
  revert buf. induction ps as [|p ps IH]; intros buf Hlt.
  - simpl. f_equal. symmetry. by apply list_alter_id.
  - change (fold_left (store_abundance N i idx) (p :: ps) (Some buf))
      with (fold_left (store_abundance N i idx) ps
              (store_abundance N i idx (Some buf) p)).
    unfold store_abundance at 2. simpl.
    assert ((idx <? length buf)%nat = true) as -> by (by apply Nat.ltb_lt).
    destruct (p.1 <? shape0 N)%nat eqn:E.
    + rewrite IH by (by rewrite length_alter). f_equal.
      rewrite list_alter_alter_eq. apply list_alter_ext; [| done].
      intros d _. unfold write_pairs. simpl. by rewrite E.
    + rewrite IH by done. f_equal. apply list_alter_ext; [| done].
      intros d _. unfold write_pairs. simpl. by rewrite E.
Qed.

Lemma enumerate_snoc {A} (l : list A) x :
  enumerate (l ++ [x]) = enumerate l ++ [(length l, x)].
Proof.
  unfold enumerate. rewrite imap_app. simpl. by rewrite Nat.add_0_r.
Qed.

Lemma write_row_snoc N i ids x d :
  write_row N i (ids ++ [x]) d
  = if (length ids <? shape0 N)%nat
    then <[x := default 0 (read_abundance N (length ids) i)]> (write_row N i ids d)
    else write_row N i ids d.
Proof.
  unfold write_row, write_pairs. rewrite enumerate_snoc, fold_left_app. reflexivity.
Qed.

(** A lineage the loop does not name keeps its entry. *)
Lemma write_row_lookup_other N i ids d lid :
  lid ∉ ids -> write_row N i ids d !! lid = d !! lid.
Proof.
  induction ids as [|x ids IH] using rev_ind; intros Hnot; [reflexivity |].
  apply not_elem_of_app in Hnot as [Hnot Hx].
  rewrite write_row_snoc. destruct (_ <? _)%nat; [| by apply IH].
  rewrite lookup_insert_ne; [by apply IH |].
  intros ->. apply Hx, list_elem_of_here.
Qed.

(** A lineage named once gets the abundance read at its position. *)
Lemma write_row_lookup N i ids d k lid :
  NoDup ids -> ids !! k = Some lid -> (k < shape0 N)%nat ->
  write_row N i ids d !! lid = Some (default 0 (read_abundance N k i)).
Proof.
  revert k. induction ids as [|x ids IH] using rev_ind; intros k Hnd Hk Hlt;
    [by rewrite lookup_nil in Hk |].
  apply NoDup_app in Hnd as (Hnd & Hdis & _).
  rewrite write_row_snoc.
  apply lookup_snoc_Some in Hk as [[Hkl Hk] | [-> ->]].
  - assert (lid <> x) as Hne.
    { intros ->. apply (Hdis x); [by eapply list_elem_of_lookup_2 | apply list_elem_of_here]. }
    destruct (_ <? _)%nat; [rewrite lookup_insert_ne by done |]; by apply IH.
  - assert ((length ids <? shape0 N)%nat = true) as -> by (by apply Nat.ltb_lt).
    by rewrite lookup_insert_eq.
Qed.

(** [l.index(t)] returns a position that holds [t]. *)
Lemma py_index_lookup t l idx :
  py_index t l = Some idx -> exists e, l !! idx = Some e /\ e == t.
Proof.
  revert idx. induction l as [|x l IH]; intros idx H; simpl in H; [done |].
  destruct (Qeq_bool x t) eqn:E.
  - injection H as <-. exists x. qprop. done.
  - destruct (py_index t l) as [j|] eqn:Ej; [| done]. injection H as <-.
    destruct (IH j eq_refl) as (e & He & Heq). by exists e.
Qed.

(** In a sorted list a time is found at one position only. *)
Lemma strictly_increasing_index_unique l i j x y :
  strictly_increasing l -> l !! i = Some x -> l !! j = Some y -> x == y -> i = j.
Proof.
  intros Hs Hi Hj Heq.
  destruct (Nat.lt_trichotomy i j) as [Hlt | [-> | Hgt]]; [| done |].
  - pose proof (Hs _ _ _ _ Hi Hj Hlt). lra.
  - pose proof (Hs _ _ _ _ Hj Hi Hgt). lra.
Qed.

(** One turn of the loop over the times of the epoch, on an aligned
    controller. *)
Lemma store_time_step N ids st i t :
  aligned st ->
  (py_in t (buffer_times st) = false /\ store_time N ids (Some st) (i, t) = Some st) \/
  (exists idx e, buffer_times st !! idx = Some e /\ e == t /\
     store_time N ids (Some st) (i, t)
     = Some (with_buffers (buffer_times st) (buffer_biomass st)
               (alter (write_row N i ids) idx (buffer_N_by_lineage st)) st)).
Proof.
  intros [Hb Hn]. unfold store_time. simpl.
  destruct (py_in t (buffer_times st)) eqn:E; simpl; [| by left].
  right. destruct (py_index_Some _ _ E) as (idx & Hidx & Hlt).
  destruct (py_index_lookup _ _ _ Hidx) as (e & He & Heq).
  exists idx, e. split; [done |]. split; [done |].
  rewrite Hidx. simpl. rewrite fold_store_abundance_alter by lia. reflexivity.
Qed.

(** What the loop over the times of an epoch leaves in the dict buffer:
    lineages it does not name keep their entries, samples at other times
    keep their dicts, and the last occurrence of a buffered time writes the
    abundances read at its index. *)
Lemma fold_store_time_spec N ids ps st :
  buffers_ok st ->
  exists buf,
    fold_left (store_time N ids) ps (Some st)
    = Some (with_buffers (buffer_times st) (buffer_biomass st) buf st) /\
    length buf = length (buffer_N_by_lineage st) /\
    (forall idx d lid, lid ∉ ids -> buf !! idx = Some d ->
       exists d0, buffer_N_by_lineage st !! idx = Some d0 /\ d !! lid = d0 !! lid) /\
    (forall idx tb, buffer_times st !! idx = Some tb ->
       (forall p, p ∈ ps -> ~ p.2 == tb) ->
       buf !! idx = buffer_N_by_lineage st !! idx) /\
    (forall n i t idx tb k lid,
       ps !! n = Some (i, t) ->
       (forall m p, (n < m)%nat -> ps !! m = Some p -> ~ p.2 == t) ->
       buffer_times st !! idx = Some tb -> tb == t ->
       NoDup ids -> ids !! k = Some lid -> (k < shape0 N)%nat ->
       exists d, buf !! idx = Some d /\
                 d !! lid = Some (default 0 (read_abundance N k i))).
Proof.
  intros Hok. pose proof Hok as [Hs [Hb Hn]].
  induction ps as [|[i t] ps IH] using rev_ind.
  { exists (buffer_N_by_lineage st). simpl. rewrite with_buffers_id.
    split; [done |]. split; [done |]. split; [| split].
    - intros idx d lid _ Hd. by exists d.
    - done.
    - intros n i t idx tb k lid Hn'. by rewrite lookup_nil in Hn'. }
  destruct IH as (buf & E & Hlen & HA & HB & HC).
  rewrite fold_left_app, E. cbn [fold_left].
  set (st1 := with_buffers (buffer_times st) (buffer_biomass st) buf st).
  assert (aligned st1) as Hal1 by (split; cbn; [done | lia]).
  destruct (store_time_step N ids st1 i t Hal1)
    as [[Hnot ->] | (idx0 & e0 & He0 & Heq0 & ->)].
  - (* the time is not buffered: nothing is written *)
    exists buf. split; [done |]. split; [done |]. split; [done |]. split.
    + intros idx tb Htb Hno. apply (HB idx tb Htb).
      intros p Hp. apply Hno, elem_of_app. by left.
    + intros n i' t' idx tb k lid Hn' Hlater Htb Heq Hnd Hk Hlt.
      apply lookup_snoc_Some in Hn' as [[Hnl Hn'] | [-> [= <- <-]]].
      * apply (HC n i' t' idx tb k lid Hn'); try done.
        intros m p Hm Hp. apply (Hlater m p Hm). by apply lookup_app_l_Some.
      * exfalso. cbn in Hnot.
        apply (proj1 (py_in_false _ _) Hnot tb); [| done].
        by eapply list_elem_of_lookup_2.
  - (* the time is buffered at [idx0] *)
    cbn in He0.
    exists (alter (write_row N i ids) idx0 buf).
    split; [reflexivity |]. split; [by rewrite length_alter |]. split; [| split].
    + intros idx d lid Hnotin Hd.
      destruct (decide (idx0 = idx)) as [<- | Hneq].
      * rewrite list_lookup_alter_eq in Hd.
        destruct (buf !! idx0) as [d1|] eqn:E1; [| done].
        injection Hd as <-. rewrite write_row_lookup_other by done.
        by apply (HA idx0).
      * rewrite list_lookup_alter_ne in Hd by done. by apply (HA idx).
    + intros idx tb Htb Hno.
      assert (idx0 <> idx) as Hneq.
      { intros <-. rewrite He0 in Htb. injection Htb as <-.
        apply (Hno (i, t)); [apply elem_of_app; right; apply list_elem_of_here |].
        simpl. by symmetry. }
      rewrite list_lookup_alter_ne by done. apply (HB idx tb Htb).
      intros p Hp. apply Hno, elem_of_app. by left.
    + intros n i' t' idx tb k lid Hn' Hlater Htb Heq Hnd Hk Hlt.
      apply lookup_snoc_Some in Hn' as [[Hnl Hn'] | [-> [= <- <-]]].
      * assert (idx0 <> idx) as Hneq.
        { intros <-. rewrite He0 in Htb. injection Htb as <-.
          apply (Hlater (length ps) (i, t) Hnl);
            [by apply list_lookup_middle |].
          simpl. by rewrite <- Heq0. }
        rewrite list_lookup_alter_ne by done.
        apply (HC n i' t' idx tb k lid Hn'); try done.
        intros m p Hm Hp. apply (Hlater m p Hm). by apply lookup_app_l_Some.
      * assert (idx0 = idx) as <-.
        { apply (strictly_increasing_index_unique _ _ _ _ _ Hs He0 Htb).
          by rewrite Heq0, Heq. }
        rewrite list_lookup_alter_eq.
        destruct (lookup_lt_is_Some_2 buf idx0) as [d1 Hd1].
        { rewrite Hlen, <- Hn. by eapply lookup_lt_Some. }
        rewrite Hd1. simpl. eexists. split; [reflexivity |].
        by apply write_row_lookup.
Qed.

Lemma validated_ids_length N ids : (length (validated_ids N ids) <= shape0 N)%nat.
Proof.
  unfold validated_ids. destruct (shape0 N =? length ids)%nat eqn:E; simpl.
  - apply Nat.eqb_eq in E. lia.
  - rewrite length_take. lia.
Qed.

Lemma enumerate_lookup {A} (l : list A) n p :
  enumerate l !! n = Some p <-> exists x, l !! n = Some x /\ p = (n, x).
Proof. unfold enumerate. apply list_lookup_imap_Some. Qed.

(** The controller on which the time loop of [add_multi_type_data_chunk]
    starts has the buffers of the controller the method was called on. *)
Lemma add_multi_type_data_chunk_spec st ts N ids :
  buffers_ok st ->
  exists st' buf,
    add_multi_type_data_chunk st ts N ids = Some st' /\
    buffer_times st' = buffer_times st /\
    buffer_biomass st' = buffer_biomass st /\
    buffer_N_by_lineage st' = buf /\
    length buf = length (buffer_N_by_lineage st) /\
    (forall idx d lid, lid ∉ validated_ids N ids -> buf !! idx = Some d ->
       exists d0, buffer_N_by_lineage st !! idx = Some d0 /\ d !! lid = d0 !! lid) /\
    (forall idx tb, buffer_times st !! idx = Some tb ->
       (forall t, t ∈ validated_times N ts -> ~ t == tb) ->
       buf !! idx = buffer_N_by_lineage st !! idx) /\
    (forall i t idx tb k lid,
       validated_times N ts !! i = Some t ->
       (forall j t', (i < j)%nat -> validated_times N ts !! j = Some t' -> ~ t' == t) ->
       buffer_times st !! idx = Some tb -> tb == t ->
       NoDup (validated_ids N ids) -> validated_ids N ids !! k = Some lid ->
       exists d, buf !! idx = Some d /\
                 d !! lid = Some (default 0 (read_abundance N k i))).
Proof.
  intros Hok. unfold add_multi_type_data_chunk. cbv zeta.
  match goal with
  | |- context [fold_left _ _ (Some ?s)] => set (st0 := s)
  end.
  assert (buffers_ok st0) as Hok0 by exact Hok.
  destruct (fold_store_time_spec N (validated_ids N ids)
              (enumerate (validated_times N ts)) st0 Hok0)
    as (buf & E & Hlen & HA & HB & HC).
  rewrite E. simpl.
  eexists. exists buf. split; [reflexivity |].
  match goal with
  | |- context [update_integration_time ?x] =>
      destruct (update_integration_time_buffers x) as (-> & -> & ->)
  end.
  split; [reflexivity |]. split; [reflexivity |]. split; [reflexivity |].
  split; [exact Hlen |]. split; [exact HA |]. split.
  - intros idx tb Htb Hno. apply (HB idx tb Htb).
    intros p Hp. apply list_elem_of_lookup in Hp as [n Hp].
    apply enumerate_lookup in Hp as (x & Hx & ->). simpl.
    apply Hno. by eapply list_elem_of_lookup_2.
  - intros i t idx tb k lid Hi Hlater Htb Heq Hnd Hk.
    apply (HC i i t idx tb k lid); try done.
    + apply enumerate_lookup. by exists t.
    + intros m p Hm Hp. apply enumerate_lookup in Hp as (x & Hx & ->). simpl.
      by apply (Hlater m).
    + pose proof (validated_ids_length N ids). pose proof (lookup_lt_Some _ _ _ Hk). lia.
Qed.

(** X13 ([add_multi_type_data_chunk]).  Round trip of an abundance: on a
    sorted and aligned controller the call returns, and when the lineage
    ids (after the contract check) are distinct, the dict buffered with a
    time of the epoch holds, for the lineage at row [k], the abundance read
    at row [k] and the index [i] of that time: for a matrix with [i]
    inside its columns, the entry [N_epoch[k, i]].  When a time occurs
    more than once in the epoch, the last occurrence is the one kept. *)
Theorem add_multi_type_data_chunk_round_trip
    (st : AnimationController) (t_epoch : list Q) (N_epoch : ndarray)
    (lineageIDs : list string) (i k idx : nat) (t tb : Q) (lid : string) :
  buffers_ok st ->
  NoDup (validated_ids N_epoch lineageIDs) ->
  validated_times N_epoch t_epoch !! i = Some t ->
  (forall j t', (i < j)%nat -> validated_times N_epoch t_epoch !! j = Some t' ->
     ~ t' == t) ->
  validated_ids N_epoch lineageIDs !! k = Some lid ->
  buffer_times st !! idx = Some tb -> tb == t ->
  exists st' d,
    add_multi_type_data_chunk st t_epoch N_epoch lineageIDs = Some st' /\
    buffer_times st' !! idx = Some tb /\
    buffer_N_by_lineage st' !! idx = Some d /\
    d !! lid = Some (default 0 (read_abundance N_epoch k i)) /\
    (forall ncols rows row x,
       N_epoch = Array2 ncols rows -> rows !! k = Some row ->
       (i < ncols)%nat -> row !! i = Some x -> d !! lid = Some x).
Proof.
  intros Hok Hnd Hi Hlater Hk Htb Heq.
  destruct (add_multi_type_data_chunk_spec st t_epoch N_epoch lineageIDs Hok)
    as (st' & buf & E & Ht & _ & Hbuf & _ & _ & _ & HC).
  destruct (HC i t idx tb k lid Hi Hlater Htb Heq Hnd Hk) as (d & Hd & Hlid).
  exists st', d. split; [exact E |]. split; [by rewrite Ht |].
  split; [by rewrite Hbuf |]. split; [exact Hlid |].
  intros ncols rows row x -> Hrow Hlt Hx. rewrite Hlid. simpl.
  rewrite Hrow. simpl. apply Nat.ltb_lt in Hlt. rewrite Hlt, Hx. reflexivity.
Qed.

Lemma add_multi_type_data_chunk_round_trip_witness :
  let st := add_data_chunk default_controller [0; 3; 4] [1; 1; 1] in
  exists st' d,
    add_multi_type_data_chunk st [3; 4] (Array2 2 [[1; 2]; [5; 6]]) ["A"; "B"]
    = Some st' /\
    buffer_N_by_lineage st' !! 2%nat = Some d /\ d !! "B" = Some 6.
Proof.
  intros st.
  assert (buffers_ok st) as Hok
    by (apply add_data_chunk_buffers_ok, init_buffers_ok).
  destruct (add_multi_type_data_chunk_round_trip st [3; 4]
              (Array2 2 [[1; 2]; [5; 6]]) ["A"; "B"] 1 1 2 4 4 "B" Hok)
    as (st' & d & E & _ & Hd & _ & Hx).
  - change (NoDup ["A"; "B"]). apply NoDup_cons. split; [| apply NoDup_singleton].
    intros H%list_elem_of_singleton. discriminate.
  - reflexivity.
  - intros j t' Hj Hl. destruct j as [|[|j]]; [lia | lia | done].
  - reflexivity.
  - reflexivity.
  - reflexivity.
  - exists st', d. split; [exact E |]. split; [exact Hd |].
    apply (Hx 2%nat [[1; 2]; [5; 6]] [5; 6]); [reflexivity | reflexivity | lia | reflexivity].
Defined.

(** X14 ([add_multi_type_data_chunk]).  A multi-type chunk never adds,
    removes or moves a sample: times and biomass are as before and the
    dict buffer keeps its length.  It writes only where it is told to: the
    dict of a buffered time that is not a time of the epoch is untouched
    (so abundances for times that were not buffered beforehand are
    dropped), and in every dict the entries of lineages that the epoch does
    not name are as before. *)
Theorem add_multi_type_data_chunk_writes_only
    (st : AnimationController) (t_epoch : list Q) (N_epoch : ndarray)
    (lineageIDs : list string) :
  buffers_ok st ->
  exists st',
    add_multi_type_data_chunk st t_epoch N_epoch lineageIDs = Some st' /\
    buffer_times st' = buffer_times st /\
    buffer_biomass st' = buffer_biomass st /\
    length (buffer_N_by_lineage st') = length (buffer_N_by_lineage st) /\
    (forall idx tb, buffer_times st !! idx = Some tb ->
       (forall t, t ∈ validated_times N_epoch t_epoch -> ~ t == tb) ->
       buffer_N_by_lineage st' !! idx = buffer_N_by_lineage st !! idx) /\
    (forall idx d' lid,
       lid ∉ validated_ids N_epoch lineageIDs ->
       buffer_N_by_lineage st' !! idx = Some d' ->
       exists d, buffer_N_by_lineage st !! idx = Some d /\ d' !! lid = d !! lid).
Proof.
  intros Hok.
  destruct (add_multi_type_data_chunk_spec st t_epoch N_epoch lineageIDs Hok)
    as (st' & buf & E & Ht & Hb & Hbuf & Hlen & HA & HB & _).
  exists st'. rewrite Hbuf. done.
Qed.

Lemma add_multi_type_data_chunk_writes_only_witness :
  let st := add_data_chunk default_controller [0; 10] [1; 6] in
  exists st',
    add_multi_type_data_chunk st [5] (Array2 1 [[7]]) ["A"] = Some st' /\
    buffer_times st' = buffer_times st /\
    buffer_N_by_lineage st' !! 0%nat = buffer_N_by_lineage st !! 0%nat.
Proof.
  intros st.
  assert (buffers_ok st) as Hok
    by (apply add_data_chunk_buffers_ok, init_buffers_ok).
  destruct (add_multi_type_data_chunk_writes_only st [5] (Array2 1 [[7]]) ["A"] Hok)
    as (st' & E & Ht & _ & _ & Hother & _).
  exists st'. split; [exact E |]. split; [exact Ht |].
  apply (Hother 0%nat 0); [reflexivity |].
  intros t Hin. apply list_elem_of_singleton in Hin as ->. discriminate.
Defined.

(** ** The lineage registry is a numbering *)

Lemma register_lineage_ok reg lid :
  registry_ok reg -> registry_ok (register_lineage reg lid).
Proof.
  intros Hok. unfold register_lineage.
  destruct (reg.1 !! lid) as [n0|] eqn:E; [done |].
  intros lid' n. simpl. split.
  - intros H. destruct (decide (lid = lid')) as [<- | Hne].
    + rewrite lookup_insert_eq in H. injection H as <-.
      by apply list_lookup_middle.
    + rewrite lookup_insert_ne in H by done.
      apply lookup_app_l_Some. by apply Hok.
  - intros H. apply lookup_snoc_Some in H as [[Hlt H] | [-> ->]].
    + apply Hok in H. rewrite lookup_insert_ne; [done |].
      intros ->. congruence.
    + apply lookup_insert_eq.
Qed.

Lemma fold_register_lineage_ok ids reg :
  registry_ok reg -> registry_ok (fold_left register_lineage ids reg).
Proof.
  revert reg. induction ids as [|x ids IH]; intros reg Hok; simpl; [done |].
  by apply IH, register_lineage_ok.
Qed.

Lemma fold_register_lineage_registers ids reg lid :
  lid ∈ ids -> is_Some ((fold_left register_lineage ids reg).1 !! lid).
Proof.
  revert reg. induction ids as [|x ids IH]; intros reg Hin;
    [by apply elem_of_nil in Hin |].
  apply elem_of_cons in Hin as [-> | Hin]; simpl; [| by apply IH].
  assert (is_Some ((register_lineage reg x).1 !! x)) as [n Hn].
  { unfold register_lineage. destruct (reg.1 !! x) as [n|] eqn:E; simpl.
    - by exists n.
    - rewrite lookup_insert_eq. by eexists. }
  exists n. by apply fold_register_lineage_lookup.
Qed.

Lemma validated_ids_elem_of N ids lid : lid ∈ validated_ids N ids -> lid ∈ ids.
Proof.
  unfold validated_ids. destruct (negb _); [| done].
  intros H. eapply elem_of_sublist; [exact H | apply sublist_take].
Qed.

Lemma registry_ok_empty : registry_ok (∅, []).
Proof. intros lid n. simpl. by rewrite lookup_empty, lookup_nil. Qed.

Lemma update_registry_ok st ids :
  (forall reg, lineage_registry st = Some reg -> registry_ok reg) ->
  registry_ok (update_registry st ids).
Proof.
  intros H. unfold update_registry. apply fold_register_lineage_ok.
  destruct (lineage_registry st) as [reg|]; simpl; [by apply H | apply registry_ok_empty].
Qed.

Lemma add_point_dicts st p d :
  d ∈ buffer_N_by_lineage (add_point st p) -> d = ∅ \/ d ∈ buffer_N_by_lineage st.
Proof.
  destruct p as [t v]. unfold add_point.
  destruct (py_in t (buffer_times st)); [by right |].
  cbn. intros H. by apply py_insert_elem_of in H.
Qed.

Lemma fold_add_point_dicts ps st d :
  d ∈ buffer_N_by_lineage (fold_left add_point ps st) ->
  d = ∅ \/ d ∈ buffer_N_by_lineage st.
Proof.
  revert st. induction ps as [|p ps IH]; intros st H; [by right |].
  rewrite fold_add_point_cons in H. apply IH in H as [-> | H]; [by left |].
  by apply add_point_dicts in H.
Qed.

Lemma add_multi_type_data_chunk_lineages st ts N ids st' :
  add_multi_type_data_chunk st ts N ids = Some st' ->
  lineage_registry st' = Some (update_registry st ids) /\
  current_lineageIDs st' = validated_ids N ids.
Proof.
  intros H. apply add_multi_type_data_chunk_frame in H. rewrite H.
  match goal with
  | |- context [update_integration_time ?s] =>
      destruct (update_integration_time_fields s) as (-> & _ & _ & _ & _ & _ & _ & ->)
  end.
  done.
Qed.

Lemma exec_registry_inv st o :
  registry_inv st -> exists st', exec st o = Some st' /\ registry_inv st'.
Proof.
  intros (Hok & Hreg & Hkeys). pose proof Hok as [Hs [Hb Hn]].
  destruct o as [ts bs | ts N ids | delta | t | t | | | speed |]; simpl.
  - eexists. split; [reflexivity |].
    destruct (add_data_chunk_fields st ts bs) as (Hc & _ & _ & _ & _ & _ & _ & Hr).
    split; [by apply add_data_chunk_buffers_ok |]. split; [by rewrite Hr |].
    intros lid Hlid. rewrite Hr. apply Hkeys.
    destruct Hlid as [(d & Hd & Hsome) | Hcur]; [left | right; by rewrite <- Hc].
    rewrite add_data_chunk_zip in Hd.
    destruct (update_integration_time_buffers
                (fold_left add_point (zip ts bs) st)) as (_ & _ & E).
    rewrite E in Hd. apply fold_add_point_dicts in Hd as [-> | Hd].
    + rewrite lookup_empty in Hsome. by destruct Hsome.
    + by exists d.
  - destruct (add_multi_type_data_chunk_spec st ts N ids Hok)
      as (st' & buf & E & Ht & Hbm & Hbuf & Hlen & HA & _ & _).
    destruct (add_multi_type_data_chunk_lineages _ _ _ _ _ E) as [Hr Hc].
    exists st'. split; [exact E |].
    split; [apply (add_multi_type_data_chunk_buffers_ok _ _ _ _ _ Hok E) |].
    split.
    + intros reg Hreg'. rewrite Hr in Hreg'. injection Hreg' as <-.
      by apply update_registry_ok.
    + intros lid Hlid. exists (update_registry st ids). split; [exact Hr |].
      destruct (decide (lid ∈ validated_ids N ids)) as [Hin | Hnin].
      { apply fold_register_lineage_registers. by eapply validated_ids_elem_of. }
      destruct Hlid as [(d & Hd & Hsome) | Hcur]; [| by rewrite Hc in Hcur].
      rewrite Hbuf in Hd. apply list_elem_of_lookup in Hd as [idx Hd].
      destruct (HA idx d lid Hnin Hd) as (d0 & Hd0 & Heq).
      destruct (Hkeys lid) as (reg & Hreg0 & [n Hn0]).
      { left. exists d0. split; [by eapply list_elem_of_lookup_2 | by rewrite <- Heq]. }
      exists n. unfold update_registry. rewrite Hreg0. simpl.
      by apply fold_register_lineage_lookup.
  - eexists. split; [reflexivity |].
    rewrite (get_next_frame_tick st delta (conj Hb Hn)). by split.
  - eexists. split; [reflexivity |]. rewrite (interpolate_biomass_state st t Hb). by split.
  - eexists. split; [reflexivity |]. rewrite (interpolate_multi_state st t Hn). by split.
  - eexists. split; [reflexivity |]. by split.
  - eexists. split; [reflexivity |]. by split.
  - eexists. split; [reflexivity |]. by split.
  - eexists. split; [reflexivity |]. split; [apply reset_buffers_ok |].
    split; [exact Hreg |].
    intros lid [(d & Hd & _) | Hcur]; simpl in *; by apply elem_of_nil in Hd || by apply elem_of_nil in Hcur.
Qed.

Lemma run_registry_inv ops st :
  registry_inv st -> exists st', run st ops = Some st' /\ registry_inv st'.
Proof.
  revert st. induction ops as [|o ops IH]; intros st Hinv; [by exists st |].
  destruct (exec_registry_inv st o Hinv) as (st1 & E1 & Hinv1).
  destruct (IH st1 Hinv1) as (st' & E' & Hinv').
  exists st'. split; [| done]. simpl. by rewrite E1.
Qed.

Lemma init_registry_inv s c l : registry_inv (init s c l).
Proof.
  split; [apply init_buffers_ok |]. split; [done |].
  intros lid [(d & Hd & _) | Hcur]; simpl in *;
    by apply elem_of_nil in Hd || by apply elem_of_nil in Hcur.
Qed.

(** X15 ([add_multi_type_data_chunk], [reset]).  After any sequence of
    calls on a fresh controller, the registry is a numbering of the
    lineages seen so far: [_lineage_to_global_idx] maps a lineage to [n]
    exactly when [_global_lineage_list[n]] is that lineage, so no two
    lineages share a global index, no lineage is listed twice, and the
    indices are those below the length of the list. *)
Theorem lineage_registry_is_a_numbering (s c l : Q) (ops : list op) :
  exists st,
    run (init s c l) ops = Some st /\
    forall m g, lineage_registry st = Some (m, g) ->
      (forall lid n, m !! lid = Some n <-> g !! n = Some lid) /\
      (forall lid lid' n, m !! lid = Some n -> m !! lid' = Some n -> lid = lid') /\
      NoDup g /\
      (forall lid n, m !! lid = Some n -> (n < length g)%nat).
Proof.
  destruct (run_registry_inv ops (init s c l) (init_registry_inv s c l))
    as (st & E & _ & Hreg & _).
  exists st. split; [exact E |]. intros m g Hmg.
  pose proof (Hreg _ Hmg) as Hok. unfold registry_ok in Hok. simpl in Hok.
  split; [exact Hok |]. split; [| split].
  - intros lid lid' n H1 H2. apply Hok in H1. apply Hok in H2. congruence.
  - apply NoDup_alt. intros i j x Hi Hj. apply Hok in Hi. apply Hok in Hj. congruence.
  - intros lid n H. apply Hok in H. by eapply lookup_lt_Some.
Qed.

(** X16 ([add_multi_type_data_chunk], [add_data_chunk]).  After any
    sequence of calls on a fresh controller, every lineage that occurs in
    a buffered dict and every lineage of [current_lineageIDs] has a global
    index in the registry. *)
Theorem buffered_lineages_are_registered (s c l : Q) (ops : list op) :
  exists st,
    run (init s c l) ops = Some st /\
    (forall d lid, d ∈ buffer_N_by_lineage st -> is_Some (d !! lid) ->
       exists m, _lineage_to_global_idx st = Some m /\ is_Some (m !! lid)) /\
    (forall lid, lid ∈ current_lineageIDs st ->
       exists m, _lineage_to_global_idx st = Some m /\ is_Some (m !! lid)).
Proof.
  destruct (run_registry_inv ops (init s c l) (init_registry_inv s c l))
    as (st & E & _ & _ & Hkeys).
  exists st. split; [exact E |]. unfold _lineage_to_global_idx. split.
  - intros d lid Hd Hsome. destruct (Hkeys lid) as (reg & -> & H); [left; by exists d |].
    by exists reg.1.
  - intros lid Hcur. destruct (Hkeys lid) as (reg & -> & H); [by right |].
    by exists reg.1.
Qed.

(** ** The mutation log *)

Lemma exec_mutation_events st o st' :
  exec st o = Some st' -> o <> Reset ->
  mutation_events st `prefix_of` mutation_events st'.
Proof.
  destruct o; simpl; intros H Hne; try (injection H as <-).
  - destruct (add_data_chunk_fields st t_epoch biomass_epoch) as (_ & -> & _). done.
  - apply add_multi_type_data_chunk_frame in H. rewrite H.
    match goal with
    | |- context [update_integration_time ?s] =>
        destruct (update_integration_time_fields s) as (_ & -> & _)
    end.
    cbn. unfold detect_mutation. destruct (_ && _); [by apply prefix_app_r | done].
  - destruct (get_next_frame_frame st real_time_delta) as (a & ts & bs & ns & ->). done.
  - destruct (interpolate_biomass_frame st t) as (ts & bs & ns & ->). done.
  - destruct (interpolate_multi_frame st t) as (ts & bs & ns & ->). done.
  - done.
  - done.
  - done.
  - done.
Qed.

Lemma run_mutation_events ops st st' :
  run st ops = Some st' -> Reset ∉ ops ->
  mutation_events st `prefix_of` mutation_events st'.
Proof.
  revert st. induction ops as [|o ops IH]; intros st H Hno; simpl in H.
  - by injection H as <-.
  - destruct (exec st o) as [st1|] eqn:E; [| done]. simpl in H.
    apply not_elem_of_cons in Hno as [Hne Hno].
    etrans; [by apply (exec_mutation_events _ _ _ E) | by apply IH].
Qed.

(** X17 ([get_mutation_events_in_range], [add_multi_type_data_chunk]).
    The mutation log is append-only between resets: after calls without
    [reset] the old log is a prefix of the new one, and the answer to a
    range query is a prefix of the later answer to the same query.  A
    query returns exactly the logged times [t] with
    [t_start <= t <= t_end]. *)
Theorem mutation_log_is_append_only
    (st st' : AnimationController) (ops : list op) :
  run st ops = Some st' -> Reset ∉ ops ->
  mutation_events st `prefix_of` mutation_events st' /\
  (forall t_start t_end,
     get_mutation_events_in_range st t_start t_end
       `prefix_of` get_mutation_events_in_range st' t_start t_end) /\
  (forall t_start t_end t,
     t ∈ get_mutation_events_in_range st' t_start t_end <->
     t ∈ mutation_events st' /\ t_start <= t /\ t <= t_end).
Proof.
  intros Hrun Hno. pose proof (run_mutation_events _ _ _ Hrun Hno) as [k Hk].
  split; [by exists k |]. split.
  - intros a b. unfold get_mutation_events_in_range. rewrite Hk, List.filter_app.
    by apply prefix_app_r.
  - intros a b t. unfold get_mutation_events_in_range.
    rewrite !list_elem_of_In, List.filter_In, andb_true_iff, !Qle_bool_iff. tauto.
Qed.

Lemma mutation_log_is_append_only_witness :
  mutation_events one_lineage_example `prefix_of` mutation_events three_lineages_example.
Proof.
  assert (run one_lineage_example
            [AddMultiTypeDataChunk [2] (Array2 1 [[1]; [1]; [1]]) ["A"; "B"; "C"]]
          = Some three_lineages_example) as Hrun by (vm_compute; reflexivity).
  assert (Reset ∉ [AddMultiTypeDataChunk [2] (Array2 1 [[1]; [1]; [1]]) ["A"; "B"; "C"]])
    as Hno by (intros H; apply list_elem_of_singleton in H; discriminate).
  exact (proj1 (mutation_log_is_append_only _ _ _ Hrun Hno)).
Defined.

(** ** The registry does not influence the rest of the controller *)

(** Reads of a field through the field updates. *)
Ltac record_fields :=
  cbn [set_registry forget_registry with_lineages with_buffers
       with_animation_time with_integration_time
       buffer_times buffer_biomass buffer_N_by_lineage current_lineageIDs
       mutation_events animation_time integration_time animation_speed
       is_playing last_real_time buffer_critical buffer_low
       lineage_registry multi_type_chunk_count fst snd].

Lemma set_registry_eta st :
  st = set_registry (lineage_registry st) (multi_type_chunk_count st) (forget_registry st).
Proof. by destruct st. Qed.

Lemma add_point_set_registry r c st p :
  add_point (set_registry r c st) p = set_registry r c (add_point st p).
Proof.
  destruct p as [t v]. unfold add_point. record_fields.
  by destruct (py_in t (buffer_times st)).
Qed.

Lemma fold_add_point_set_registry r c ps st :
  fold_left add_point ps (set_registry r c st)
  = set_registry r c (fold_left add_point ps st).
Proof.
  revert st. induction ps as [|p ps IH]; intros st; [reflexivity |].
  by rewrite !fold_add_point_cons, add_point_set_registry, IH.
Qed.

Lemma update_integration_time_set_registry r c st :
  update_integration_time (set_registry r c st)
  = set_registry r c (update_integration_time st).
Proof. unfold update_integration_time. record_fields. by destruct (_ <? _)%nat. Qed.

Lemma add_data_chunk_set_registry r c st ts bs :
  add_data_chunk (set_registry r c st) ts bs = set_registry r c (add_data_chunk st ts bs).
Proof.
  by rewrite !add_data_chunk_zip, fold_add_point_set_registry,
    update_integration_time_set_registry.
Qed.

Lemma interpolate_biomass_set_registry r c st t :
  _interpolate_biomass (set_registry r c st) t
  = ((_interpolate_biomass st t).1, set_registry r c (_interpolate_biomass st t).2).
Proof.
  unfold _interpolate_biomass. record_fields.
  destruct (_ || _); [reflexivity |].
  destruct (negb _); record_fields;
    (destruct (Qle_bool t _); [reflexivity |];
     destruct (Qle_bool _ t); [reflexivity |];
     destruct (Qeq_bool _ _); reflexivity).
Qed.

Lemma interpolate_multi_set_registry r c st t :
  _interpolate_multi_type_abundance (set_registry r c st) t
  = ((_interpolate_multi_type_abundance st t).1,
     set_registry r c (_interpolate_multi_type_abundance st t).2).
Proof.
  unfold _interpolate_multi_type_abundance. record_fields.
  destruct (_ || _); [reflexivity |].
  destruct (negb _); record_fields;
    (destruct (Qle_bool t _); [reflexivity |];
     destruct (Qle_bool _ t); reflexivity).
Qed.

Lemma get_next_frame_set_registry r c st delta :
  get_next_frame (set_registry r c st) delta
  = ((get_next_frame st delta).1, set_registry r c (get_next_frame st delta).2).
Proof.
  unfold get_next_frame. record_fields.
  destruct (negb (is_playing st)); [reflexivity |].
  destruct (_ =? _)%nat; [reflexivity |].
  change (get_speed_factor (set_registry r c st)) with (get_speed_factor st).
  destruct (Qltb _ _); record_fields.
  - change (with_animation_time (integration_time st)
              (with_animation_time
                 (animation_time st + delta * animation_speed st * get_speed_factor st)
                 (set_registry r c st)))
      with (set_registry r c
              (with_animation_time (integration_time st)
                 (with_animation_time
                    (animation_time st + delta * animation_speed st * get_speed_factor st)
                    st))).
    rewrite interpolate_biomass_set_registry.
    by destruct (_interpolate_biomass _ _).
  - change (with_animation_time
              (animation_time st + delta * animation_speed st * get_speed_factor st)
              (set_registry r c st))
      with (set_registry r c
              (with_animation_time
                 (animation_time st + delta * animation_speed st * get_speed_factor st)
                 st)).
    rewrite interpolate_biomass_set_registry.
    by destruct (_interpolate_biomass _ _).
Qed.

Lemma store_time_set_registry r c N ids st p :
  store_time N ids (Some (set_registry r c st)) p
  = set_registry r c <$> store_time N ids (Some st) p.
Proof.
  unfold store_time. cbn [mbind option_bind]. record_fields.
  destruct (negb _); [reflexivity |].
  destruct (py_index _ _) as [idx|]; [| reflexivity].
  cbn [mbind option_bind]. record_fields.
  by destruct (fold_left _ _ _).
Qed.

Lemma fold_store_time_None N ids ps : fold_left (store_time N ids) ps None = None.
Proof. by induction ps. Qed.

Lemma fold_store_time_set_registry r c N ids ps st :
  fold_left (store_time N ids) ps (Some (set_registry r c st))
  = set_registry r c <$> fold_left (store_time N ids) ps (Some st).
Proof.
  revert st. induction ps as [|p ps IH]; intros st; [reflexivity |].
  cbn [fold_left]. rewrite store_time_set_registry.
  destruct (store_time N ids (Some st) p) as [st1|]; cbn [fmap option_fmap option_map].
  - apply IH.
  - by rewrite fold_store_time_None.
Qed.

Lemma add_multi_type_data_chunk_set_registry r c st ts N ids :
  forget_registry <$> add_multi_type_data_chunk (set_registry r c st) ts N ids
  = forget_registry <$> add_multi_type_data_chunk st ts N ids.
Proof.
  unfold add_multi_type_data_chunk. cbv zeta.
  set (a := validated_ids N ids). set (tl := validated_times N ts).
  set (base := with_lineages a (detect_mutation st a tl) None None st).
  match goal with
  | |- context [with_lineages a ?b ?x ?y (set_registry r c st)] =>
      change (with_lineages a b x y (set_registry r c st)) with (set_registry x y base)
  end.
  match goal with
  | |- context [with_lineages a ?b ?x ?y st] =>
      change (with_lineages a b x y st) with (set_registry x y base)
  end.
  rewrite !fold_store_time_set_registry.
  destruct (fold_left _ _ (Some base)) as [s1|]; [| reflexivity].
  cbn [mbind option_bind fmap option_fmap option_map].
  by rewrite !update_integration_time_set_registry.
Qed.

Lemma exec_set_registry r c st o :
  forget_registry <$> exec (set_registry r c st) o = forget_registry <$> exec st o.
Proof.
  destruct o; cbn [exec].
  - by rewrite add_data_chunk_set_registry.
  - apply add_multi_type_data_chunk_set_registry.
  - by rewrite get_next_frame_set_registry.
  - by rewrite interpolate_biomass_set_registry.
  - by rewrite interpolate_multi_set_registry.
  - reflexivity.
  - reflexivity.
  - reflexivity.
  - reflexivity.
Qed.

Lemma exec_same_data st1 st2 o :
  forget_registry st1 = forget_registry st2 ->
  forget_registry <$> exec st1 o = forget_registry <$> exec st2 o.
Proof.
  intros H.
  pose proof (exec_set_registry (lineage_registry st1) (multi_type_chunk_count st1)
                (forget_registry st1) o) as H1.
  pose proof (exec_set_registry (lineage_registry st2) (multi_type_chunk_count st2)
                (forget_registry st2) o) as H2.
  rewrite <- set_registry_eta in H1. rewrite <- set_registry_eta in H2.
  rewrite H1, H2, H. reflexivity.
Qed.

Lemma run_same_data ops st1 st2 :
  forget_registry st1 = forget_registry st2 ->
  forget_registry <$> run st1 ops = forget_registry <$> run st2 ops.
Proof.
  revert st1 st2. induction ops as [|o ops IH]; intros st1 st2 H.
  - simpl. by rewrite H.
  - pose proof (exec_same_data st1 st2 o H) as He. cbn [run].
    destruct (exec st1 o) as [s1|], (exec st2 o) as [s2|]; try done.
    cbn [mbind option_bind]. apply IH. apply (inj Some). exact He.
Qed.

Lemma same_data_outputs st1 st2 :
  forget_registry st1 = forget_registry st2 ->
  (forall t, (_interpolate_biomass st1 t).1 = (_interpolate_biomass st2 t).1) /\
  (forall t, (_interpolate_multi_type_abundance st1 t).1
             = (_interpolate_multi_type_abundance st2 t).1) /\
  (forall delta, (get_next_frame st1 delta).1 = (get_next_frame st2 delta).1) /\
  get_buffer_status st1 = get_buffer_status st2.
Proof.
  intros H.
  rewrite (set_registry_eta st1), (set_registry_eta st2), H.
  repeat split; intros.
  - by rewrite !interpolate_biomass_set_registry.
  - by rewrite !interpolate_multi_set_registry.
  - by rewrite !get_next_frame_set_registry.
Qed.

(** X18 ([reset], [__init__]).  Apart from the lineage registry and the
    chunk counter, a controller that was reset behaves as a newly
    constructed one with the same speed and thresholds: after any further
    calls the two agree on every other attribute, on both interpolations,
    on the next frame and on the buffer status.  A reset therefore keeps
    the playback speed; the registry it keeps has no effect on any of
    these. *)
Theorem reset_is_a_fresh_start (st : AnimationController) (ops : list op) :
  exists st1 st2,
    run (reset st) ops = Some st1 /\
    run (init (animation_speed st) (buffer_critical st) (buffer_low st)) ops = Some st2 /\
    forget_registry st1 = forget_registry st2 /\
    (forall t, (_interpolate_biomass st1 t).1 = (_interpolate_biomass st2 t).1) /\
    (forall t, (_interpolate_multi_type_abundance st1 t).1
               = (_interpolate_multi_type_abundance st2 t).1) /\
    (forall delta, (get_next_frame st1 delta).1 = (get_next_frame st2 delta).1) /\
    get_buffer_status st1 = get_buffer_status st2.
Proof.
  destruct (run_buffers_ok ops (reset st) (reset_buffers_ok st)) as (st1 & E1 & _).
  destruct (run_buffers_ok ops (init (animation_speed st) (buffer_critical st)
                                  (buffer_low st)) (init_buffers_ok _ _ _))
    as (st2 & E2 & _).
  exists st1, st2. split; [exact E1 |]. split; [exact E2 |].
  assert (forget_registry st1 = forget_registry st2) as H.
  { pose proof (run_same_data ops (reset st)
                  (init (animation_speed st) (buffer_critical st) (buffer_low st))
                  eq_refl) as Hr.
    rewrite E1, E2 in Hr. apply (inj Some). exact Hr. }
  split; [exact H |]. by apply same_data_outputs.
Qed.

(** ** One epoch through [process_data_chunk] *)

Lemma validated_times_elem_of N ts t : t ∈ validated_times N ts -> t ∈ ts.
Proof.
  unfold validated_times. destruct (negb _); [| done].
  intros H. eapply elem_of_sublist; [exact H | apply sublist_take].
Qed.

Lemma elem_of_zip_partner (ts bs : list Q) t :
  (length ts <= length bs)%nat -> t ∈ ts -> exists v, (t, v) ∈ zip ts bs.
Proof.
  intros Hlen Hin. apply list_elem_of_lookup in Hin as [n Hn].
  pose proof (lookup_lt_Some _ _ _ Hn) as Hlt.
  destruct (lookup_lt_is_Some_2 bs n ltac:(lia)) as [v Hv].
  exists v. apply list_elem_of_lookup. exists n.
  by rewrite lookup_zip_with, Hn, Hv.
Qed.

(** X19 ([SuppressionWindow.process_data_chunk]).  An epoch whose times
    all have a biomass value is stored without a gap: the call returns,
    and for every time of the epoch (after the length check, last
    occurrence) and every lineage (after the contract check, ids
    distinct) the controller then buffers that time together with a dict
    that holds the abundance read for that lineage and time index. *)
Theorem process_data_chunk_stores_epoch
    (st : AnimationController) (t_epoch : list Q) (N_epoch : ndarray)
    (biomass_epoch : list Q) (lineageIDs : list string)
    (i k : nat) (t : Q) (lid : string) :
  buffers_ok st ->
  (length t_epoch <= length biomass_epoch)%nat ->
  NoDup (validated_ids N_epoch lineageIDs) ->
  validated_times N_epoch t_epoch !! i = Some t ->
  (forall j t', (i < j)%nat -> validated_times N_epoch t_epoch !! j = Some t' ->
     ~ t' == t) ->
  validated_ids N_epoch lineageIDs !! k = Some lid ->
  exists st' idx tb d,
    process_data_chunk st t_epoch N_epoch biomass_epoch lineageIDs = Some st' /\
    buffer_times st' !! idx = Some tb /\ tb == t /\
    buffer_N_by_lineage st' !! idx = Some d /\
    d !! lid = Some (default 0 (read_abundance N_epoch k i)).
Proof.
  intros Hok Hlen Hnd Hi Hlater Hk.
  unfold process_data_chunk. cbv zeta.
  assert ((0 <? length lineageIDs)%nat = true) as ->.
  { apply Nat.ltb_lt. apply list_elem_of_lookup_2, validated_ids_elem_of in Hk.
    destruct lineageIDs; [by apply elem_of_nil in Hk | simpl; lia]. }
  set (st1 := add_data_chunk st t_epoch biomass_epoch).
  assert (buffers_ok st1) as Hok1 by (by apply add_data_chunk_buffers_ok).
  assert (exists idx tb, buffer_times st1 !! idx = Some tb /\ tb == t)
    as (idx & tb & Htb & Heq).
  { apply list_elem_of_lookup_2, validated_times_elem_of in Hi.
    destruct (elem_of_zip_partner _ _ _ Hlen Hi) as [v Hv].
    pose proof (fold_add_point_present _ st _ _ Hv) as Hin.
    apply py_in_true in Hin as (e & He & Hee).
    apply list_elem_of_lookup in He as [idx He].
    exists idx, e. split; [| done].
    unfold st1. rewrite add_data_chunk_zip.
    by destruct (update_integration_time_buffers
                   (fold_left add_point (zip t_epoch biomass_epoch) st)) as (-> & _ & _). }
  destruct (add_multi_type_data_chunk_spec st1 t_epoch N_epoch lineageIDs Hok1)
    as (st' & buf & E & Ht & _ & Hbuf & _ & _ & _ & HC).
  destruct (HC i t idx tb k lid Hi Hlater Htb Heq Hnd Hk) as (d & Hd & Hlid).
  exists st', idx, tb, d. split; [exact E |]. split; [by rewrite Ht |].
  split; [exact Heq |]. split; [by rewrite Hbuf | exact Hlid].
Qed.

Lemma process_data_chunk_stores_epoch_witness :
  exists st' idx tb d,
    process_data_chunk default_controller [3; 4] (Array2 2 [[1; 2]; [5; 6]])
      [10; 20] ["A"; "B"] = Some st' /\
    buffer_times st' !! idx = Some tb /\ tb == 4 /\
    buffer_N_by_lineage st' !! idx = Some d /\
    d !! "B" = Some (default 0 (read_abundance (Array2 2 [[1; 2]; [5; 6]]) 1 1)).
Proof.
  apply (process_data_chunk_stores_epoch default_controller [3; 4]
           (Array2 2 [[1; 2]; [5; 6]]) [10; 20] ["A"; "B"] 1 1 4 "B").
  - apply init_buffers_ok.
  - simpl. lia.
  - change (NoDup ["A"; "B"]). apply NoDup_cons. split; [| apply NoDup_singleton].
    intros H%list_elem_of_singleton. discriminate.
  - reflexivity.
  - intros j t' Hj Hl. destruct j as [|[|j]]; [lia | lia | done].
  - reflexivity.
Defined.

(** * Properties of [align_xy_for_interp] *)

(** ** Masking non-finite values *)

Lemma boolean_index_all {A} (a : list A) (mask : list bool) :
  length a = length mask -> forallb id mask = true -> boolean_index a mask = a.
Proof.
  revert mask. induction a as [|v a IH]; intros [|b mask] Hlen Hall; try done.
  simpl in *. apply andb_true_iff in Hall as [Hb Hall].
  unfold id in Hb. rewrite Hb. f_equal. apply IH; [lia | done].
Qed.

Lemma finite_values_cons v l :
  finite_values (v :: l)
  = match v with Finite q => q :: finite_values l | _ => finite_values l end.
Proof. by destruct v. Qed.

Lemma finite_pairs_cons a b xa ya :
  finite_pairs (a :: xa) (b :: ya)
  = match a, b with
    | Finite p, Finite q => (p, q) :: finite_pairs xa ya
    | _, _ => finite_pairs xa ya
    end.
Proof. by destruct a, b. Qed.

Lemma finite_values_masked (xa ya : list npfloat) :
  length xa = length ya ->
  finite_values
    (boolean_index xa (zip_with (fun a b => isfinite a && isfinite b) xa ya))
  = (finite_pairs xa ya).*1 /\
  finite_values
    (boolean_index ya (zip_with (fun a b => isfinite a && isfinite b) xa ya))
  = (finite_pairs xa ya).*2.
Proof.
  revert ya. induction xa as [|a xa IH]; intros [|b ya] Hlen; try done.
  simpl in Hlen. destruct (IH ya ltac:(lia)) as [IHx IHy].
  rewrite finite_pairs_cons.
  destruct a, b; cbn [boolean_index zip_with isfinite andb];
    rewrite ?finite_values_cons; cbn [fmap list_fmap fst snd];
    rewrite ?IHx, ?IHy; done.
Qed.

Lemma finite_step (xa ya : list npfloat) :
  length xa = length ya ->
  let valid_mask := zip_with (fun a b => isfinite a && isfinite b) xa ya in
  finite_values (if forallb id valid_mask then xa else boolean_index xa valid_mask)
  = (finite_pairs xa ya).*1 /\
  finite_values (if forallb id valid_mask then ya else boolean_index ya valid_mask)
  = (finite_pairs xa ya).*2.
Proof.
  intros Hlen valid_mask. destruct (finite_values_masked xa ya Hlen) as [Hx Hy].
  destruct (forallb id valid_mask) eqn:E; [| done].
  assert (length xa = length valid_mask) as Hlx
    by (unfold valid_mask; rewrite length_zip_with; lia).
  assert (length ya = length valid_mask) as Hly by lia.
  fold valid_mask in Hx, Hy.
  rewrite (boolean_index_all xa valid_mask Hlx E) in Hx.
  rewrite (boolean_index_all ya valid_mask Hly E) in Hy. done.
Qed.

Lemma elem_of_finite_pairs x y a b :
  (a, b) ∈ finite_pairs x y <->
  exists i, x !! i = Some (Finite a) /\ y !! i = Some (Finite b).
Proof.
  unfold finite_pairs. rewrite list_elem_of_omap. split.
  - intros ([u v] & Hin & Hf). destruct u, v; try done. injection Hf as -> ->.
    apply list_elem_of_lookup in Hin as [i Hi].
    apply lookup_zip_with_Some in Hi as (u & v & [= <- <-] & Hu & Hv).
    by exists i.
  - intros (i & Hx & Hy). exists (Finite a, Finite b). split; [| done].
    apply list_elem_of_lookup. exists i. by rewrite lookup_zip_with, Hx, Hy.
Qed.

(** ** Gathering by an array of indices *)

Lemma fancy_index_pairs {A B} (P P' : list (A * B)) idx :
  fancy_index P idx = Some P' ->
  fancy_index (P.*1) idx = Some (P'.*1) /\ fancy_index (P.*2) idx = Some (P'.*2).
Proof.
  unfold fancy_index. rewrite !mapM_Some. intros H. split.
  - apply Forall2_fmap_r. eapply Forall2_impl; [exact H |].
    intros i p Hp. simpl. by rewrite list_lookup_fmap, Hp.
  - apply Forall2_fmap_r. eapply Forall2_impl; [exact H |].
    intros i p Hp. simpl. by rewrite list_lookup_fmap, Hp.
Qed.

Lemma fancy_index_omap {A} (l l' : list A) idx :
  fancy_index l idx = Some l' -> l' = omap (fun i => l !! i) idx.
Proof.
  unfold fancy_index. rewrite mapM_Some. induction 1 as [|i y idx l' Hy _ IH]; [done |].
  simpl. by rewrite Hy, IH.
Qed.

Lemma omap_lookup_seq {A} (k l : list A) :
  omap (fun i => (k ++ l) !! i) (seq (length k) (length l)) = l.
Proof.
  revert k. induction l as [|v l IH]; intros k; [done |].
  simpl. rewrite list_lookup_middle by done. f_equal.
  specialize (IH (k ++ [v])). rewrite length_app, Nat.add_1_r in IH.
  by rewrite <- app_assoc in IH.
Qed.

Lemma fancy_index_elem_of {A} (l l' : list A) idx v :
  fancy_index l idx = Some l' -> v ∈ l' -> v ∈ l.
Proof.
  intros H Hin. rewrite (fancy_index_omap _ _ _ H) in Hin.
  apply list_elem_of_omap in Hin as (i & _ & Hi). by eapply list_elem_of_lookup_2.
Qed.

Lemma fancy_index_in_range {A} (l : list A) idx :
  Forall (fun i => (i < length l)%nat) idx -> is_Some (fancy_index l idx).
Proof.
  intros H. apply mapM_is_Some_2. eapply Forall_impl; [exact H |].
  intros i Hi. simpl. by apply lookup_lt_is_Some_2.
Qed.

(** Reading a list through a permutation of its positions permutes it. *)
Lemma fancy_index_permutation {A} (l : list A) idx :
  idx ≡ₚ seq 0 (length l) ->
  exists l', fancy_index l idx = Some l' /\ l' ≡ₚ l.
Proof.
  intros Hperm.
  destruct (fancy_index_in_range l idx) as [l' Hl'].
  { apply Forall_forall. intros i Hi. rewrite Hperm in Hi.
    apply elem_of_seq in Hi. lia. }
  exists l'. split; [done |].
  rewrite (fancy_index_omap _ _ _ Hl'), Hperm.
  pose proof (omap_lookup_seq [] l) as H. simpl in H. by rewrite H.
Qed.

(** ** Sorted arrays *)

Lemma all_diff_positive_Sorted (l : list Q) :
  all_diff_positive l = true <-> Sorted Qlt l.
Proof.
  unfold all_diff_positive. induction l as [|x l IH]; [by split; [constructor |] |].
  destruct l as [|y l].
  - split; [intros _; repeat constructor | done].
  - change (forallb _ (zip (x :: y :: l) (tail (x :: y :: l))))
      with (Qltb 0 (y - x) && forallb (fun p => Qltb 0 (p.2 - p.1)) (zip (y :: l) (tail (y :: l)))).
    rewrite andb_true_iff, IH, Qltb_lt. split.
    + intros [Hlt Hs]. constructor; [done |]. constructor. lra.
    + intros Hs. inversion Hs as [|? ? Hs' Hhd]; subst.
      inversion Hhd; subst. split; [lra | done].
Qed.

Lemma all_diff_positive_spec (l : list Q) :
  all_diff_positive l = true <-> strictly_increasing l.
Proof.
  rewrite all_diff_positive_Sorted, strictly_increasing_sorted. split.
  - apply Sorted.Sorted_StronglySorted. intros a b c. apply Qlt_trans.
  - apply Sorted.StronglySorted_Sorted.
Qed.

Lemma strictly_increasing_nondecreasing l : strictly_increasing l -> nondecreasing l.
Proof. intros H i j a b Ha Hb Hlt. apply Qlt_le_weak. by apply (H i j). Qed.

Lemma short_strictly_increasing (l : list Q) :
  (length l <= 1)%nat -> strictly_increasing l.
Proof.
  intros Hlen i j a b Ha Hb Hlt.
  apply lookup_lt_Some in Ha. apply lookup_lt_Some in Hb. lia.
Qed.

(** ** First occurrences *)

Lemma elem_of_unique_index a i :
  i ∈ unique_index a <->
  (i < length a)%nat /\ py_in (nth i a 0) (take i a) = false.
Proof.
  unfold unique_index. rewrite list_elem_of_filter, elem_of_seq. intuition lia.
Qed.

Lemma filter_seq_increasing (P : nat -> Prop) `{!forall i, Decision (P i)} s n i j a b :
  filter P (seq s n) !! i = Some a -> filter P (seq s n) !! j = Some b ->
  (i < j)%nat -> (a < b)%nat.
Proof.
  revert s i j. induction n as [|n IH]; intros s i j Ha Hb Hlt; [done |].
  simpl in Ha, Hb. rewrite filter_cons in Ha, Hb.
  assert (forall k c, filter P (seq (S s) n) !! k = Some c -> (s < c)%nat) as Hge.
  { intros k c Hc. apply list_elem_of_lookup_2, list_elem_of_filter in Hc as [_ Hc].
    apply elem_of_seq in Hc. lia. }
  destruct (decide (P s)).
  - destruct i as [|i], j as [|j]; try lia; simpl in Ha, Hb.
    + injection Ha as <-. by apply (Hge j).
    + apply (IH (S s) i j); [done | done | lia].
  - by apply (IH (S s) i j).
Qed.

Lemma filter_length_Forall {A} (P : A -> Prop) `{!forall x, Decision (P x)} (l : list A) :
  length (filter P l) = length l -> Forall P l.
Proof.
  induction l as [|x l IH]; intros Hlen; [constructor |].
  rewrite filter_cons in Hlen. destruct (decide (P x)).
  - constructor; [done |]. apply IH. simpl in Hlen. lia.
  - pose proof (length_filter P l). simpl in Hlen. lia.
Qed.

Lemma filter_Forall_id {A} (P : A -> Prop) `{!forall x, Decision (P x)} (l : list A) :
  Forall P l -> filter P l = l.
Proof.
  induction 1 as [|x l Hx _ IH]; [done |].
  by rewrite filter_cons_True, IH.
Qed.

(** A first occurrence differs from every earlier element. *)
Lemma first_occurrence_differs (a : list Q) i j x y :
  py_in (nth j a 0) (take j a) = false ->
  a !! i = Some x -> a !! j = Some y -> (i < j)%nat -> ~ x == y.
Proof.
  intros Hfirst Hi Hj Hlt. rewrite (nth_lookup_Some _ _ _ _ Hj) in Hfirst.
  apply (proj1 (py_in_false _ _) Hfirst x).
  apply elem_of_take. by exists i.
Qed.

Lemma unique_index_strictly_increasing (a : list Q) :
  strictly_increasing a -> unique_index a = seq 0 (length a).
Proof.
  intros Hs. unfold unique_index.
  apply (filter_Forall_id (fun i => py_in (nth i a 0) (take i a) = false)).
  apply Forall_forall. intros j Hj. apply elem_of_seq in Hj.
  destruct (lookup_lt_is_Some_2 a j ltac:(lia)) as [y Hy].
  rewrite (nth_lookup_Some _ _ _ _ Hy). apply py_in_false.
  intros e He Heq. apply elem_of_take in He as (i & Hi & Hlt).
  pose proof (Hs i j e y Hi Hy Hlt). lra.
Qed.

Lemma unique_index_full (a : list Q) :
  length (unique_index a) = length a -> nondecreasing a -> strictly_increasing a.
Proof.
  intros Hlen Hnd i j x y Hi Hj Hlt.
  assert (Forall (fun i => py_in (nth i a 0) (take i a) = false) (seq 0 (length a)))
    as Hall.
  { apply (filter_length_Forall (fun i => py_in (nth i a 0) (take i a) = false)).
    unfold unique_index in Hlen. by rewrite Hlen, length_seq. }
  rewrite Forall_forall in Hall.
  pose proof (lookup_lt_Some _ _ _ Hj) as Hjl.
  specialize (Hall j ltac:(apply elem_of_seq; lia)).
  pose proof (first_occurrence_differs a i j x y Hall Hi Hj Hlt) as Hne.
  pose proof (Hnd i j x y Hi Hj Hlt) as Hle.
  destruct (Qlt_le_dec x y) as [H | H]; [done |].
  exfalso. apply Hne. lra.
Qed.

(** Every value has a first occurrence. *)
Lemma first_occurrence_exists (a : list Q) i x :
  a !! i = Some x ->
  exists j x', j ∈ unique_index a /\ a !! j = Some x' /\ x' == x.
Proof.
  revert x. induction i as [i IH] using lt_wf_ind. intros x Hi.
  destruct (py_in (nth i a 0) (take i a)) eqn:E.
  - rewrite (nth_lookup_Some _ _ _ _ Hi) in E.
    apply py_in_true in E as (e & He & Heq).
    apply elem_of_take in He as (j & Hj & Hlt).
    destruct (IH j Hlt e Hj) as (j' & x' & Hin & Hj' & Heq').
    exists j', x'. split; [done |]. split; [done |]. by rewrite Heq'.
  - exists i, x. split; [| done].
    apply elem_of_unique_index. split; [by eapply lookup_lt_Some | done].
Qed.

(** Keeping the first occurrences of a non-decreasing array of pairs. *)
Lemma dedup_gather (P : list (Q * Q)) :
  nondecreasing (P.*1) ->
  exists P2,
    fancy_index P (unique_index (P.*1)) = Some P2 /\
    length P2 = length (unique_index (P.*1)) /\
    (forall p, p ∈ P2 -> p ∈ P) /\
    strictly_increasing (P2.*1) /\
    (forall a, a ∈ P.*1 -> exists a', a' ∈ P2.*1 /\ a' == a).
Proof.
  intros Hnd.
  destruct (fancy_index_in_range P (unique_index (P.*1))) as [P2 HP2].
  { apply Forall_forall. intros i Hi. apply elem_of_unique_index in Hi as [Hi _].
    by rewrite length_fmap in Hi. }
  exists P2. split; [done |].
  pose proof HP2 as HF. unfold fancy_index in HF. rewrite mapM_Some in HF.
  split; [symmetry; by eapply Forall2_length |].
  split; [intros p Hp; by eapply fancy_index_elem_of |]. split.
  - intros k k' x y Hk Hk' Hlt.
    rewrite list_lookup_fmap in Hk, Hk'.
    destruct (P2 !! k) as [p|] eqn:Ep; [| done].
    destruct (P2 !! k') as [p'|] eqn:Ep'; [| done].
    injection Hk as <-. injection Hk' as <-.
    destruct (Forall2_lookup_r _ _ _ _ _ HF Ep) as (i & Hi & HPi).
    destruct (Forall2_lookup_r _ _ _ _ _ HF Ep') as (i' & Hi' & HPi').
    pose proof (filter_seq_increasing _ _ _ _ _ _ _ Hi Hi' Hlt) as Hii.
    assert (P.*1 !! i = Some p.1) as Hx by (by rewrite list_lookup_fmap, HPi).
    assert (P.*1 !! i' = Some p'.1) as Hy by (by rewrite list_lookup_fmap, HPi').
    apply list_elem_of_lookup_2, elem_of_unique_index in Hi' as [_ Hfirst].
    pose proof (first_occurrence_differs _ _ _ _ _ Hfirst Hx Hy Hii) as Hne.
    pose proof (Hnd _ _ _ _ Hx Hy Hii) as Hle.
    destruct (Qlt_le_dec p.1 p'.1) as [H | H]; [done |].
    exfalso. apply Hne. lra.
  - intros a Ha. apply list_elem_of_lookup in Ha as [i Hi].
    destruct (first_occurrence_exists _ _ _ Hi) as (j & x' & Hj & Hxj & Heq).
    apply list_elem_of_lookup in Hj as [k Hk].
    destruct (Forall2_lookup_l _ _ _ _ _ HF Hk) as (p & Hp & HPj).
    exists p.1. split.
    + apply list_elem_of_fmap. exists p. split; [done |]. by eapply list_elem_of_lookup_2.
    + rewrite list_lookup_fmap, HPj in Hxj. injection Hxj as <-. done.
Qed.

(** Sorting an array of pairs by an [argsort] of its first components. *)
Lemma sort_gather argsort (P : list (Q * Q)) :
  argsort_ok argsort ->
  exists P1,
    fancy_index P (argsort (P.*1)) = Some P1 /\ P1 ≡ₚ P /\ nondecreasing (P1.*1).
Proof.
  intros Hok. destruct (Hok (P.*1)) as [Hperm Hsorted].
  rewrite length_fmap in Hperm.
  destruct (fancy_index_permutation P _ Hperm) as (P1 & HP1 & HpP).
  exists P1. split; [done |]. split; [done |].
  apply Hsorted. by apply fancy_index_pairs.
Qed.

(** ** The cleaned arrays *)

Lemma finite_pairs_length x y :
  (length (finite_pairs x y) <= length x)%nat /\
  (length (finite_pairs x y) <= length y)%nat.
Proof.
  revert y. induction x as [|a x IH]; intros [|b y]; simpl; try (split; lia).
  rewrite finite_pairs_cons. destruct (IH y).
  destruct a, b; simpl; split; lia.
Qed.

Lemma finite_pairs_truncated x y :
  finite_pairs
    (if negb (length x =? length y)%nat then take (length x `min` length y) x else x)
    (if negb (length x =? length y)%nat then take (length x `min` length y) y else y)
  = finite_pairs x y.
Proof.
  destruct (negb _); [| done]. unfold finite_pairs. by rewrite zip_take_min.
Qed.

(** What [align_xy_for_interp] returns, with any [argsort] that sorts: the
    call does not raise; an invalid status comes with no arrays; a valid one
    comes with two arrays of one length, at least [min_points] long, the
    first strictly increasing, whose points are finite points of the input
    and cover every finite [x] of the input. *)
Lemma align_spec argsort x y min_points :
  argsort_ok argsort ->
  exists r,
    align_xy_for_interp argsort x y min_points = Some r /\
    ((exists st, r = (None, None, st) /\ valid st = false) \/
     (exists xs ys st,
        r = (Some xs, Some ys, st) /\ valid st = true /\
        x <> [] /\ y <> [] /\
        length xs = length ys /\
        x_len_out st = length xs /\ y_len_out st = length ys /\
        x_len_in st = length x /\ y_len_in st = length y /\
        (min_points <= length xs)%nat /\
        (length xs <= length x)%nat /\ (length xs <= length y)%nat /\
        strictly_increasing xs /\
        (forall p, p ∈ zip xs ys -> p ∈ finite_pairs x y) /\
        (forall p, p ∈ finite_pairs x y -> exists a', a' ∈ xs /\ a' == p.1))).
Proof.
  intros Hok. unfold align_xy_for_interp. cbv zeta.
  destruct ((length x =? 0) || (length y =? 0))%nat eqn:Hempty.
  { eexists. split; [reflexivity |]. left. by eexists. }
  assert (x <> [] /\ y <> []) as [Hx Hy].
  { apply orb_false_iff in Hempty as [H1 H2].
    apply Nat.eqb_neq in H1. apply Nat.eqb_neq in H2.
    split; intros ->; simpl in *; lia. }
  set (xa := if negb (length x =? length y)%nat
             then take (length x `min` length y) x else x).
  set (ya := if negb (length x =? length y)%nat
             then take (length x `min` length y) y else y).
  assert (length xa = length ya) as Hlen.
  { unfold xa, ya. destruct (length x =? length y)%nat eqn:E; simpl.
    - by apply Nat.eqb_eq.
    - rewrite !length_take. lia. }
  destruct (finite_step xa ya Hlen) as [Hfx Hfy]. cbv zeta in Hfx, Hfy.
  rewrite !Hfx, !Hfy.
  assert (finite_pairs xa ya = finite_pairs x y) as -> by apply finite_pairs_truncated.
  set (P0 := finite_pairs x y).
  destruct (length (P0.*1) <? min_points)%nat eqn:Hfew.
  { eexists. split; [reflexivity |]. left. by eexists. }
  (* step 6 *)
  match goal with
  | |- exists r, (?S ≫= _) = Some r /\ _ =>
      assert (exists P1, S = Some (P1.*1, P1.*2) /\ P1 ≡ₚ P0 /\ nondecreasing (P1.*1))
        as (P1 & -> & Hperm & Hnd)
  end.
  { destruct ((1 <? length (P0.*1))%nat && negb (all_diff_positive (P0.*1))) eqn:Hneed.
    - destruct (sort_gather argsort P0 Hok) as (P1 & HP1 & Hperm & Hnd).
      destruct (fancy_index_pairs _ _ _ HP1) as [-> ->]. by exists P1.
    - exists P0. split; [done |]. split; [done |].
      apply strictly_increasing_nondecreasing.
      apply andb_false_iff in Hneed as [H1 | H2].
      + apply short_strictly_increasing. apply Nat.ltb_ge in H1. lia.
      + apply all_diff_positive_spec. by destruct (all_diff_positive _). }
  cbn [mbind option_bind fst snd].
  (* step 7 *)
  match goal with
  | |- exists r, (?D ≫= _) = Some r /\ _ =>
      assert (exists P2, D = Some (P2.*1, P2.*2) /\
                (forall p, p ∈ P2 -> p ∈ P1) /\
                strictly_increasing (P2.*1) /\
                (forall a, a ∈ P1.*1 -> exists a', a' ∈ P2.*1 /\ a' == a) /\
                (length P2 <= length P1)%nat)
        as (P2 & -> & Hsub & Hsi & Hcov & Hle)
  end.
  { destruct ((1 <? length (P1.*1))%nat
              && (length (unique_index (P1.*1)) <? length (P1.*1))%nat) eqn:Hdup.
    - destruct (dedup_gather P1 Hnd) as (P2 & HP2 & Hl2 & Hsub & Hsi & Hcov).
      destruct (fancy_index_pairs _ _ _ HP2) as [-> ->].
      exists P2. split; [done |]. split; [done |]. split; [done |]. split; [done |].
      rewrite Hl2. unfold unique_index.
      etrans; [apply length_filter |]. by rewrite length_seq, length_fmap.
    - exists P1. split; [done |]. split; [done |]. split; [| split; [| done]].
      + apply andb_false_iff in Hdup as [H1 | H2].
        * apply short_strictly_increasing. apply Nat.ltb_ge in H1. lia.
        * apply unique_index_full; [| done]. apply Nat.ltb_ge in H2.
          pose proof (length_filter
                        (fun i => py_in (nth i (P1.*1) 0) (take i (P1.*1)) = false)
                        (seq 0 (length (P1.*1)))) as H3.
          rewrite length_seq in H3. unfold unique_index in *. lia.
      + intros a Ha. exists a. by split. }
  cbn [mbind option_bind fst snd].
  destruct (length (P2.*1) <? min_points)%nat eqn:Hfew2.
  { eexists. split; [reflexivity |]. left. by eexists. }
  eexists. split; [reflexivity |]. right.
  eexists _, _, _. split; [reflexivity |]. cbn.
  apply Nat.ltb_ge in Hfew2.
  pose proof (finite_pairs_length x y) as [Hlx Hly]. fold P0 in Hlx, Hly.
  pose proof (Permutation_length Hperm) as Hpl.
  rewrite !length_fmap in *.
  repeat split; try done; try lia.
  - intros p Hp. rewrite zip_fst_snd in Hp.
    apply Hsub in Hp. by rewrite Hperm in Hp.
  - intros p Hp. apply (Hcov p.1).
    apply list_elem_of_fmap. exists p. split; [done |]. by rewrite Hperm.
Qed.

(** ** The merge-sort [argsort] sorts *)

#[global] Instance value_le_trans : Transitive value_le.
Proof.
  intros p q r. unfold value_le. rewrite !Qle_bool_iff. apply Qle_trans.
Qed.

#[global] Instance value_le_total : Total value_le.
Proof.
  intros p q. unfold value_le. rewrite !Qle_bool_iff.
  destruct (Qlt_le_dec p.2 q.2); [left; lra | by right].
Qed.

Lemma StronglySorted_lookup_lt {A} (R : relation A) (l : list A) i j x y :
  StronglySorted R l -> l !! i = Some x -> l !! j = Some y -> (i < j)%nat -> R x y.
Proof.
  intros Hs. revert i j. induction Hs as [|a l Hs IH Hall]; intros i j Hi Hj Hlt;
    [done |].
  destruct j as [|j]; [lia |]. simpl in Hj. destruct i as [|i]; simpl in Hi.
  - injection Hi as <-. rewrite Forall_forall in Hall.
    apply Hall. by eapply list_elem_of_lookup_2.
  - apply (IH i j); [done | done | lia].
Qed.

Lemma enumerate_fst {A} (l : list A) : (enumerate l).*1 = seq 0 (length l).
Proof.
  induction l as [|x l IH] using rev_ind; [done |].
  rewrite enumerate_snoc, fmap_app, IH, length_app, Nat.add_1_r, seq_S. done.
Qed.

Lemma merge_argsort_ok : argsort_ok merge_argsort.
Proof.
  intros a. unfold merge_argsort.
  set (S := merge_sort value_le (enumerate a)).
  assert (S ≡ₚ enumerate a) as Hperm by apply merge_sort_Permutation.
  split; [by rewrite Hperm, enumerate_fst |].
  intros xs Hxs.
  assert (fancy_index a (S.*1) = Some (S.*2)) as HS.
  { unfold fancy_index. apply mapM_Some. apply Forall2_fmap.
    apply Forall_Forall2_diag, Forall_forall. intros [i v] Hin. simpl.
    rewrite Hperm in Hin. apply list_elem_of_lookup in Hin as [n Hn].
    apply enumerate_lookup in Hn as (w & Hw & [= -> ->]). done. }
  rewrite HS in Hxs. injection Hxs as <-.
  intros i j u v Hi Hj Hlt. rewrite list_lookup_fmap in Hi, Hj.
  destruct (S !! i) as [p|] eqn:Ep; [| done].
  destruct (S !! j) as [q|] eqn:Eq; [| done].
  injection Hi as <-. injection Hj as <-.
  pose proof (StronglySorted_lookup_lt value_le S i j p q
                (StronglySorted_merge_sort _ _) Ep Eq Hlt) as H.
  by apply Qle_bool_iff.
Qed.

(** ** Theorems on [align_xy_for_interp] *)

(** X20 ([align_xy_for_interp]).  With an [argsort] that sorts, the call
    never raises.  A status that is not valid comes with no arrays.  A
    valid status comes with two arrays that an interpolator accepts: they
    have one length, which is the reported output length and at least
    [min_points], and the [x] array is strictly increasing (sorted, no
    duplicates). *)
Theorem align_xy_for_interp_valid_output
    (argsort : list Q -> list nat) (x y : list npfloat) (min_points : nat) :
  argsort_ok argsort ->
  exists x_aligned y_aligned st,
    align_xy_for_interp argsort x y min_points = Some (x_aligned, y_aligned, st) /\
    x_len_in st = length x /\ y_len_in st = length y /\
    (valid st = false -> x_aligned = None /\ y_aligned = None) /\
    (valid st = true ->
     exists xs ys,
       x_aligned = Some xs /\ y_aligned = Some ys /\
       length xs = length ys /\
       x_len_out st = length xs /\ y_len_out st = length ys /\
       (min_points <= length xs)%nat /\
       strictly_increasing xs).
Proof.
  intros Hok.
  destruct (align_spec argsort x y min_points Hok)
    as (r & E & [(st & -> & Hv)
                | (xs & ys & st & -> & Hv & _ & _ & Hl & Hxo & Hyo & Hxi & Hyi
                   & Hmin & _ & _ & Hsi & _)]).
  - exists None, None, st. split; [exact E |].
    assert (x_len_in st = length x /\ y_len_in st = length y) as [? ?].
    { revert E. unfold align_xy_for_interp. cbv zeta.
      repeat match goal with
             | |- context [if ?b then _ else _] => destruct b
             | |- context [mbind _ ?o] => destruct o as [[? ?]|]; cbn [mbind option_bind]
             end; intros [= <-] || intros [=]; done. }
    split; [done |]. split; [done |]. split; [done |].
    intros Hv'. congruence.
  - exists (Some xs), (Some ys), st. split; [exact E |].
    split; [done |]. split; [done |]. split; [intros Hv'; congruence |].
    intros _. by exists xs, ys.
Qed.

Lemma align_xy_for_interp_valid_output_witness :
  exists x_aligned y_aligned st,
    align_xy_for_interp merge_argsort
      [Finite 3; NaN; Finite 1; Finite 3; Finite 2]
      [Finite 30; Finite 0; Finite 10; Finite 31; PosInf; Finite 7] 2
    = Some (x_aligned, y_aligned, st) /\
    x_len_in st = 5%nat /\ y_len_in st = 6%nat.
Proof.
  destruct (align_xy_for_interp_valid_output merge_argsort
              [Finite 3; NaN; Finite 1; Finite 3; Finite 2]
              [Finite 30; Finite 0; Finite 10; Finite 31; PosInf; Finite 7] 2
              merge_argsort_ok)
    as (xa & ya & st & E & Hx & Hy & _).
  by exists xa, ya, st.
Defined.

(** X21 ([align_xy_for_interp]).  The cleaning invents nothing and loses
    no abscissa: every point [(x_aligned[k], y_aligned[k])] of a valid
    result is a pair [(x[i], y[i])] of finite input values at one index,
    and every [x[i]] that is finite together with [y[i]] occurs (up to
    [==]) in [x_aligned]. *)
Theorem align_xy_for_interp_points
    (argsort : list Q -> list nat) (x y : list npfloat) (min_points : nat)
    (xs ys : list Q) (st : status) :
  argsort_ok argsort ->
  align_xy_for_interp argsort x y min_points = Some (Some xs, Some ys, st) ->
  (forall k a b, xs !! k = Some a -> ys !! k = Some b ->
     exists i, x !! i = Some (Finite a) /\ y !! i = Some (Finite b)) /\
  (forall i a b, x !! i = Some (Finite a) -> y !! i = Some (Finite b) ->
     exists k a', xs !! k = Some a' /\ a' == a).
Proof.
  intros Hok E.
  destruct (align_spec argsort x y min_points Hok)
    as (r & E' & [(st' & -> & _)
                 | (xs' & ys' & st' & -> & _ & _ & _ & _ & _ & _ & _ & _ & _ & _ & _
                    & _ & Hfrom & Hcov)]);
    rewrite E in E'; [done |].
  injection E' as <- <- <-. split.
  - intros k a b Ha Hb. apply elem_of_finite_pairs, Hfrom.
    apply list_elem_of_lookup. exists k. by rewrite lookup_zip_with, Ha, Hb.
  - intros i a b Ha Hb.
    destruct (Hcov (a, b)) as (a' & Hin & Heq).
    { apply elem_of_finite_pairs. by exists i. }
    apply list_elem_of_lookup in Hin as [k Hk]. by exists k, a'.
Qed.

Lemma align_xy_for_interp_points_witness :
  exists xs ys st,
    align_xy_for_interp merge_argsort
      [Finite 3; NaN; Finite 1; Finite 3] [Finite 30; Finite 0; Finite 10; Finite 31] 2
    = Some (Some xs, Some ys, st) /\
    exists k a', xs !! k = Some a' /\ a' == 3.
Proof.
  assert (align_xy_for_interp merge_argsort
            [Finite 3; NaN; Finite 1; Finite 3]
            [Finite 30; Finite 0; Finite 10; Finite 31] 2
          = Some (Some [1; 3], Some [10; 31],
                  mkStatus true Arrays_aligned_successfully 4 4 2 2
                    ["removed_nan_inf"; "sorted"; "deduped"])) as E
    by (vm_compute; reflexivity).
  eexists [1; 3], [10; 31], _. split; [exact E |].
  destruct (align_xy_for_interp_points _ _ _ _ _ _ _ merge_argsort_ok E) as [_ H].
  apply (H 0%nat 3 30); reflexivity.
Defined.

(** ** Clean input *)

Lemma finite_values_Finite (l : list Q) : finite_values (Finite <$> l) = l.
Proof.
  induction l as [|q l IH]; [done |].
  cbn [fmap list_fmap]. by rewrite finite_values_cons, IH.
Qed.

Lemma valid_mask_Finite (xs ys : list Q) :
  forallb id (zip_with (fun a b => isfinite a && isfinite b)
                (Finite <$> xs) (Finite <$> ys)) = true.
Proof.
  revert ys. induction xs as [|a xs IH]; intros [|b ys]; try done. simpl. apply IH.
Qed.

(** X22 ([align_xy_for_interp]).  Clean input passes through unchanged:
    for two arrays of finite values of one length, not empty and at least
    [min_points] long, with [x] strictly increasing, the result is the
    input itself with a valid status and the single action ['no_changes'],
    whatever [argsort] does.  So cleaning is idempotent: cleaning a valid
    non-empty result again returns it as it is. *)
Theorem align_xy_for_interp_clean_input
    (argsort argsort' : list Q -> list nat) (min_points : nat) :
  (forall xs ys : list Q,
     xs <> [] -> length xs = length ys -> (min_points <= length xs)%nat ->
     strictly_increasing xs ->
     align_xy_for_interp argsort (Finite <$> xs) (Finite <$> ys) min_points
     = Some (Some xs, Some ys,
             mkStatus true Arrays_aligned_successfully
               (length xs) (length xs) (length xs) (length xs) ["no_changes"])) /\
  (forall x y xs ys st,
     argsort_ok argsort' ->
     align_xy_for_interp argsort' x y min_points = Some (Some xs, Some ys, st) ->
     xs <> [] ->
     align_xy_for_interp argsort (Finite <$> xs) (Finite <$> ys) min_points
     = Some (Some xs, Some ys,
             mkStatus true Arrays_aligned_successfully
               (length xs) (length xs) (length xs) (length xs) ["no_changes"])).
Proof.
  assert (forall xs ys : list Q,
            xs <> [] -> length xs = length ys -> (min_points <= length xs)%nat ->
            strictly_increasing xs ->
            align_xy_for_interp argsort (Finite <$> xs) (Finite <$> ys) min_points
            = Some (Some xs, Some ys,
                    mkStatus true Arrays_aligned_successfully
                      (length xs) (length xs) (length xs) (length xs) ["no_changes"]))
    as Hclean.
  { intros xs ys Hne Hlen Hmin Hsi.
    unfold align_xy_for_interp. cbv zeta. rewrite !length_fmap, <- Hlen.
    assert ((length xs =? 0)%nat = false) as ->
      by (apply Nat.eqb_neq; destruct xs; [done | simpl; lia]).
    rewrite Nat.eqb_refl. cbn [orb negb].
    rewrite valid_mask_Finite, !finite_values_Finite.
    assert ((length xs <? min_points)%nat = false) as -> by (apply Nat.ltb_ge; lia).
    assert (all_diff_positive xs = true) as -> by (by apply all_diff_positive_spec).
    rewrite andb_false_r. cbn [mbind option_bind fst snd].
    rewrite (unique_index_strictly_increasing xs Hsi), length_seq, Nat.ltb_irrefl.
    rewrite andb_false_r. cbn [mbind option_bind fst snd].
    assert ((length xs <? min_points)%nat = false) as -> by (apply Nat.ltb_ge; lia).
    by rewrite <- Hlen. }
  split; [exact Hclean |].
  intros x y xs ys st Hok E Hne.
  destruct (align_spec argsort' x y min_points Hok)
    as (r & E' & [(st' & -> & _)
                 | (xs' & ys' & st' & -> & _ & _ & _ & Hl & _ & _ & _ & _ & Hmin & _ & _
                    & Hsi & _)]);
    rewrite E in E'; [done |].
  injection E' as <- <- <-. by apply Hclean.
Qed.

Lemma align_xy_for_interp_clean_input_witness :
  align_xy_for_interp merge_argsort
    (Finite <$> [1; 2; 5]) (Finite <$> [10; 20; 50]) 2
  = Some (Some [1; 2; 5], Some [10; 20; 50],
          mkStatus true Arrays_aligned_successfully 3 3 3 3 ["no_changes"]).
Proof.
  apply (proj1 (align_xy_for_interp_clean_input merge_argsort merge_argsort 2)
           [1; 2; 5] [10; 20; 50]).
  - done.
  - reflexivity.
  - simpl. lia.
  - apply all_diff_positive_spec. reflexivity.
Defined.

(** X23 ([validate_interpolation_inputs], [align_xy_for_interp]).  The
    quick check never rejects what the cleaning accepts: when
    [align_xy_for_interp] returns a valid status for [min_points >= 1],
    [validate_interpolation_inputs] is true on the same arguments. *)
Theorem validate_accepts_what_align_accepts
    (argsort : list Q -> list nat) (x y : list npfloat) (min_points : nat)
    (x_aligned y_aligned : option (list Q)) (st : status) :
  argsort_ok argsort -> (1 <= min_points)%nat ->
  align_xy_for_interp argsort x y min_points = Some (x_aligned, y_aligned, st) ->
  valid st = true ->
  validate_interpolation_inputs x y min_points = true.
Proof.
  intros Hok Hmp E Hv.
  destruct (align_spec argsort x y min_points Hok)
    as (r & E' & [(st' & -> & Hv')
                 | (xs & ys & st' & -> & _ & _ & _ & Hl & _ & _ & _ & _ & Hmin & Hlx & Hly
                    & _ & Hfrom & _)]);
    rewrite E in E'; injection E' as -> -> ->; [congruence |].
  unfold validate_interpolation_inputs.
  assert ((length x <? min_points)%nat = false) as -> by (apply Nat.ltb_ge; lia).
  assert ((length y <? min_points)%nat = false) as -> by (apply Nat.ltb_ge; lia).
  destruct xs as [|a xs]; [simpl in Hmin; lia |].
  destruct ys as [|b ys]; [done |].
  assert ((a, b) ∈ finite_pairs x y) as Hin by (apply Hfrom; simpl; apply list_elem_of_here).
  apply elem_of_finite_pairs in Hin as (i & Hx & Hy).
  assert (existsb isfinite x = true) as ->.
  { apply existsb_exists. exists (Finite a). split; [| done].
    apply list_elem_of_In. by eapply list_elem_of_lookup_2. }
  assert (existsb isfinite y = true) as ->.
  { apply existsb_exists. exists (Finite b). split; [| done].
    apply list_elem_of_In. by eapply list_elem_of_lookup_2. }
  reflexivity.
Qed.

Lemma validate_accepts_what_align_accepts_witness :
  validate_interpolation_inputs
    [Finite 3; NaN; Finite 1; Finite 3] [Finite 30; Finite 0; Finite 10; Finite 31] 2
  = true.
Proof.
  apply (validate_accepts_what_align_accepts merge_argsort
           [Finite 3; NaN; Finite 1; Finite 3]
           [Finite 30; Finite 0; Finite 10; Finite 31] 2
           (Some [1; 3]) (Some [10; 31])
           (mkStatus true Arrays_aligned_successfully 4 4 2 2
              ["removed_nan_inf"; "sorted"; "deduped"])
           merge_argsort_ok).
  - lia.
  - vm_compute. reflexivity.
  - reflexivity.
Defined.

(** * Properties of the biomass plot *)

(** Reading two aligned lists at the positions where the first one
    satisfies [keep] gives the pairs that satisfy it, in order. *)
Lemma visible_gather (keep : Q -> bool) (l b : list Q) :
  length l = length b ->
  exists xs ys,
    fancy_index l (filter (fun p : nat * Q => keep p.2 = true) (enumerate l)).*1
      = Some xs /\
    fancy_index b (filter (fun p : nat * Q => keep p.2 = true) (enumerate l)).*1
      = Some ys /\
    length xs = length ys /\
    zip xs ys = filter (fun q : Q * Q => keep q.1 = true) (zip l b).
Proof.
  revert b. induction l as [|x l IH] using rev_ind; intros b Hlen.
  { destruct b; [| done]. by exists [], []. }
  destruct b as [|y b _] using rev_ind; [rewrite length_app in Hlen; simpl in Hlen; lia |].
  rewrite !length_app in Hlen. simpl in Hlen.
  destruct (IH b ltac:(lia)) as (xs & ys & Hxs & Hys & Hl & Hz).
  rewrite enumerate_snoc, filter_app, fmap_app.
  rewrite zip_with_app by lia. rewrite filter_app.
  change (zip [x] [y]) with [(x, y)].
  unfold fancy_index in *. rewrite mapM_Some in Hxs, Hys.
  assert (Forall2 (fun i v => (l ++ [x]) !! i = Some v)
            (filter (fun p : nat * Q => keep p.2 = true) (enumerate l)).*1 xs) as Hxs'.
  { eapply Forall2_impl; [exact Hxs |]. intros i v Hv. by apply lookup_app_l_Some. }
  assert (Forall2 (fun i v => (b ++ [y]) !! i = Some v)
            (filter (fun p : nat * Q => keep p.2 = true) (enumerate l)).*1 ys) as Hys'.
  { eapply Forall2_impl; [exact Hys |]. intros i v Hv. by apply lookup_app_l_Some. }
  destruct (keep x) eqn:Ek.
  - exists (xs ++ [x]), (ys ++ [y]).
    rewrite (filter_cons_True _ (length l, x)) by done.
    rewrite (filter_cons_True _ (x, y)) by done.
    rewrite !filter_nil. cbn [fmap list_fmap fst].
    split; [| split; [| split]].
    + apply mapM_Some, Forall2_app; [done |]. constructor; [| constructor].
      by apply list_lookup_middle.
    + apply mapM_Some, Forall2_app; [done |]. constructor; [| constructor].
      apply list_lookup_middle. lia.
    + rewrite !length_app. simpl. lia.
    + rewrite zip_with_app by done. by rewrite Hz.
  - exists xs, ys.
    rewrite (filter_cons_False _ (length l, x)) by (simpl; congruence).
    rewrite (filter_cons_False _ (x, y)) by (simpl; congruence).
    rewrite !filter_nil. cbn [fmap list_fmap]. rewrite !app_nil_r.
    split; [by apply mapM_Some |]. split; [by apply mapM_Some |]. done.
Qed.

(** X24 ([BiomassPlotWidget.add_streaming_point]).  On a widget whose two
    history lists have one length the call does not raise; it appends the
    point to the history and leaves the window size alone.  The line then
    shows, in history order, the whole history when no window is set, and
    with a window [ws] exactly the history points with time
    [>= t - ws]; with a non-negative window the new point is among them. *)
Theorem add_streaming_point_window
    (w : BiomassPlotWidget.widget) (t biomass : Q) :
  length (BiomassPlotWidget.all_t_data w)
  = length (BiomassPlotWidget.all_biomass_data w) ->
  exists w',
    BiomassPlotWidget.add_streaming_point w t biomass = Some w' /\
    BiomassPlotWidget.all_t_data w' = BiomassPlotWidget.all_t_data w ++ [t] /\
    BiomassPlotWidget.all_biomass_data w'
      = BiomassPlotWidget.all_biomass_data w ++ [biomass] /\
    BiomassPlotWidget.window_size w' = BiomassPlotWidget.window_size w /\
    let history :=
      zip (BiomassPlotWidget.all_t_data w') (BiomassPlotWidget.all_biomass_data w') in
    let shown :=
      zip (BiomassPlotWidget.line_data w').1 (BiomassPlotWidget.line_data w').2 in
    length (BiomassPlotWidget.line_data w').1
      = length (BiomassPlotWidget.line_data w').2 /\
    (BiomassPlotWidget.window_size w = None -> shown = history) /\
    (forall ws, BiomassPlotWidget.window_size w = Some ws ->
       shown = filter (fun p : Q * Q => Qle_bool (t - ws) p.1 = true) history /\
       (0 <= ws -> (t, biomass) ∈ shown)).
Proof.
  intros Hlen. unfold BiomassPlotWidget.add_streaming_point. cbv zeta.
  destruct (BiomassPlotWidget.window_size w) as [ws|] eqn:Ews.
  - destruct (visible_gather (fun v => Qle_bool (t - ws) v)
                (BiomassPlotWidget.all_t_data w ++ [t])
                (BiomassPlotWidget.all_biomass_data w ++ [biomass]))
      as (xs & ys & -> & -> & Hl & Hz).
    { rewrite !length_app. simpl. lia. }
    cbn [mbind option_bind]. eexists. split; [reflexivity |]. cbn.
    split; [done |]. split; [done |]. split; [done |]. split; [done |].
    split; [done |]. intros ws' [= <-]. split; [exact Hz |].
    intros Hws. rewrite Hz. apply list_elem_of_filter. split.
    + simpl. apply Qle_bool_iff. lra.
    + rewrite zip_with_app by done. apply elem_of_app. right. apply list_elem_of_here.
  - cbn [mbind option_bind]. eexists. split; [reflexivity |]. cbn.
    split; [done |]. split; [done |]. split; [done |].
    split; [rewrite !length_app; simpl; lia |]. split; [done |]. done.
Qed.

Lemma add_streaming_point_window_witness :
  exists w',
    BiomassPlotWidget.add_streaming_point
      (BiomassPlotWidget.mkWidget [] [] (Some 5) [0; 2; 7] [1; 2; 3] ([], [])) 10 4
    = Some w' /\
    BiomassPlotWidget.all_t_data w' = [0; 2; 7; 10].
Proof.
  destruct (add_streaming_point_window
              (BiomassPlotWidget.mkWidget [] [] (Some 5) [0; 2; 7] [1; 2; 3] ([], []))
              10 4 eq_refl) as (w' & E & Ht & _).
  exists w'. by split.
Defined.

Lemma add_streaming_point_history (w : BiomassPlotWidget.widget) (t biomass : Q) :
  length (BiomassPlotWidget.all_t_data w)
  = length (BiomassPlotWidget.all_biomass_data w) ->
  exists w',
    BiomassPlotWidget.add_streaming_point w t biomass = Some w' /\
    BiomassPlotWidget.all_t_data w' = BiomassPlotWidget.all_t_data w ++ [t] /\
    BiomassPlotWidget.all_biomass_data w'
      = BiomassPlotWidget.all_biomass_data w ++ [biomass] /\
    BiomassPlotWidget.window_size w' = BiomassPlotWidget.window_size w.
Proof.
  intros Hlen. unfold BiomassPlotWidget.add_streaming_point. cbv zeta.
  destruct (BiomassPlotWidget.window_size w) as [ws|] eqn:Ews.
  - destruct (visible_gather (fun v => Qle_bool (t - ws) v)
                (BiomassPlotWidget.all_t_data w ++ [t])
                (BiomassPlotWidget.all_biomass_data w ++ [biomass]))
      as (xs & ys & -> & -> & _).
    { rewrite !length_app. simpl. lia. }
    cbn [mbind option_bind]. eexists. split; [reflexivity |]. by cbn.
  - cbn [mbind option_bind]. eexists. split; [reflexivity |]. by cbn.
Qed.

(** X25 ([BiomassPlotWidget.set_window_size]).  Changing the window of a
    widget with history appends a copy of the last point to the history:
    every zoom makes the history one point longer.  On an empty widget only
    the window size changes.  The call does not raise when the two history
    lists have one length. *)
Theorem set_window_size_repeats_last_point
    (w : BiomassPlotWidget.widget) (size : option Q) :
  length (BiomassPlotWidget.all_t_data w)
  = length (BiomassPlotWidget.all_biomass_data w) ->
  exists w',
    BiomassPlotWidget.set_window_size w size = Some w' /\
    BiomassPlotWidget.window_size w' = size /\
    (BiomassPlotWidget.all_t_data w = [] ->
     BiomassPlotWidget.all_t_data w' = [] /\
     BiomassPlotWidget.all_biomass_data w' = [] /\
     BiomassPlotWidget.line_data w' = BiomassPlotWidget.line_data w) /\
    (forall t biomass,
       last (BiomassPlotWidget.all_t_data w) = Some t ->
       last (BiomassPlotWidget.all_biomass_data w) = Some biomass ->
       BiomassPlotWidget.all_t_data w' = BiomassPlotWidget.all_t_data w ++ [t] /\
       BiomassPlotWidget.all_biomass_data w'
         = BiomassPlotWidget.all_biomass_data w ++ [biomass]).
Proof.
  intros Hlen. unfold BiomassPlotWidget.set_window_size.
  cbn [BiomassPlotWidget.all_t_data BiomassPlotWidget.all_biomass_data].
  destruct (BiomassPlotWidget.all_t_data w) as [|x l] eqn:Et.
  - destruct (BiomassPlotWidget.all_biomass_data w) as [|y b] eqn:Eb; [| done].
    cbn. eexists. split; [reflexivity |]. cbn. split; [done |].
    split; [done |]. intros t biomass Ht. done.
  - destruct (BiomassPlotWidget.all_biomass_data w) as [|y b] eqn:Eb; [done |].
    change (0 <? length (x :: l))%nat with true. cbv iota.
    destruct (last (x :: l)) as [t|] eqn:Elt; [| by apply last_None in Elt].
    destruct (last (y :: b)) as [bm|] eqn:Elb; [| by apply last_None in Elb].
    cbn [mbind option_bind].
    match goal with
    | |- context [BiomassPlotWidget.add_streaming_point ?w1 _ _] => set (w0 := w1)
    end.
    destruct (add_streaming_point_history w0 t bm) as (w' & E & Ht' & Hb' & Hws).
    { exact Hlen. }
    exists w'. split; [exact E |]. split; [by rewrite Hws |].
    split; [done |].
    intros t' bm' [= <-] [= <-]. by rewrite Ht', Hb'.
Qed.

Lemma set_window_size_repeats_last_point_witness :
  exists w',
    BiomassPlotWidget.set_window_size
      (BiomassPlotWidget.mkWidget [] [] None [0; 2; 7] [1; 2; 3] ([], [])) (Some 4)
    = Some w' /\
    BiomassPlotWidget.all_t_data w' = [0; 2; 7; 7].
Proof.
  destruct (set_window_size_repeats_last_point
              (BiomassPlotWidget.mkWidget [] [] None [0; 2; 7] [1; 2; 3] ([], []))
              (Some 4) eq_refl) as (w' & E & _ & _ & H).
  exists w'. split; [exact E |]. by destruct (H 7 3 eq_refl eq_refl) as [-> _].
Defined.

(** * Properties of the main window *)

Lemma set_window_size_history (w : BiomassPlotWidget.widget) (size : option Q) :
  length (BiomassPlotWidget.all_t_data w)
  = length (BiomassPlotWidget.all_biomass_data w) ->
  exists w',
    BiomassPlotWidget.set_window_size w size = Some w' /\
    BiomassPlotWidget.window_size w' = size /\
    ((BiomassPlotWidget.all_t_data w' = BiomassPlotWidget.all_t_data w /\
      BiomassPlotWidget.all_biomass_data w' = BiomassPlotWidget.all_biomass_data w) \/
     (exists t biomass,
        t ∈ BiomassPlotWidget.all_t_data w /\
        last (BiomassPlotWidget.all_t_data w) = Some t /\
        BiomassPlotWidget.all_t_data w' = BiomassPlotWidget.all_t_data w ++ [t] /\
        BiomassPlotWidget.all_biomass_data w'
          = BiomassPlotWidget.all_biomass_data w ++ [biomass])).
Proof.
  intros Hlen. unfold BiomassPlotWidget.set_window_size.
  cbn [BiomassPlotWidget.all_t_data BiomassPlotWidget.all_biomass_data].
  destruct (BiomassPlotWidget.all_t_data w) as [|x l] eqn:Et.
  - cbn. eexists. split; [reflexivity |]. cbn. split; [done |]. left. by split.
  - destruct (BiomassPlotWidget.all_biomass_data w) as [|y b] eqn:Eb; [done |].
    change (0 <? length (x :: l))%nat with true. cbv iota.
    destruct (last (x :: l)) as [t|] eqn:Elt; [| by apply last_None in Elt].
    destruct (last (y :: b)) as [bm|] eqn:Elb; [| by apply last_None in Elb].
    cbn [mbind option_bind].
    match goal with
    | |- context [BiomassPlotWidget.add_streaming_point ?w1 _ _] => set (w0 := w1)
    end.
    destruct (add_streaming_point_history w0 t bm Hlen) as (w' & E & Ht' & Hb' & Hws).
    exists w'. split; [exact E |]. split; [by rewrite Hws |].
    right. exists t, bm. split; [| by split].
    rewrite last_lookup in Elt. by eapply list_elem_of_lookup_2.
Qed.

Lemma nondecreasing_cons_inv (x : Q) (l : list Q) :
  nondecreasing (x :: l) -> Forall (Qle x) l /\ nondecreasing l.
Proof.
  intros H. split.
  - apply Forall_forall. intros y Hy. apply list_elem_of_lookup in Hy as [i Hi].
    apply (H O (S i) x y); [done | done | lia].
  - intros i j a b Ha Hb Hlt. apply (H (S i) (S j) a b); [done | done | lia].
Qed.

Lemma nondecreasing_snoc (l : list Q) (x : Q) :
  nondecreasing l -> Forall (fun y => y <= x) l -> nondecreasing (l ++ [x]).
Proof.
  intros Hnd Hall i j a b Ha Hb Hlt.
  apply lookup_snoc_Some in Hb as [[Hj Hb] | [-> ->]].
  - rewrite lookup_app_l in Ha by lia. by apply (Hnd i j).
  - rewrite lookup_app_l in Ha by lia.
    rewrite Forall_forall in Hall. apply Hall. by eapply list_elem_of_lookup_2.
Qed.

Lemma nondecreasing_last (l : list Q) (x : Q) :
  nondecreasing l -> last l = Some x -> Forall (fun y => y <= x) l.
Proof.
  intros Hnd Hl. apply Forall_forall. intros y Hy.
  apply list_elem_of_lookup in Hy as [i Hi].
  rewrite last_lookup in Hl. pose proof (lookup_lt_Some _ _ _ Hi) as Hlt.
  destruct (decide (i = pred (length l))) as [-> | Hne].
  - rewrite Hi in Hl. injection Hl as ->. apply Qle_refl.
  - apply (Hnd i (pred (length l))); [done | done | lia].
Qed.

(** A tick either returns no frame and changes nothing, or returns a frame
    at the new cursor. *)
Lemma get_next_frame_cases st delta :
  aligned st ->
  get_next_frame st delta = (None, st) \/
  exists y,
    get_next_frame st delta
    = (Some (next_animation_time st delta, y),
       with_animation_time (next_animation_time st delta) st).
Proof.
  intros [Hb Hn]. unfold get_next_frame, next_animation_time.
  destruct (negb (is_playing st)); [by left |].
  destruct (length (buffer_times st) =? 0)%nat; [by left |]. right. cbn.
  destruct (Qltb _ _); cbn;
    rewrite !interpolate_biomass_with_animation_time; cbn;
    rewrite !(interpolate_biomass_state st _ Hb); by eexists.
Qed.

Lemma window_ok_zoom (w : MainWindow.window) (size : option Q) (future : list Q) :
  window_ok w future ->
  exists plot,
    BiomassPlotWidget.set_window_size (MainWindow.plot_widget w) size = Some plot /\
    BiomassPlotWidget.window_size plot = size /\
    window_ok (MainWindow.mkWindow (MainWindow.animation_controller w) plot
                 (MainWindow.last_frame_time w)) future.
Proof.
  intros (Hclock & Hlen & Hnd & Hle & Hlast).
  destruct (set_window_size_history (MainWindow.plot_widget w) size Hlen)
    as (plot & E & Hws & [[Ht Hb] | (t & bm & Hin & Hl & Ht & Hb)]).
  - exists plot. split; [exact E |]. split; [exact Hws |].
    unfold window_ok. cbn. rewrite Ht, Hb. done.
  - exists plot. split; [exact E |]. split; [exact Hws |].
    unfold window_ok. cbn. rewrite Ht, Hb.
    split; [done |]. split; [rewrite !length_app; simpl; lia |].
    split; [apply nondecreasing_snoc; [done | by apply nondecreasing_last] |].
    split; [| done].
    apply Forall_app. split; [done |]. constructor; [| constructor].
    rewrite Forall_forall in Hle. by apply Hle.
Qed.

Lemma handle_window_ok (w : MainWindow.window) (e : MainWindow.event)
    (events : list MainWindow.event) :
  window_ok w (timestamps (e :: events)) ->
  nondecreasing (timestamps (e :: events)) ->
  nonneg_event e ->
  exists w', MainWindow.handle w e = Some w' /\ window_ok w' (timestamps events).
Proof.
  intros Hok Hts He. pose proof Hok as (Hclock & Hlen & Hnd & Hle & Hlast).
  destruct e as [| t_epoch biomass_epoch | current_time | | speed | | |];
    cbn [MainWindow.handle].
  - (* on_run_clicked *)
    eexists. split; [reflexivity |]. unfold window_ok. cbn.
    destruct (exec_clock_ok _ Reset Hclock I) as (st' & [= <-] & Hc & _).
    split; [exact Hc |]. split; [done |]. split; [by intros i j a b Ha |].
    split; [constructor | done].
  - (* poll_data *)
    eexists. split; [reflexivity |]. unfold window_ok. cbn.
    destruct (add_data_chunk_clock_ok _ t_epoch biomass_epoch Hclock He) as [Hc Ha].
    split; [exact Hc |]. split; [done |]. split; [done |].
    split; [by rewrite Ha | exact Hlast].
  - (* animate_frame *)
    change (timestamps (MainWindow.AnimateFrame current_time :: events))
      with (current_time :: timestamps events) in *.
    apply nondecreasing_cons_inv in Hts as [Hfuture _].
    unfold MainWindow.animate_frame.
    destruct (MainWindow.last_frame_time w) as [last|] eqn:El.
    + assert (0 <= current_time - last) as Hdelta.
      { pose proof (Hlast last eq_refl) as H. apply Forall_cons in H as [H _]. lra. }
      destruct (exec_clock_ok _ (GetNextFrame (current_time - last)) Hclock Hdelta)
        as (st' & [= <-] & Hc & Hmono).
      specialize (Hmono ltac:(done)).
      destruct (get_next_frame_cases (MainWindow.animation_controller w)
                  (current_time - last)) as [E | [y E]]; [apply Hclock | |].
      * rewrite E in *. cbn in *. eexists. split; [reflexivity |].
        unfold window_ok. cbn. split; [done |]. split; [done |]. split; [done |].
        split; [done |]. by intros ? [= <-].
      * rewrite E in *. cbn [fst snd] in *.
        destruct (add_streaming_point_history (MainWindow.plot_widget w)
                    (next_animation_time (MainWindow.animation_controller w)
                       (current_time - last)) y Hlen)
          as (plot & Ep & Ht & Hb & _).
        rewrite Ep. cbn [mbind option_bind]. eexists. split; [reflexivity |].
        unfold window_ok. cbn [MainWindow.animation_controller MainWindow.plot_widget
                                 MainWindow.last_frame_time].
        rewrite Ht, Hb. cbn in Hmono |- *.
        assert (Forall (fun t => t <= next_animation_time
                                       (MainWindow.animation_controller w)
                                       (current_time - last))
                  (BiomassPlotWidget.all_t_data (MainWindow.plot_widget w))) as Hle'.
        { eapply Forall_impl; [exact Hle |]. intros t Ht'. simpl in Ht'. lra. }
        split; [exact Hc |]. split; [rewrite !length_app; simpl; lia |].
        split; [by apply nondecreasing_snoc |].
        split; [| by intros ? [= <-]].
        apply Forall_app. split; [done |]. constructor; [apply Qle_refl | constructor].
    + eexists. split; [reflexivity |]. unfold window_ok. cbn.
      split; [done |]. split; [done |]. split; [done |]. split; [done |].
      by intros ? [= <-].
  - (* toggle_play_pause *)
    unfold MainWindow.toggle_play_pause.
    destruct (is_playing (MainWindow.animation_controller w)).
    + eexists. split; [reflexivity |]. unfold window_ok. cbn.
      destruct (exec_clock_ok _ Pause Hclock I) as (st' & [= <-] & Hc & _).
      done.
    + eexists. split; [reflexivity |]. unfold window_ok. cbn.
      destruct (exec_clock_ok _ Play Hclock I) as (st' & [= <-] & Hc & _).
      done.
  - (* on_speed_changed *)
    eexists. split; [reflexivity |]. unfold window_ok. cbn.
    destruct (exec_clock_ok _ (SetSpeed speed) Hclock I) as (st' & [= <-] & Hc & _).
    done.
  - (* on_zoom_in *)
    unfold MainWindow.on_zoom_in.
    destruct (BiomassPlotWidget.window_size (MainWindow.plot_widget w)) as [current|].
    + destruct (window_ok_zoom w (Some (current * 0.5)) _ Hok) as (plot & -> & _ & H).
      cbn [mbind option_bind]. by eexists.
    + destruct (Qltb 0 _).
      * destruct (window_ok_zoom w
                    (Some (integration_time (MainWindow.animation_controller w) * 0.5))
                    _ Hok) as (plot & -> & _ & H).
        cbn [mbind option_bind]. by eexists.
      * by exists w.
  - (* on_zoom_out *)
    unfold MainWindow.on_zoom_out.
    destruct (BiomassPlotWidget.window_size (MainWindow.plot_widget w)) as [current|];
      [| by exists w].
    destruct (Qle_bool _ _).
    + destruct (window_ok_zoom w None _ Hok) as (plot & -> & _ & H).
      cbn [mbind option_bind]. by eexists.
    + destruct (window_ok_zoom w (Some (current * 2)) _ Hok) as (plot & -> & _ & H).
      cbn [mbind option_bind]. by eexists.
  - (* on_zoom_reset *)
    unfold MainWindow.on_zoom_reset.
    destruct (window_ok_zoom w None _ Hok) as (plot & -> & _ & H).
    cbn [mbind option_bind]. by eexists.
Qed.

Lemma timestamps_cons_nondecreasing e events :
  nondecreasing (timestamps (e :: events)) -> nondecreasing (timestamps events).
Proof.
  destruct e; try done.
  change (timestamps (MainWindow.AnimateFrame current_time :: events))
    with (current_time :: timestamps events).
  intros H. by apply nondecreasing_cons_inv in H as [_ H].
Qed.

Lemma run_window_ok (events : list MainWindow.event) (w : MainWindow.window) :
  window_ok w (timestamps events) ->
  nondecreasing (timestamps events) ->
  Forall nonneg_event events ->
  exists w', MainWindow.run w events = Some w' /\ window_ok w' [].
Proof.
  revert w. induction events as [|e events IH]; intros w Hok Hts Hnn.
  - exists w. split; [done | exact Hok].
  - apply Forall_cons in Hnn as [He Hnn].
    destruct (handle_window_ok w e events Hok Hts He) as (w1 & E1 & Hok1).
    destruct (IH w1 Hok1 (timestamps_cons_nondecreasing _ _ Hts) Hnn)
      as (w' & E' & Hok').
    exists w'. split; [| done]. cbn [MainWindow.run]. by rewrite E1.
Qed.

(** X26 ([MainWindow.animate_frame], [poll_data], [on_run_clicked],
    [toggle_play_pause], [on_speed_changed], [on_zoom_in], [on_zoom_out],
    [on_zoom_reset]).  The curve the main window plots runs forward in
    time: after any sequence of these handlers, with non-decreasing
    wall-clock times and non-negative simulation times, no handler has
    raised, the two history lists of the plot have one length, the plotted
    times are non-decreasing, and none lies beyond the controller's
    [animation_time] or [integration_time]. *)
Theorem main_window_plots_forward_in_time (events : list MainWindow.event) :
  nondecreasing (timestamps events) ->
  Forall nonneg_event events ->
  exists w,
    MainWindow.run MainWindow.init events = Some w /\
    let plot := MainWindow.plot_widget w in
    let controller := MainWindow.animation_controller w in
    length (BiomassPlotWidget.all_t_data plot)
      = length (BiomassPlotWidget.all_biomass_data plot) /\
    nondecreasing (BiomassPlotWidget.all_t_data plot) /\
    (forall t, t ∈ BiomassPlotWidget.all_t_data plot ->
       t <= animation_time controller /\ t <= integration_time controller).
Proof.
  intros Hts Hnn.
  assert (window_ok MainWindow.init (timestamps events)) as Hinit.
  { unfold window_ok. cbv zeta.
    split; [apply (init_clock_ok 1 100 1000); lra |].
    split; [done |]. split; [by intros i j a b Ha |].
    split; [by apply Forall_nil | done]. }
  destruct (run_window_ok events MainWindow.init Hinit Hts Hnn) as (w & E & Hok).
  exists w. split; [exact E |].
  destruct Hok as (Hclock & Hlen & Hnd & Hle & _).
  split; [exact Hlen |]. split; [exact Hnd |].
  intros t Ht. rewrite Forall_forall in Hle. specialize (Hle t Ht).
  destruct Hclock as (_ & _ & _ & Hai & _). split; [done | lra].
Qed.

Lemma main_window_plots_forward_in_time_witness :
  exists w,
    MainWindow.run MainWindow.init
      [MainWindow.RunClicked; MainWindow.PollData [0; 10; 20] [1; 2; 3];
       MainWindow.AnimateFrame 100; MainWindow.AnimateFrame 101;
       MainWindow.ZoomIn; MainWindow.AnimateFrame 103] = Some w /\
    nondecreasing (BiomassPlotWidget.all_t_data (MainWindow.plot_widget w)).
Proof.
  assert (nondecreasing
            (timestamps
               [MainWindow.RunClicked; MainWindow.PollData [0; 10; 20] [1; 2; 3];
                MainWindow.AnimateFrame 100; MainWindow.AnimateFrame 101;
                MainWindow.ZoomIn; MainWindow.AnimateFrame 103])) as H1.
  { apply strictly_increasing_nondecreasing, all_diff_positive_spec. reflexivity. }
  assert (Forall nonneg_event
            [MainWindow.RunClicked; MainWindow.PollData [0; 10; 20] [1; 2; 3];
             MainWindow.AnimateFrame 100; MainWindow.AnimateFrame 101;
             MainWindow.ZoomIn; MainWindow.AnimateFrame 103]) as H2.
  { repeat apply Forall_cons_2; try exact I; try apply Forall_nil_2;
      vm_compute; discriminate. }
  destruct (main_window_plots_forward_in_time _ H1 H2) as (w & E & _ & Hnd & _).
  exists w. split; [exact E | exact Hnd].
Defined.

(** * Properties of the multi-type plot *)

Lemma py_max_floor (a b : Q) : b <= py_max a b.
Proof. unfold py_max. destruct (Qltb a b) eqn:E; qprop; lra. Qed.

(** One turn of the loop of [update_data]. *)
Lemma update_line_ok (w : MultiTypePlotWidget.widget) (seen : list string)
    (t_new abundance : Q) (lid : string) :
  plot_ok w seen ->
  exists w',
    MultiTypePlotWidget.update_line t_new (Some w) (lid, abundance) = Some w' /\
    plot_ok w' (if decide (lid ∈ seen) then seen else seen ++ [lid]) /\
    MultiTypePlotWidget.num_colors w' = MultiTypePlotWidget.num_colors w /\
    MultiTypePlotWidget.mutation_markers w' = MultiTypePlotWidget.mutation_markers w /\
    MultiTypePlotWidget.last_plotted_mutation_idx w'
      = MultiTypePlotWidget.last_plotted_mutation_idx w.
Proof.
  intros (Hn & Hnd & Hsize & Hmap & Hlines & Hdata & Hrows).
  assert (forall l, l ∈ seen <-> is_Some (MultiTypePlotWidget.lineage_id_map w !! l))
    as Hseen.
  { intros l. split.
    - intros Hin. apply list_elem_of_lookup in Hin as [k Hk].
      eexists. apply Hmap. by exists k.
    - intros [c Hc]. apply Hmap in Hc as (k & Hk & _). by eapply list_elem_of_lookup_2. }
  unfold MultiTypePlotWidget.update_line. cbn [mbind option_bind].
  cbn [MultiTypePlotWidget.type_lines MultiTypePlotWidget.type_data
       MultiTypePlotWidget.lineage_id_map MultiTypePlotWidget.num_colors
       MultiTypePlotWidget.mutation_markers
       MultiTypePlotWidget.last_plotted_mutation_idx
       MultiTypePlotWidget.window_size].
  destruct (decide (lid ∈ dom (MultiTypePlotWidget.type_lines w))) as [Hin | Hnin].
  - (* the lineage has a line *)
    apply elem_of_dom in Hin. pose proof Hin as Hin'.
    apply Hdata in Hin' as [[ts Ns] Hd].
    destruct (Hrows lid ts Ns Hd) as (Hlen & Hfloor & c & Hline & Hc).
    rewrite Hd. cbn [default from_option id fst snd mbind option_bind].
    cbn [MultiTypePlotWidget.type_lines MultiTypePlotWidget.type_data
         MultiTypePlotWidget.lineage_id_map MultiTypePlotWidget.num_colors
         MultiTypePlotWidget.mutation_markers
         MultiTypePlotWidget.last_plotted_mutation_idx
         MultiTypePlotWidget.window_size].
    rewrite Hline. cbn [mbind option_bind MultiTypePlotWidget.color].
    assert ((length (ts ++ [t_new]) =? length (Ns ++ [py_max abundance (1 # 10000000000)]))%nat
            = true) as -> by (apply Nat.eqb_eq; rewrite !length_app; simpl; lia).
    cbn [negb]. eexists. split; [reflexivity |].
    assert (lid ∈ seen) as Hs by (apply Hseen; by exists c).
    destruct (decide (lid ∈ seen)); [| done].
    split; [| done]. unfold plot_ok. cbn.
    split; [done |]. split; [done |]. split; [done |]. split; [done |].
    split; [| split].
    + intros l. destruct (decide (l = lid)) as [-> | Hne].
      * rewrite lookup_insert_eq. split; [intros _; by exists c | by eexists].
      * rewrite lookup_insert_ne by done. apply Hlines.
    + intros l. destruct (decide (l = lid)) as [-> | Hne].
      * rewrite !lookup_insert_eq. split; by eexists.
      * rewrite !lookup_insert_ne by done. apply Hdata.
    + intros l ts' Ns' Hl. destruct (decide (l = lid)) as [-> | Hne].
      * rewrite lookup_insert_eq in Hl. injection Hl as <- <-.
        split; [rewrite !length_app; simpl; lia |].
        split; [apply Forall_app; split; [done |];
                constructor; [apply py_max_floor | constructor] |].
        exists c. by rewrite lookup_insert_eq.
      * rewrite lookup_insert_ne in Hl by done.
        rewrite lookup_insert_ne by done. by apply Hrows.
  - (* a new lineage *)
    apply not_elem_of_dom in Hnin.
    assert (MultiTypePlotWidget.lineage_id_map w !! lid = None) as Hnomap.
    { destruct (MultiTypePlotWidget.lineage_id_map w !! lid) eqn:E; [| done].
      assert (is_Some (MultiTypePlotWidget.type_lines w !! lid)) as [? H]
        by (apply Hlines; by eexists).
      congruence. }
    assert (MultiTypePlotWidget.type_data w !! lid = None) as Hnodata.
    { destruct (MultiTypePlotWidget.type_data w !! lid) eqn:E; [| done].
      assert (is_Some (MultiTypePlotWidget.type_lines w !! lid)) as [? H]
        by (apply Hdata; by eexists).
      congruence. }
    assert (lid ∉ seen) as Hs.
    { intros H. apply Hseen in H as [? H]. congruence. }
    rewrite Hnodata. cbn [default from_option id fst snd app].
    unfold MultiTypePlotWidget.assign_color.
    cbn [MultiTypePlotWidget.type_lines MultiTypePlotWidget.type_data
         MultiTypePlotWidget.lineage_id_map MultiTypePlotWidget.num_colors
         MultiTypePlotWidget.mutation_markers
         MultiTypePlotWidget.last_plotted_mutation_idx
         MultiTypePlotWidget.window_size].
    destruct (decide (lid ∈ dom (MultiTypePlotWidget.lineage_id_map w))) as [H | _];
      [apply elem_of_dom in H as [? H]; congruence |].
    assert ((MultiTypePlotWidget.num_colors w =? 0)%nat = false) as ->
      by (apply Nat.eqb_neq; lia).
    cbn [mbind option_bind].
    cbn [MultiTypePlotWidget.type_lines MultiTypePlotWidget.type_data
         MultiTypePlotWidget.lineage_id_map MultiTypePlotWidget.num_colors
         MultiTypePlotWidget.mutation_markers
         MultiTypePlotWidget.last_plotted_mutation_idx
         MultiTypePlotWidget.window_size].
    rewrite lookup_insert_eq. cbn [mbind option_bind].
    cbn [MultiTypePlotWidget.type_lines MultiTypePlotWidget.type_data
         MultiTypePlotWidget.lineage_id_map MultiTypePlotWidget.num_colors
         MultiTypePlotWidget.mutation_markers
         MultiTypePlotWidget.last_plotted_mutation_idx
         MultiTypePlotWidget.window_size].
    rewrite lookup_insert_eq. cbn [mbind option_bind MultiTypePlotWidget.color length
                                     Nat.eqb negb].
    eexists. split; [reflexivity |].
    destruct (decide (lid ∈ seen)); [done |].
    split; [| done]. unfold plot_ok. cbn.
    split; [done |].
    split; [apply NoDup_app; split; [done |]; split;
            [intros x Hx Hx'; apply list_elem_of_singleton in Hx'; by subst
            | apply NoDup_singleton] |].
    split; [rewrite length_app, map_size_insert_None by done; simpl; lia |].
    split; [| split; [| split]].
    + intros l c. destruct (decide (l = lid)) as [-> | Hne].
      * rewrite lookup_insert_eq. split.
        -- intros [= <-]. exists (length seen). split; [by apply list_lookup_middle |].
           by rewrite Hsize.
        -- intros (k & Hk & ->). apply lookup_snoc_Some in Hk as [[Hlt Hk] | [-> _]].
           ++ exfalso. apply Hs. by eapply list_elem_of_lookup_2.
           ++ by rewrite Hsize.
      * rewrite lookup_insert_ne by done. rewrite Hmap. split.
        -- intros (k & Hk & ->). exists k. split; [by apply lookup_app_l_Some | done].
        -- intros (k & Hk & ->). apply lookup_snoc_Some in Hk as [[Hlt Hk] | [_ ->]];
             [by exists k | done].
    + intros l. destruct (decide (l = lid)) as [-> | Hne].
      * rewrite !lookup_insert_eq. split; by eexists.
      * rewrite !lookup_insert_ne by done. apply Hlines.
    + intros l. destruct (decide (l = lid)) as [-> | Hne].
      * rewrite !lookup_insert_eq. split; by eexists.
      * rewrite !lookup_insert_ne by done. apply Hdata.
    + intros l ts' Ns' Hl. destruct (decide (l = lid)) as [-> | Hne].
      * rewrite lookup_insert_eq in Hl. injection Hl as <- <-.
        split; [done |].
        split; [constructor; [apply py_max_floor | constructor] |].
        eexists. by rewrite !lookup_insert_eq.
      * rewrite lookup_insert_ne in Hl by done.
        rewrite !lookup_insert_ne by done. by apply Hrows.
Qed.

Lemma appear_cons seen lid ids :
  appear seen (lid :: ids)
  = appear (if decide (lid ∈ seen) then seen else seen ++ [lid]) ids.
Proof. reflexivity. Qed.

Lemma appear_app seen ids ids' :
  appear seen (ids ++ ids') = appear (appear seen ids) ids'.
Proof. unfold appear. by rewrite fold_left_app. Qed.

Lemma elem_of_appear seen ids lid : lid ∈ appear seen ids <-> lid ∈ seen \/ lid ∈ ids.
Proof.
  revert seen. induction ids as [|x ids IH]; intros seen.
  - simpl. rewrite elem_of_nil. tauto.
  - rewrite appear_cons, IH, elem_of_cons. destruct (decide (x ∈ seen)).
    + split; [tauto |]. intros [H | [-> | H]]; tauto.
    + rewrite elem_of_app, list_elem_of_singleton. tauto.
Qed.

Lemma fold_update_line_None t items :
  fold_left (MultiTypePlotWidget.update_line t) items None = None.
Proof. by induction items. Qed.

Lemma fold_update_line_ok (items : list (string * Q)) (w : MultiTypePlotWidget.widget)
    (seen : list string) (t : Q) :
  plot_ok w seen ->
  exists w',
    fold_left (MultiTypePlotWidget.update_line t) items (Some w) = Some w' /\
    plot_ok w' (appear seen (items.*1)) /\
    MultiTypePlotWidget.num_colors w' = MultiTypePlotWidget.num_colors w /\
    MultiTypePlotWidget.mutation_markers w' = MultiTypePlotWidget.mutation_markers w /\
    MultiTypePlotWidget.last_plotted_mutation_idx w'
      = MultiTypePlotWidget.last_plotted_mutation_idx w.
Proof.
  revert w seen. induction items as [|[lid a] items IH]; intros w seen Hok.
  - by exists w.
  - destruct (update_line_ok w seen t a lid Hok) as (w1 & E1 & Hok1 & Hn1 & Hm1 & Hi1).
    destruct (IH w1 _ Hok1) as (w' & E' & Hok' & Hn' & Hm' & Hi').
    exists w'. cbn [fold_left]. rewrite E1. split; [exact E' |].
    cbn [fmap list_fmap fst]. rewrite appear_cons.
    split; [exact Hok' |]. split; [congruence |]. split; congruence.
Qed.

Lemma update_data_ok (w : MultiTypePlotWidget.widget) (seen : list string)
    (t : Q) (items : list (string * Q)) (mutation_occurred : bool) :
  plot_ok w seen ->
  exists w',
    MultiTypePlotWidget.update_data w t items mutation_occurred = Some w' /\
    plot_ok w' (appear seen (items.*1)) /\
    MultiTypePlotWidget.num_colors w' = MultiTypePlotWidget.num_colors w /\
    MultiTypePlotWidget.mutation_markers w'
      = (if mutation_occurred then MultiTypePlotWidget.mutation_markers w ++ [t]
         else MultiTypePlotWidget.mutation_markers w) /\
    MultiTypePlotWidget.last_plotted_mutation_idx w'
      = MultiTypePlotWidget.last_plotted_mutation_idx w.
Proof.
  intros Hok. unfold MultiTypePlotWidget.update_data.
  destruct (fold_update_line_ok items w seen t Hok) as (w1 & -> & Hok1 & Hn & Hm & Hi).
  cbn [mbind option_bind]. eexists. split; [reflexivity |]. cbn.
  split; [exact Hok1 |]. split; [done |]. by rewrite Hm.
Qed.

Lemma plot_frames_ok (frames : list (Q * list (string * Q) * bool))
    (w : MultiTypePlotWidget.widget) (seen : list string) :
  plot_ok w seen ->
  exists w',
    plot_frames w frames = Some w' /\
    plot_ok w' (appear seen (frame_ids frames)) /\
    MultiTypePlotWidget.num_colors w' = MultiTypePlotWidget.num_colors w.
Proof.
  revert w seen. induction frames as [|[[t items] mut] frames IH]; intros w seen Hok.
  - by exists w.
  - destruct (update_data_ok w seen t items mut Hok) as (w1 & E1 & Hok1 & Hn1 & _).
    destruct (IH w1 _ Hok1) as (w' & E' & Hok' & Hn').
    exists w'. unfold plot_frames in *. cbn [fold_left mbind option_bind fst snd].
    rewrite E1. split; [exact E' |].
    unfold frame_ids. cbn [fmap list_fmap concat fst snd].
    rewrite appear_app. split; [exact Hok' | congruence].
Qed.

Lemma init_plot_ok (n : nat) (window_size : option Q) :
  (0 < n)%nat -> plot_ok (MultiTypePlotWidget.init n window_size) [].
Proof.
  intros Hn. unfold plot_ok. cbn.
  split; [done |]. split; [constructor |]. split; [by rewrite map_size_empty |].
  split; [| split; [| split]].
  - intros lid c. rewrite lookup_empty. split; [done |]. by intros (k & Hk & _).
  - intros lid. by rewrite !lookup_empty.
  - intros lid. by rewrite !lookup_empty.
  - intros lid ts Ns. by rewrite lookup_empty.
Qed.

(** X27 ([MultiTypePlotWidget.assign_color], [update_data]).  Colours
    follow the order of first appearance: after any sequence of frames on
    a new widget with a non-empty palette of [n] colours no call has
    raised, and a lineage has colour index [c] exactly when it is the
    [k]-th lineage (from 0) to have appeared and [c = k mod n].  So the
    colour of a lineage never changes, the line of a lineage has the
    colour of the map, and as long as no more than [n] lineages have
    appeared no two share a colour.  With an empty palette the first frame
    that brings a lineage raises. *)
Theorem colours_follow_first_appearance
    (n : nat) (window_size : option Q)
    (frames : list (Q * list (string * Q) * bool)) :
  ((0 < n)%nat ->
   exists w,
     plot_frames (MultiTypePlotWidget.init n window_size) frames = Some w /\
     (forall lid c,
        MultiTypePlotWidget.lineage_id_map w !! lid = Some c <->
        exists k, first_appearances (frame_ids frames) !! k = Some lid /\
                  c = (k mod n)%nat) /\
     (forall lid l,
        MultiTypePlotWidget.type_lines w !! lid = Some l ->
        MultiTypePlotWidget.lineage_id_map w !! lid
          = Some (MultiTypePlotWidget.color l)) /\
     ((length (first_appearances (frame_ids frames)) <= n)%nat ->
      forall lid lid' c,
        MultiTypePlotWidget.lineage_id_map w !! lid = Some c ->
        MultiTypePlotWidget.lineage_id_map w !! lid' = Some c -> lid = lid')) /\
  (forall t lid abundance items mutation_occurred,
     MultiTypePlotWidget.update_data (MultiTypePlotWidget.init 0 window_size) t
       ((lid, abundance) :: items) mutation_occurred = None).
Proof.
  split.
  - intros Hn.
    destruct (plot_frames_ok frames _ [] (init_plot_ok n window_size Hn))
      as (w & E & Hok & Hnum).
    exists w. split; [exact E |].
    destruct Hok as (_ & Hnd & Hsize & Hmap & Hlines & Hdata & Hrows).
    cbn in Hnum. rewrite Hnum in Hmap. fold (first_appearances (frame_ids frames)) in *.
    split; [exact Hmap |]. split.
    + intros lid l Hl.
      assert (is_Some (MultiTypePlotWidget.type_data w !! lid)) as [[ts Ns] Hd]
        by (apply Hdata; by eexists).
      destruct (Hrows lid ts Ns Hd) as (_ & _ & c & Hl' & Hc).
      rewrite Hl in Hl'. injection Hl' as ->. exact Hc.
    + intros Hlen lid lid' c H1 H2.
      apply Hmap in H1 as (k & Hk & ->). apply Hmap in H2 as (k' & Hk' & Heq).
      pose proof (lookup_lt_Some _ _ _ Hk). pose proof (lookup_lt_Some _ _ _ Hk').
      rewrite !Nat.mod_small in Heq by lia. subst k'. congruence.
  - intros t lid abundance items mutation_occurred.
    unfold MultiTypePlotWidget.update_data. cbn [fold_left].
    assert (MultiTypePlotWidget.update_line t
              (Some (MultiTypePlotWidget.init 0 window_size)) (lid, abundance) = None)
      as -> by reflexivity.
    by rewrite fold_update_line_None.
Qed.

Lemma colours_follow_first_appearance_witness :
  exists w,
    plot_frames (MultiTypePlotWidget.init 2 None)
      [(1, [("B", 5); ("A", 7)], false); (2, [("A", 8); ("C", 1)], true)] = Some w /\
    MultiTypePlotWidget.lineage_id_map w !! "C" = Some 0%nat.
Proof.
  destruct (proj1 (colours_follow_first_appearance 2 None
                     [(1, [("B", 5); ("A", 7)], false); (2, [("A", 8); ("C", 1)], true)]))
    as (w & E & Hmap & _); [lia |].
  exists w. split; [exact E |]. apply Hmap. exists 2%nat. split; reflexivity.
Defined.

(** X28 ([MultiTypePlotWidget.update_data]).  After any sequence of frames
    on a new widget with a non-empty palette, the lineages with data are
    those that appeared in a frame; for each of them the time and
    abundance lists have one length (the truncation branch of [update_data]
    is never taken), every stored abundance is at least [1e-10] and so
    positive, as the logarithmic axis needs, and the lineage has a line
    that shows exactly these two lists. *)
Theorem plot_data_aligned_and_positive
    (n : nat) (window_size : option Q)
    (frames : list (Q * list (string * Q) * bool)) :
  (0 < n)%nat ->
  exists w,
    plot_frames (MultiTypePlotWidget.init n window_size) frames = Some w /\
    (forall lid, is_Some (MultiTypePlotWidget.type_data w !! lid) <->
                 lid ∈ frame_ids frames) /\
    (forall lid ts Ns,
       MultiTypePlotWidget.type_data w !! lid = Some (ts, Ns) ->
       length ts = length Ns /\
       Forall (fun v => (1 # 10000000000) <= v /\ 0 < v) Ns /\
       exists c,
         MultiTypePlotWidget.type_lines w !! lid
         = Some (MultiTypePlotWidget.mkLine c ts Ns)).
Proof.
  intros Hn.
  destruct (plot_frames_ok frames _ [] (init_plot_ok n window_size Hn))
    as (w & E & Hok & Hnum).
  exists w. split; [exact E |].
  destruct Hok as (_ & Hnd & Hsize & Hmap & Hlines & Hdata & Hrows).
  split.
  - intros lid. rewrite <- Hdata, Hlines. split.
    + intros [c Hc]. apply Hmap in Hc as (k & Hk & _).
      apply list_elem_of_lookup_2, elem_of_appear in Hk as [Hk | Hk]; [| done].
      by apply elem_of_nil in Hk.
    + intros Hin.
      assert (lid ∈ appear [] (frame_ids frames)) as Hin'
        by (apply elem_of_appear; by right).
      apply list_elem_of_lookup in Hin' as [k Hk].
      eexists. apply Hmap. by exists k.
  - intros lid ts Ns Hd. destruct (Hrows lid ts Ns Hd) as (Hlen & Hfloor & c & Hl & _).
    split; [exact Hlen |]. split; [| by exists c].
    eapply Forall_impl; [exact Hfloor |]. intros v Hv. simpl in Hv. split; [done |].
    assert (0 < 1 # 10000000000) by reflexivity. lra.
Qed.

Lemma plot_data_aligned_and_positive_witness :
  exists w,
    plot_frames (MultiTypePlotWidget.init 2 None)
      [(1, [("B", 0); ("A", 7)], false); (2, [("A", 8)], true)] = Some w /\
    is_Some (MultiTypePlotWidget.type_data w !! "B").
Proof.
  destruct (plot_data_aligned_and_positive 2 None
              [(1, [("B", 0); ("A", 7)], false); (2, [("A", 8)], true)])
    as (w & E & Hdom & _); [lia |].
  exists w. split; [exact E |]. apply Hdom.
  change ("B" ∈ ["B"; "A"; "A"]). apply list_elem_of_here.
Defined.

(** X29 ([MultiTypePlotWidget.update_from_controller]).  On a sorted and
    aligned controller and a widget in order, the call does not raise and
    leaves the controller as it is.  While [animation_time] is 0 or the
    interpolated dict is empty nothing is drawn and the widget is
    unchanged, so pending mutation events stay pending.  Otherwise, when
    the controller has logged more events than the widget has marked, one
    marker is added, at the animation time, however many events are
    pending, and the widget's count catches up; when nothing is pending no
    marker is added. *)
Theorem update_from_controller_markers
    (items : gmap string Q -> list (string * Q))
    (w : MultiTypePlotWidget.widget) (seen : list string)
    (controller : AnimationController) :
  plot_ok w seen -> buffers_ok controller ->
  let t_anim := animation_time controller in
  let N_by_lineage := (_interpolate_multi_type_abundance controller t_anim).1 in
  let pending :=
    (MultiTypePlotWidget.last_plotted_mutation_idx w
     < length (mutation_events controller))%nat in
  exists w',
    MultiTypePlotWidget.update_from_controller items w controller
      = Some (w', controller) /\
    MultiTypePlotWidget.num_colors w' = MultiTypePlotWidget.num_colors w /\
    (t_anim == 0 \/ N_by_lineage = ∅ -> w' = w) /\
    (~ t_anim == 0 -> N_by_lineage <> ∅ -> pending ->
     MultiTypePlotWidget.mutation_markers w'
       = MultiTypePlotWidget.mutation_markers w ++ [t_anim] /\
     MultiTypePlotWidget.last_plotted_mutation_idx w'
       = length (mutation_events controller)) /\
    (~ t_anim == 0 -> N_by_lineage <> ∅ -> ~ pending ->
     MultiTypePlotWidget.mutation_markers w' = MultiTypePlotWidget.mutation_markers w /\
     MultiTypePlotWidget.last_plotted_mutation_idx w'
       = MultiTypePlotWidget.last_plotted_mutation_idx w).
Proof.
  intros Hok [_ [_ Hn]] t_anim N_by_lineage pending.
  unfold MultiTypePlotWidget.update_from_controller. fold t_anim.
  destruct (Qeq_bool t_anim 0) eqn:E0; qprop.
  { exists w. split; [done |]. split; [done |]. split; [done |].
    split; intros H; by destruct H. }
  pose proof (interpolate_multi_state controller t_anim Hn) as Hst.
  fold t_anim in Hst.
  destruct (_interpolate_multi_type_abundance controller t_anim) as [d c'] eqn:Ei.
  simpl in Hst. subst c'. subst N_by_lineage. cbn [fst].
  destruct (decide (d = ∅)) as [-> | Hne].
  { exists w. split; [done |]. split; [done |]. split; [done |].
    split; intros _ H; by destruct H. }
  destruct (MultiTypePlotWidget.last_plotted_mutation_idx w
            <? length (mutation_events controller))%nat eqn:Ep.
  - apply Nat.ltb_lt in Ep.
    match goal with
    | |- context [MultiTypePlotWidget.update_data ?w1 _ _ _] =>
        assert (plot_ok w1 seen) as Hok1 by exact Hok;
        destruct (update_data_ok w1 seen t_anim (items d) true Hok1)
          as (w' & -> & _ & Hnum & Hm & Hi)
    end.
    cbn [mbind option_bind]. exists w'. split; [done |]. split; [exact Hnum |].
    split; [intros [H | H]; done |]. split; [intros _ _ _; by split |].
    intros _ _ H. by destruct H.
  - apply Nat.ltb_ge in Ep.
    destruct (update_data_ok w seen t_anim (items d) false Hok)
      as (w' & -> & _ & Hnum & Hm & Hi).
    cbn [mbind option_bind]. exists w'. split; [done |]. split; [exact Hnum |].
    split; [intros [H | H]; done |].
    split; [intros _ _ H; unfold pending in H; lia |]. intros _ _ _. by split.
Qed.

Lemma update_from_controller_markers_witness :
  exists w',
    MultiTypePlotWidget.update_from_controller map_to_list
      (MultiTypePlotWidget.init 50 None) default_controller
    = Some (w', default_controller) /\
    w' = MultiTypePlotWidget.init 50 None.
Proof.
  assert (plot_ok (MultiTypePlotWidget.init 50 None) []) as Hok
    by (apply init_plot_ok; lia).
  destruct (update_from_controller_markers map_to_list
              (MultiTypePlotWidget.init 50 None) [] default_controller
              Hok (init_buffers_ok 1 100 1000))
    as (w' & E & _ & Hsame & _).
  exists w'. split; [exact E |]. apply Hsame. left. reflexivity.
Defined.

(** * Properties of [parse_array_input] *)

(** X30 ([parse_array_input]).  A result is always usable as an array of
    the expected length: whenever the function returns an array, the array
    has [expected_length] elements and each of them is the value of a
    comma-separated field of the text.  A text with a single field is
    broadcast: the result is [expected_length] copies of its value.  A
    field that is not a number makes the result [None]. *)
Theorem parse_array_input_length
    (float : string -> option Q) (text : string) (expected_length : nat) :
  (forall a, parse_array_input float text expected_length = Some a ->
     length a = expected_length /\
     forall v, v ∈ a ->
       exists field, field ∈ split_comma text /\ float field = Some v) /\
  (forall field v, split_comma text = [field] -> float field = Some v ->
     parse_array_input float text expected_length
     = Some (replicate expected_length v)) /\
  (forall field, field ∈ split_comma text -> float field = None ->
     parse_array_input float text expected_length = None).
Proof.
  unfold parse_array_input. split; [| split].
  - intros a Ha.
    destruct (mapM float (split_comma text)) as [values|] eqn:Em; [| done].
    pose proof Em as HF. apply mapM_Some in HF.
    assert (forall v, v ∈ values ->
              exists field, field ∈ split_comma text /\ float field = Some v) as Hval.
    { intros v Hv. apply list_elem_of_lookup in Hv as [i Hi].
      destruct (Forall2_lookup_r _ _ _ _ _ HF Hi) as (field & Hf & Hfv).
      exists field. split; [by eapply list_elem_of_lookup_2 | done]. }
    destruct (length values =? 1)%nat eqn:E1.
    + injection Ha as <-. split; [apply length_replicate |].
      intros v Hv. apply elem_of_replicate in Hv as [-> _].
      destruct values as [|v0 [|? ?]]; try done. simpl.
      apply Hval, list_elem_of_here.
    + destruct (length values =? expected_length)%nat eqn:E2; [| done].
      injection Ha as <-. split; [by apply Nat.eqb_eq | exact Hval].
  - intros field v Hs Hv. rewrite Hs. simpl. by rewrite Hv.
  - intros field Hin Hnone.
    assert (mapM float (split_comma text) = None) as ->; [| done].
    apply mapM_None, Exists_exists. by exists field.
Qed.

Lemma parse_array_input_length_witness :
  parse_array_input (fun s => if String.eqb s "7" then Some 7 else None) "7" 3
  = Some [7; 7; 7].
Proof.
  apply (proj1 (proj2 (parse_array_input_length
                         (fun s => if String.eqb s "7" then Some 7 else None) "7" 3))
           "7" 7); reflexivity.
Defined.
